(** * Marroq market-making controller and executor orchestration

    A shallow embedding of

    - [hummingbot/smart_components/utils/peak_analysis_utils.py],
    - [controllers/market_making/marroq.py],
    - [hummingbot/smart_components/strategy_frameworks/generic_strategy/generic_executor.py],
    - [scripts/v2_pmm_single_level.py],

    followed by the properties of the design document that concern them.

    Conventions of the embedding.

    - [Decimal] and [numpy.float64] values are exact rationals ([Q]); the
      rounding of the decimal context and of binary floating point is not
      modelled.  A value that may be the IEEE/decimal quiet NaN has type
      [num].
    - A Python exception is a value of [exn]; a computation that may raise
      has type [result A].
    - Calls into scipy and into the executor runtime are fields of the
      classes [Scipy] and [ExecutorRuntime]: every statement that does not
      fix an instance holds whatever these collaborators return. *)

From Stdlib Require Import String Ascii QArith Qminmax Qabs ZArith List Bool Arith Lia.
From Stdlib Require Import Sorted Permutation.
Import ListNotations.

Local Open Scope Q_scope.
Local Open Scope list_scope.

(** ** Exceptions and fallible computations *)

(** The exception classes that the embedded code can raise, and the two
    error names of the design document.  No statement of the sources raises
    [InsufficientLevels] or [DegenerateAllocation]. *)
Inductive exn : Type :=
| ValueError            (* builtins: min()/max() of an empty sequence, list.remove, unknown action *)
| IndexError            (* positional or boolean-mask indexing out of bounds *)
| ZeroDivisionError     (* builtins: int 0 / int 0 *)
| DivisionByZero        (* decimal.DivisionByZero: x / 0 with x <> 0 *)
| InvalidOperation      (* decimal.InvalidOperation: 0 / 0, ordering against NaN *)
| InsufficientLevels    (* design document only *)
| DegenerateAllocation. (* design document only *)

Inductive result (A : Type) : Type :=
| Ok (a : A)
| Raise (e : exn).

Arguments Ok {A} a.
Arguments Raise {A} e.

Definition bind {A B : Type} (m : result A) (k : A -> result B) : result B :=
  match m with
  | Ok a => k a
  | Raise e => Raise e
  end.

Declare Scope result_scope.
Delimit Scope result_scope with result.
Notation "x <- m ;; k" := (bind m (fun x => k))
  (at level 61, m at next level, right associativity) : result_scope.
Notation "' p <- m ;; k" := (bind m (fun x => let p := x in k))
  (at level 61, p pattern, m at next level, right associativity) : result_scope.
Local Open Scope result_scope.

Fixpoint mapM {A B : Type} (f : A -> result B) (l : list A) : result (list B) :=
  match l with
  | [] => Ok []
  | a :: l' => b <- f a ;; bs <- mapM f l' ;; Ok (b :: bs)
  end.

(** ** Numbers *)

(** A finite number or the quiet NaN. *)
Inductive num : Type :=
| Fin (q : Q)
| NaN.

Definition Qltb (x y : Q) : bool := negb (Qle_bool y x).

Definition nsub (x y : num) : num :=
  match x, y with
  | Fin a, Fin b => Fin (a - b)
  | _, _ => NaN
  end.

Definition nadd (x y : num) : num :=
  match x, y with
  | Fin a, Fin b => Fin (a + b)
  | _, _ => NaN
  end.

Definition nmul (x y : num) : num :=
  match x, y with
  | Fin a, Fin b => Fin (a * b)
  | _, _ => NaN
  end.

(** [Decimal.__truediv__] on finite operands under the default context,
    which traps both signals. *)
Definition dec_div (x y : Q) : result Q :=
  if Qeq_bool y 0
  then if Qeq_bool x 0 then Raise InvalidOperation else Raise DivisionByZero
  else Ok (x / y).

(** Division of a possibly-NaN decimal by a finite one: a quiet NaN operand
    propagates before the divisor is inspected. *)
Definition ndiv (x : num) (y : Q) : result num :=
  match x with
  | NaN => Ok NaN
  | Fin a => q <- dec_div a y ;; Ok (Fin q)
  end.

Definition Qsum (l : list Q) : Q := fold_left Qplus l 0.

(** [range(a, b)] *)
Definition py_range (a b : Z) : list Z :=
  map (fun i => (a + Z.of_nat i)%Z) (seq 0 (Z.to_nat (b - a))).

(** [min(l)] and [max(l)]: the first extremal element; [ValueError] on an
    empty sequence. *)
Fixpoint min_from (m : Q) (l : list Q) : Q :=
  match l with
  | [] => m
  | x :: l' => min_from (if Qltb x m then x else m) l'
  end.

Fixpoint max_from (m : Q) (l : list Q) : Q :=
  match l with
  | [] => m
  | x :: l' => max_from (if Qltb m x then x else m) l'
  end.

Definition py_min (l : list Q) : result Q :=
  match l with
  | [] => Raise ValueError
  | x :: l' => Ok (min_from x l')
  end.

Definition py_max (l : list Q) : result Q :=
  match l with
  | [] => Raise ValueError
  | x :: l' => Ok (max_from x l')
  end.

Definition is_nan (x : num) : bool :=
  match x with
  | NaN => true
  | Fin _ => false
  end.

Definition count_nan (l : list num) : nat := length (filter is_nan l).



(** The amount-weighted average price of a ladder, in the words of the
    design document: the sum of [price_i * amount_i] over the sum of
    [amount_i]. *)
Fixpoint total (qs : list Q) : Q :=
  match qs with
  | [] => 0
  | a :: qs' => a + total qs'
  end.



(** ** Candles *)

(** One row of the candles data frame; only the [high] and [low] columns are
    read by the code below. *)
Record Bar : Type := { high : Q; low : Q }.

Definition Candles := list Bar.

(** [Series.max()] and [Series.min()]: NaN on an empty series. *)
Definition series_max (s : list Q) : num :=
  match s with
  | [] => NaN
  | x :: s' => Fin (fold_left Qmax s' x)
  end.

Definition series_min (s : list Q) : num :=
  match s with
  | [] => NaN
  | x :: s' => Fin (fold_left Qmin s' x)
  end.

(** [series.iloc[idx].values] for an array of positions. *)
Definition iloc (s : list Q) (idx : list nat) : result (list Q) :=
  mapM (fun i => match nth_error s i with
                 | Some x => Ok x
                 | None => Raise IndexError
                 end) idx.

(** ** scipy *)

(** The three scipy entry points that the code calls.  [find_peaks x
    prominence distance] is the index array of
    [scipy.signal.find_peaks(x, prominence=..., distance=...)];
    [linkage x] is [linkage(x.reshape(-1, 1), method='ward')];
    [fcluster Z t] is [fcluster(Z, t, criterion='maxclust')]. *)
Class Scipy : Type := {
  linkage_matrix : Type;
  find_peaks : list Q -> num -> Z -> result (list nat);
  linkage : list Q -> result linkage_matrix;
  fcluster : linkage_matrix -> Z -> list Z
}.

Module PeakAnalysisUtils.
Section WithScipy.
Context `{Scipy}.

Definition calculate_prominence (candles : Candles) (prominence_percentage : Q) : num :=
  let price_range := nsub (series_max (map high candles)) (series_min (map low candles)) in
  nmul price_range (Fin prominence_percentage).

Definition find_price_peaks (candles : Candles) (prominence_nominal : num) (distance : Z)
  : result (list nat * list nat) :=
  high_peaks <- find_peaks (map high candles) prominence_nominal distance ;;
  low_peaks <- find_peaks (map (fun c => - low c) candles) prominence_nominal distance ;;
  Ok (high_peaks, low_peaks).

(** The peaks that carry label [k]. *)
Definition members (peaks : list Q) (labels : list Z) (k : Z) : list Q :=
  map fst (filter (fun pl => Z.eqb (snd pl) k) (combine peaks labels)).

(** [peaks[labels == k]]: boolean-mask indexing, which requires the mask to
    have the length of the array. *)
Definition mask_select (peaks : list Q) (labels : list Z) (k : Z) : result (list Q) :=
  if Nat.eqb (length labels) (length peaks)
  then Ok (members peaks labels k)
  else Raise IndexError.

(** [ndarray.mean()]: NaN on an empty array. *)
Definition mean (xs : list Q) : num :=
  match xs with
  | [] => NaN
  | _ => Fin (Qsum xs / inject_Z (Z.of_nat (length xs)))
  end.

Definition hierarchical_clustering (peaks : list Q) (num_clusters : Z)
  : result (list num * list Z) :=
  Z <- linkage peaks ;;
  let labels := fcluster Z num_clusters in
  centroids <- mapM (fun k => sel <- mask_select peaks labels k ;; Ok (mean sel))
                    (py_range 1 (num_clusters + 1)) ;;
  Ok (centroids, labels).

End WithScipy.
End PeakAnalysisUtils.

(** ** controllers/market_making/marroq.py *)

(** [hummingbot.core.data_type.common.TradeType] *)
Inductive TradeType : Type := BUY | SELL | RANGE.

Definition TradeType_eqb (a b : TradeType) : bool :=
  match a, b with
  | BUY, BUY | SELL, SELL | RANGE, RANGE => true
  | _, _ => false
  end.

Record TrailingStop : Type := {
  activation_price : Q;
  trailing_delta : Q
}.

Record DCAExecutorConfig : Type := {
  dca_timestamp : Q;
  dca_level_id : string;
  dca_connector_name : string;
  dca_trading_pair : string;
  prices : list Q;
  amounts_quote : list Q;
  dca_leverage : Z;
  dca_side : TradeType;
  dca_time_limit : Z;
  dca_stop_loss : num;
  dca_trailing_stop : TrailingStop;
  activation_bounds : option (list Q);
  dca_take_profit : Q
}.

Module Marroq.

(** The fields of [MarroqControllerConfig] (and of its base class) that the
    controller reads. *)
Record MarroqControllerConfig : Type := {
  connector_name : string;
  trading_pair : string;
  candles_connector : string;
  candles_trading_pair : string;
  interval : string;
  cluster_window : Z;
  cluster_prominence : Q;
  cluster_width : Z;
  dca_levels : Z;
  dca_amounts_distribution : list Q;
  executor_activation_bounds : option (list Q);
  leverage : Z;
  stop_loss : Q;
  take_profit : Q;
  time_limit : Z;
  trailing_stop : TrailingStop
}.

Record MarroqController : Type := {
  config : MarroqControllerConfig;
  max_records : Z;
  dca_amounts_pct : list Q
}.

(** [MarroqController.__init__]: the distribution is normalised by its sum,
    one division per entry. *)
Definition init (cfg : MarroqControllerConfig) : result MarroqController :=
  pct <- mapM (fun amount => dec_div amount (Qsum (dca_amounts_distribution cfg)))
              (dca_amounts_distribution cfg) ;;
  Ok {| config := cfg;
        max_records := cluster_window cfg;
        dca_amounts_pct := pct |}.

(** [[c for c in clusters if keep c]] where the test orders a
    [numpy.float64] against the [Decimal] price: ordering a NaN against a
    [Decimal] signals [InvalidOperation]. *)
Fixpoint filter_clusters (keep : Q -> bool) (clusters : list num) : result (list Q) :=
  match clusters with
  | [] => Ok []
  | NaN :: _ => Raise InvalidOperation
  | Fin c :: clusters' =>
      rest <- filter_clusters keep clusters' ;;
      Ok (if keep c then c :: rest else rest)
  end.

(** [sum(p * a for p, a in zip(prices, amounts_quote)) / sum(amounts_quote)].
    Both sums start from the int [0]: over an empty ladder the quotient is
    the builtin [0 / 0]; otherwise it is a [Decimal] division. *)
Definition breakeven (prices amounts_quote : list Q) : result Q :=
  let numerator := Qsum (map (fun pa => fst pa * snd pa) (combine prices amounts_quote)) in
  let denominator := Qsum amounts_quote in
  match amounts_quote with
  | [] => Raise ZeroDivisionError
  | _ => dec_div numerator denominator
  end.

(** The locals [selected_clusters], [adjusted_amounts_pct] and
    [amounts_quote] of [get_executor_config], as functions of the values
    they are computed from. *)
Definition select_clusters (trade_type : TradeType)
           (relevant_low_clusters relevant_high_clusters : list Q) : list Q :=
  if TradeType_eqb trade_type BUY then relevant_low_clusters else relevant_high_clusters.

Definition adjust_amounts_pct (dca_amounts_pct : list Q) (selected_clusters : list Q)
  : list Q :=
  if (length selected_clusters + 1 <? length dca_amounts_pct)%nat
  then firstn (length selected_clusters + 1) dca_amounts_pct
  else dca_amounts_pct.

Definition ladder_amounts (amount : Q) (adjusted_amounts_pct prices : list Q) : list Q :=
  map (fun pp => amount * fst pp * snd pp) (combine adjusted_amounts_pct prices).

Section WithScipy.
Context `{Scipy}.

Definition find_and_cluster_peaks (candles : Candles) (prominence_percentage : Q)
           (distance : Z) (num_clusters : Z) : result (list num * list num) :=
  let prominence := PeakAnalysisUtils.calculate_prominence candles prominence_percentage in
  '(high_peaks, low_peaks) <- PeakAnalysisUtils.find_price_peaks candles prominence distance ;;
  high_peak_prices <- iloc (map high candles) high_peaks ;;
  low_peak_prices <- iloc (map low candles) low_peaks ;;
  '(high_clusters, _) <- PeakAnalysisUtils.hierarchical_clustering high_peak_prices num_clusters ;;
  '(low_clusters, _) <- PeakAnalysisUtils.hierarchical_clustering low_peak_prices num_clusters ;;
  Ok (high_clusters, low_clusters).

(** [get_executor_config].  The three values that the method reads from
    its collaborators are arguments: [trade_type] is
    [self.get_trade_type_from_level_id(level_id)], [candles] the frame
    returned by [self.market_data_provider.get_candles_df(...)] and
    [now] the value of [time.time()]. *)
Definition get_executor_config (self : MarroqController) (level_id : string)
           (trade_type : TradeType) (candles : Candles) (now : Q)
           (price amount : Q) : result DCAExecutorConfig :=
  let cfg := config self in
  '(high_clusters, low_clusters) <-
     find_and_cluster_peaks candles (cluster_prominence cfg) (cluster_width cfg)
                            (dca_levels cfg + 1) ;;
  relevant_high_clusters <- filter_clusters (fun c => Qltb price c) high_clusters ;;
  relevant_low_clusters <- filter_clusters (fun c => Qltb c price) low_clusters ;;
  let selected_clusters :=
    select_clusters trade_type relevant_low_clusters relevant_high_clusters in
  let adjusted_amounts_pct := adjust_amounts_pct (dca_amounts_pct self) selected_clusters in
  let total_range := nsub (series_max (map high candles)) (series_min (map low candles)) in
  let prices := price :: selected_clusters in
  let amounts_quote := ladder_amounts amount adjusted_amounts_pct prices in
  breakeven_price <- breakeven prices amounts_quote ;;
  '(sl_pct, trailing_stop_price) <-
     (if TradeType_eqb trade_type BUY
      then
        m <- py_min selected_clusters ;;
        let sl_price := nsub (Fin m) (nmul total_range (Fin (stop_loss cfg))) in
        sl_pct <- ndiv (nsub (Fin breakeven_price) sl_price) breakeven_price ;;
        trailing_stop_price <- py_min relevant_high_clusters ;;
        Ok (sl_pct, trailing_stop_price)
      else
        m <- py_max selected_clusters ;;
        let sl_price := nadd (Fin m) (nmul total_range (Fin (stop_loss cfg))) in
        sl_pct <- ndiv (nsub sl_price (Fin breakeven_price)) breakeven_price ;;
        trailing_stop_price <- py_max relevant_low_clusters ;;
        Ok (sl_pct, trailing_stop_price)) ;;
  activation <- dec_div (price - trailing_stop_price) price ;;
  Ok {| dca_timestamp := now;
        dca_level_id := level_id;
        dca_connector_name := connector_name cfg;
        dca_trading_pair := trading_pair cfg;
        prices := prices;
        amounts_quote := amounts_quote;
        dca_leverage := leverage cfg;
        dca_side := trade_type;
        dca_time_limit := time_limit cfg;
        dca_stop_loss := sl_pct;
        dca_trailing_stop := {| activation_price := activation;
                                trailing_delta := trailing_delta (trailing_stop cfg) |};
        activation_bounds := executor_activation_bounds cfg;
        dca_take_profit := take_profit cfg |}.

End WithScipy.
End Marroq.

(** ** generic_strategy/generic_executor.py *)

Module GenericExecutor.

(** The class of an executor configuration, as the [isinstance] chain of
    [create_executor] distinguishes it, and the only attribute that the
    handler reads from it. *)
Inductive ConfigClass : Type :=
| PositionExecutorConfig
| DCAExecutorConfig
| ArbitrageExecutorConfig
| OtherConfig.

Record ExecutorConfig : Type := {
  id : string;
  config_class : ConfigClass
}.

(** An executor object.  [oid] is the identity of the object: Python
    compares executors by identity, and two executors may carry the same
    configuration id (the TODO in [execute_actions]). *)
Record Executor : Type := {
  oid : nat;
  config : ExecutorConfig;
  is_active : bool;
  is_closed : bool
}.

(** What the executor runtime does to the two status flags
    [(is_active, is_closed)]: their value once a new executor has been
    constructed and started, and after a call of [early_stop]. *)
Class ExecutorRuntime : Type := {
  flags_after_start : ExecutorConfig -> bool * bool;
  flags_after_early_stop : Executor -> bool * bool
}.

Inductive ExecutorAction : Type :=
| CreateExecutorAction (executor_config : ExecutorConfig)
| StopExecutorAction (executor_id : string)
| StoreExecutorAction (executor_id : string)
| UnknownAction.

(** The handler: its three executor lists, the calls received so far by
    [MarketsRecorder.store_executor] (oldest first, each with the executor
    as it was when stored) and the supply of fresh object identities. *)
Record GenericExecutor : Type := {
  position_executors : list Executor;
  dca_executors : list Executor;
  arbitrage_executors : list Executor;
  stored : list Executor;
  next_oid : nat
}.

Definition get_executor_by_id (self : GenericExecutor) (executor_id : string)
  : option Executor :=
  let all_executors :=
    position_executors self ++ dca_executors self ++ arbitrage_executors self in
  find (fun executor => String.eqb (id (config executor)) executor_id) all_executors.

(** [l.remove(x)]: drops the first occurrence of the object, [None] (a
    [ValueError]) when it does not occur. *)
Fixpoint list_remove (o : nat) (l : list Executor) : option (list Executor) :=
  match l with
  | [] => None
  | e :: l' =>
      if Nat.eqb (oid e) o then Some l'
      else match list_remove o l' with
           | Some r => Some (e :: r)
           | None => None
           end
  end.

(** Mutation of the object [o] seen through every list that holds it. *)
Definition update_object (o : nat) (f : Executor -> Executor) (l : list Executor)
  : list Executor :=
  map (fun e => if Nat.eqb (oid e) o then f e else e) l.

Section WithRuntime.
Context `{ExecutorRuntime}.

Definition new_executor (self : GenericExecutor) (executor_config : ExecutorConfig)
  : Executor :=
  {| oid := next_oid self;
     config := executor_config;
     is_active := fst (flags_after_start executor_config);
     is_closed := snd (flags_after_start executor_config) |}.

Definition early_stop (e : Executor) : Executor :=
  {| oid := oid e;
     config := config e;
     is_active := fst (flags_after_early_stop e);
     is_closed := snd (flags_after_early_stop e) |}.

Definition create_executor (self : GenericExecutor) (executor_config : ExecutorConfig)
  : GenericExecutor :=
  let executor := new_executor self executor_config in
  match config_class executor_config with
  | PositionExecutorConfig =>
      {| position_executors := position_executors self ++ [executor];
         dca_executors := dca_executors self;
         arbitrage_executors := arbitrage_executors self;
         stored := stored self;
         next_oid := S (next_oid self) |}
  | DCAExecutorConfig =>
      {| position_executors := position_executors self;
         dca_executors := dca_executors self ++ [executor];
         arbitrage_executors := arbitrage_executors self;
         stored := stored self;
         next_oid := S (next_oid self) |}
  | ArbitrageExecutorConfig =>
      {| position_executors := position_executors self;
         dca_executors := dca_executors self;
         arbitrage_executors := arbitrage_executors self ++ [executor];
         stored := stored self;
         next_oid := S (next_oid self) |}
  | OtherConfig => self
  end.

(** One iteration of the loop of [execute_actions]: the handler after the
    action and the exception that left the loop, if any. *)
Definition execute_action (self : GenericExecutor) (action : ExecutorAction)
  : GenericExecutor * option exn :=
  match action with
  | CreateExecutorAction executor_config =>
      (create_executor self executor_config, None)
  | StopExecutorAction executor_id =>
      match get_executor_by_id self executor_id with
      | Some executor =>
          if is_active executor
          then ({| position_executors :=
                     update_object (oid executor) early_stop (position_executors self);
                   dca_executors :=
                     update_object (oid executor) early_stop (dca_executors self);
                   arbitrage_executors :=
                     update_object (oid executor) early_stop (arbitrage_executors self);
                   stored := stored self;
                   next_oid := next_oid self |}, None)
          else (self, None)
      | None => (self, None)
      end
  | StoreExecutorAction executor_id =>
      match get_executor_by_id self executor_id with
      | Some executor =>
          if is_closed executor
          then
            let recorded := stored self ++ [executor] in
            match list_remove (oid executor) (dca_executors self) with
            | Some remaining =>
                ({| position_executors := position_executors self;
                    dca_executors := remaining;
                    arbitrage_executors := arbitrage_executors self;
                    stored := recorded;
                    next_oid := next_oid self |}, None)
            | None =>
                ({| position_executors := position_executors self;
                    dca_executors := dca_executors self;
                    arbitrage_executors := arbitrage_executors self;
                    stored := recorded;
                    next_oid := next_oid self |}, Some ValueError)
            end
          else (self, None)
      | None => (self, None)
      end
  | UnknownAction => (self, Some ValueError)
  end.

Fixpoint execute_actions (self : GenericExecutor) (actions : list ExecutorAction)
  : GenericExecutor * option exn :=
  match actions with
  | [] => (self, None)
  | action :: actions' =>
      match execute_action self action with
      | (self', None) => execute_actions self' actions'
      | (self', Some e) => (self', Some e)
      end
  end.

(** [executor.early_stop()] on the object [o], seen through every list. *)
Definition early_stop_object (self : GenericExecutor) (o : nat) : GenericExecutor :=
  {| position_executors := update_object o early_stop (position_executors self);
     dca_executors := update_object o early_stop (dca_executors self);
     arbitrage_executors := update_object o early_stop (arbitrage_executors self);
     stored := stored self;
     next_oid := next_oid self |}.

(** [stop_all_executors]: one call of [early_stop] per entry of the
    concatenation of the three lists, in order. *)
Definition stop_all_executors (self : GenericExecutor) : GenericExecutor :=
  fold_left early_stop_object
            (map oid (position_executors self ++ dca_executors self
                      ++ arbitrage_executors self))
            self.

End WithRuntime.

(** [executor.executor_info], the read-only projection of an executor, is
    the executor value itself. *)
Definition get_active_position_executors (self : GenericExecutor) : list Executor :=
  filter (fun executor => negb (is_closed executor)) (position_executors self).

Definition get_closed_position_executors (self : GenericExecutor) : list Executor :=
  filter (fun executor => is_closed executor) (position_executors self).

Definition get_active_dca_executors (self : GenericExecutor) : list Executor :=
  filter (fun executor => negb (is_closed executor)) (dca_executors self).

Definition get_closed_dca_executors (self : GenericExecutor) : list Executor :=
  filter (fun executor => is_closed executor) (dca_executors self).

Definition get_active_arbitrage_executors (self : GenericExecutor) : list Executor :=
  filter (fun executor => negb (is_closed executor)) (arbitrage_executors self).

Definition get_closed_arbitrage_executors (self : GenericExecutor) : list Executor :=
  filter (fun executor => is_closed executor) (arbitrage_executors self).

(** The six executor lists of [ExecutorHandlerInfo]; the controller id, the
    timestamp and the status of the report are read from collaborators. *)
Record ExecutorHandlerInfo : Type := {
  active_position_executors : list Executor;
  closed_position_executors : list Executor;
  active_dca_executors : list Executor;
  closed_dca_executors : list Executor;
  active_arbitrage_executors : list Executor;
  closed_arbitrage_executors : list Executor
}.

Definition get_executor_handler_report (self : GenericExecutor) : ExecutorHandlerInfo :=
  {| active_position_executors := get_active_position_executors self;
     closed_position_executors := get_closed_position_executors self;
     active_dca_executors := get_active_dca_executors self;
     closed_dca_executors := get_closed_dca_executors self;
     active_arbitrage_executors := get_active_arbitrage_executors self;
     closed_arbitrage_executors := get_closed_arbitrage_executors self |}.

(** *** Well-formed handlers *)

Definition all_executors (self : GenericExecutor) : list Executor :=
  position_executors self ++ dca_executors self ++ arbitrage_executors self.

(** Every executor object sits in the lists once, and object identities are
    handed out below [next_oid]. *)
Definition unique_objects (self : GenericExecutor) : Prop :=
  NoDup (map oid (all_executors self)) /\
  Forall (fun e => (oid e < next_oid self)%nat) (all_executors self).

(** No two executors carry the same configuration id. *)
Definition unique_ids (self : GenericExecutor) : Prop :=
  NoDup (map (fun e => id (config e)) (all_executors self)).

End GenericExecutor.

(** ** scripts/v2_pmm_single_level.py *)

Module PMMSingleLevel.
Local Open Scope string_scope.

Inductive OrderType : Type := MARKET | LIMIT | LIMIT_MAKER.
Inductive PositionMode : Type := HEDGE | ONEWAY.

(** [hummingbot.smart_components.models.base.SmartComponentStatus] *)
Inductive SmartComponentStatus : Type :=
| NOT_STARTED
| RUNNING
| SHUTTING_DOWN
| TERMINATED.

Definition is_terminated (s : SmartComponentStatus) : bool :=
  match s with
  | TERMINATED => true
  | _ => false
  end.

Record TripleBarrierConfig : Type := {
  tb_stop_loss : Q;
  tb_take_profit : Q;
  tb_time_limit : Z;
  open_order_type : OrderType;
  tb_take_profit_order_type : OrderType;
  stop_loss_order_type : OrderType;
  time_limit_order_type : OrderType
}.

Record PositionExecutorConfig : Type := {
  pe_timestamp : Q;
  pe_trading_pair : string;
  exchange : string;
  pe_side : TradeType;
  amount : Q;
  entry_price : Q;
  pe_triple_barrier_config : TripleBarrierConfig;
  pe_leverage : Z
}.

(** The attributes of an [ExecutorInfo] that the script reads;
    [trading_pair] is [x.config.trading_pair]. *)
Record ExecutorInfo : Type := {
  id : string;
  type : string;
  side : TradeType;
  trading_pair : string;
  status : SmartComponentStatus;
  timestamp : Q;
  is_active : bool;
  is_trading : bool
}.

Inductive ExecutorAction : Type :=
| CreateExecutorAction (executor_config : PositionExecutorConfig)
| StopExecutorAction (executor_id : string)
| StoreExecutorAction (executor_id : string).

Record PMMWithPositionExecutorConfig : Type := {
  order_amount_quote : Q;
  executor_refresh_time : Z;
  config_closed_executors_buffer : Z;
  spread : Q;
  leverage : Z;
  position_mode : PositionMode;
  stop_loss : Q;
  take_profit : Q;
  time_limit : Z;
  take_profit_order_type : OrderType
}.

Definition triple_barrier_config (cfg : PMMWithPositionExecutorConfig)
  : TripleBarrierConfig :=
  {| tb_stop_loss := stop_loss cfg;
     tb_take_profit := take_profit cfg;
     tb_time_limit := time_limit cfg;
     open_order_type := LIMIT;
     tb_take_profit_order_type := take_profit_order_type cfg;
     stop_loss_order_type := MARKET;
     time_limit_order_type := MARKET |}.

Record MarketDataProvider : Type := {
  ready : bool;
  get_trading_pairs : string -> list string;
  mid_price : string -> string -> Q   (* get_price_by_type(_, _, PriceType.MidPrice) *)
}.

(** The strategy object.  [connectors] lists the keys of the connectors
    dictionary in iteration order; [all_executors] is the value of
    [self.get_all_executors()]; [closed_executors_buffer] is the attribute
    of that name (the class declares it as [10]), a non-negative int. *)
Record PMMSingleLevel : Type := {
  config : PMMWithPositionExecutorConfig;
  closed_executors_buffer : nat;
  connectors : list string;
  market_data_provider : MarketDataProvider;
  all_executors : list ExecutorInfo;
  current_timestamp : Q;
  account_config_set : bool
}.

(** Modelled from the spec: [filter_executors] of the strategy base class,
    which is not among the sources; it keeps, in order, the executors that
    satisfy the predicate. *)
Definition filter_executors (executors : list ExecutorInfo)
           (filter_func : ExecutorInfo -> bool) : list ExecutorInfo :=
  filter filter_func executors.

(** [sorted(l, key=lambda x: x.timestamp, reverse=True)]: a stable sort,
    equal timestamps keep the order of [l]. *)
Fixpoint insert_desc (x : ExecutorInfo) (l : list ExecutorInfo) : list ExecutorInfo :=
  match l with
  | [] => [x]
  | y :: l' =>
      if Qltb (timestamp x) (timestamp y) then y :: insert_desc x l' else x :: y :: l'
  end.

Definition sorted_desc (l : list ExecutorInfo) : list ExecutorInfo :=
  fold_right insert_desc [] l.

Definition active_position_executors (s : TradeType) (self : PMMSingleLevel)
  : list ExecutorInfo :=
  filter_executors (all_executors self)
    (fun x => TradeType_eqb (side x) s && String.eqb (type x) "position_executor"
              && is_active x).

(** The [CreateExecutorAction] built in either branch of the loop body. *)
Definition create_order (self : PMMSingleLevel) (connector_name trading_pair : string)
           (s : TradeType) (order_price : Q) : result ExecutorAction :=
  order_amount <- dec_div (order_amount_quote (config self)) order_price ;;
  Ok (CreateExecutorAction
        {| pe_timestamp := current_timestamp self;
           pe_trading_pair := trading_pair;
           exchange := connector_name;
           pe_side := s;
           amount := order_amount;
           entry_price := order_price;
           pe_triple_barrier_config := triple_barrier_config (config self);
           pe_leverage := leverage (config self) |}).

(** [len(self.filter_executors(active executors of the side, same trading
    pair))]: the filter compares trading pairs only, not connectors. *)
Definition len_active (self : PMMSingleLevel) (s : TradeType) (trading_pair : string) : nat :=
  length (filter_executors (active_position_executors s self)
            (fun x => String.eqb (PMMSingleLevel.trading_pair x) trading_pair)).

(** The body of the inner loop of [create_actions_proposal] for one
    trading pair of one connector: the actions that it appends. *)
Definition create_actions_for (self : PMMSingleLevel)
           (connector_name trading_pair : string) : result (list ExecutorAction) :=
  let mid := mid_price (market_data_provider self) connector_name trading_pair in
  let len_active_buys := len_active self BUY trading_pair in
  buys <- (if Nat.eqb len_active_buys 0
           then a <- create_order self connector_name trading_pair BUY
                       (mid * (1 - spread (config self))) ;; Ok [a]
           else Ok []) ;;
  let len_active_sells := len_active self SELL trading_pair in
  sells <- (if Nat.eqb len_active_sells 0
            then a <- create_order self connector_name trading_pair SELL
                        (mid * (1 + spread (config self))) ;; Ok [a]
            else Ok []) ;;
  Ok (buys ++ sells)%list.

Definition create_actions_proposal (self : PMMSingleLevel) : result (list ExecutorAction) :=
  per_market <-
    mapM (fun connector_name =>
            per_pair <- mapM (create_actions_for self connector_name)
                             (get_trading_pairs (market_data_provider self) connector_name) ;;
            Ok (concat per_pair))
         (connectors self) ;;
  Ok (concat per_market).

Definition executors_to_refresh (self : PMMSingleLevel) : list ExecutorAction :=
  let executors_to_refresh :=
    filter_executors (all_executors self)
      (fun x => negb (is_trading x) && is_active x
                && Qltb (inject_Z (executor_refresh_time (config self)))
                        (current_timestamp self - timestamp x)) in
  map (fun executor => StopExecutorAction (id executor)) executors_to_refresh.

Definition executors_to_early_stop (self : PMMSingleLevel) : list ExecutorAction := [].

Definition stop_actions_proposal (self : PMMSingleLevel) : list ExecutorAction :=
  (executors_to_refresh self ++ executors_to_early_stop self)%list.

Definition potential_executors_to_store (self : PMMSingleLevel) : list ExecutorInfo :=
  filter_executors (all_executors self)
    (fun x => is_terminated (status x) && String.eqb (type x) "position_executor").

Definition store_actions_proposal (self : PMMSingleLevel) : list ExecutorAction :=
  let sorted_executors := sorted_desc (potential_executors_to_store self) in
  if (closed_executors_buffer self <? length sorted_executors)%nat
  then map (fun executor => StoreExecutorAction (id executor))
           (skipn (closed_executors_buffer self) sorted_executors)
  else [].

(** *** Reading a proposal *)

(** The action creates a position executor of side [s] on the trading pair
    [trading_pair] of the connector [connector_name]. *)
Definition is_create_for (connector_name trading_pair : string) (s : TradeType)
           (action : ExecutorAction) : bool :=
  match action with
  | CreateExecutorAction c =>
      String.eqb (exchange c) connector_name
      && String.eqb (pe_trading_pair c) trading_pair
      && TradeType_eqb (pe_side c) s
  | _ => false
  end.

(** The same, whatever the connector. *)
Definition is_create_for_pair (trading_pair : string) (s : TradeType)
           (action : ExecutorAction) : bool :=
  match action with
  | CreateExecutorAction c =>
      String.eqb (pe_trading_pair c) trading_pair && TradeType_eqb (pe_side c) s
  | _ => false
  end.

(** The entry price that the design document gives for a side. *)
Definition entry_price_of (self : PMMSingleLevel) (connector_name trading_pair : string)
           (s : TradeType) : Q :=
  let mid := mid_price (market_data_provider self) connector_name trading_pair in
  match s with
  | BUY => mid * (1 - spread (config self))
  | _ => mid * (1 + spread (config self))
  end.

(** The action is a creation priced and sized as the script does it: entry
    at [entry_price_of], amount the quote amount over the entry price. *)
Definition well_priced (self : PMMSingleLevel) (action : ExecutorAction) : Prop :=
  match action with
  | CreateExecutorAction c =>
      (pe_side c = BUY \/ pe_side c = SELL) /\
      entry_price c = entry_price_of self (exchange c) (pe_trading_pair c) (pe_side c) /\
      amount c = order_amount_quote (config self) / entry_price c
  | _ => False
  end.


(** The creation that [create_order] returns when its division succeeds. *)
Definition order_at (self : PMMSingleLevel) (connector_name trading_pair : string)
           (s : TradeType) (order_price : Q) : ExecutorAction :=
  CreateExecutorAction
    {| pe_timestamp := current_timestamp self;
       pe_trading_pair := trading_pair;
       exchange := connector_name;
       pe_side := s;
       amount := order_amount_quote (config self) / order_price;
       entry_price := order_price;
       pe_triple_barrier_config := triple_barrier_config (config self);
       pe_leverage := leverage (config self) |}.

(** The actions that one pass of the loop body appends when both divisions
    succeed. *)
Definition market_actions (self : PMMSingleLevel) (connector_name trading_pair : string)
  : list ExecutorAction :=
  ((if Nat.eqb (len_active self BUY trading_pair) 0
    then [order_at self connector_name trading_pair BUY
            (entry_price_of self connector_name trading_pair BUY)]
    else [])
   ++
   (if Nat.eqb (len_active self SELL trading_pair) 0
    then [order_at self connector_name trading_pair SELL
            (entry_price_of self connector_name trading_pair SELL)]
    else []))%list.

(** *** Account configuration *)

(** The calls that [set_position_mode_and_leverage] makes on connectors. *)
Inductive ConnectorCall : Type :=
| SetPositionMode (connector_name : string) (mode : PositionMode)
| SetLeverage (connector_name trading_pair : string) (leverage : Z).

(** [set_position_mode_and_leverage]: the strategy after the call and the
    connector calls made, in order.  [is_perpetual] is the method of that
    name of the strategy base class. *)
Definition set_position_mode_and_leverage (is_perpetual : string -> bool)
           (self : PMMSingleLevel) : PMMSingleLevel * list ConnectorCall :=
  if account_config_set self
  then (self, [])
  else
    ({| config := config self;
        closed_executors_buffer := closed_executors_buffer self;
        connectors := connectors self;
        market_data_provider := market_data_provider self;
        all_executors := all_executors self;
        current_timestamp := current_timestamp self;
        account_config_set := true |},
     flat_map
       (fun connector_name =>
          if is_perpetual connector_name
          then SetPositionMode connector_name (position_mode (config self))
               :: map (fun trading_pair =>
                         SetLeverage connector_name trading_pair (leverage (config self)))
                      (get_trading_pairs (market_data_provider self) connector_name)
          else [])
       (connectors self)).

Definition call_connector (call : ConnectorCall) : string :=
  match call with
  | SetPositionMode c _ => c
  | SetLeverage c _ _ => c
  end.

End PMMSingleLevel.


(** ** meta_strategies/market_making/market_making_strategy_base.py *)

Module MarketMakingStrategyBase.

(** Python dictionaries with string keys, in insertion order: assignment to
    a present key replaces its value in place, assignment to a new key
    appends it; subscripting a missing key raises [KeyError], here [None]. *)
Definition dict (V : Type) : Type := list (string * V).

Definition dict_get {V : Type} (d : dict V) (k : string) : option V :=
  match find (fun kv => String.eqb (fst kv) k) d with
  | Some kv => Some (snd kv)
  | None => None
  end.

Fixpoint dict_set {V : Type} (d : dict V) (k : string) (v : V) : dict V :=
  match d with
  | [] => [(k, v)]
  | (k', v') :: d' =>
      if String.eqb k' k then (k, v) :: d' else (k', v') :: dict_set d' k v
  end.

(** [s.add(x)] on a set of strings kept as a duplicate-free list. *)
Definition set_add (x : string) (s : list string) : list string :=
  if existsb (String.eqb x) s then s else (s ++ [x])%list.

Record MarketMakingStrategyConfigBase : Type := {
  strategy_name : string;
  exchange : string;
  trading_pair : string;
  order_refresh_time : Z;
  cooldown_time : Z;
  leverage : Z
}.

(** A candles feed, as far as the strategy reads it. *)
Record Candle : Type := {
  name : string;
  interval : string;
  is_ready : bool
}.

Record MarketMakingStrategyBase : Type := {
  config : MarketMakingStrategyConfigBase;
  candles : list Candle
}.

(** [get_candles_dict]: one empty dictionary per candle name, then one
    assignment [candles[candle.name][candle.interval] = candle] per candle. *)
Definition get_candles_dict (self : MarketMakingStrategyBase) : dict (dict Candle) :=
  let empty := fold_left (fun d candle => dict_set d (name candle) []) (candles self) [] in
  fold_left
    (fun d candle =>
       match dict_get d (name candle) with
       | Some by_interval =>
           dict_set d (name candle) (dict_set by_interval (interval candle) candle)
       | None => d
       end)
    (candles self) empty.

(** [f"{connector}_{trading_pair}"] *)
Definition candle_name (connector trading_pair : string) : string :=
  (connector ++ "_" ++ trading_pair)%string.

Definition get_candles_by_connector_trading_pair (self : MarketMakingStrategyBase)
           (connector trading_pair : string) : option (dict Candle) :=
  dict_get (get_candles_dict self) (candle_name connector trading_pair).

Definition get_candle (self : MarketMakingStrategyBase)
           (connector trading_pair interval : string) : option Candle :=
  match get_candles_by_connector_trading_pair self connector trading_pair with
  | Some by_interval => dict_get by_interval interval
  | None => None
  end.

(** [update_strategy_markets_dict]: the dictionary passed in is updated in
    place and returned. *)
Definition update_strategy_markets_dict (self : MarketMakingStrategyBase)
           (markets_dict : dict (list string)) : dict (list string) :=
  match dict_get markets_dict (exchange (config self)) with
  | None => dict_set markets_dict (exchange (config self)) [trading_pair (config self)]
  | Some pairs =>
      dict_set markets_dict (exchange (config self))
               (set_add (trading_pair (config self)) pairs)
  end.

Definition all_candles_ready (self : MarketMakingStrategyBase) : bool :=
  forallb is_ready (candles self).

(** [refresh_order_condition] and [cooldown_condition] for an executor whose
    position config carries [timestamp], evaluated when [time.time()] is
    [now]. *)
Definition refresh_order_condition (self : MarketMakingStrategyBase)
           (timestamp now : Q) : bool :=
  if Qltb now (timestamp + inject_Z (order_refresh_time (config self)))
  then false else true.

Definition cooldown_condition (self : MarketMakingStrategyBase)
           (timestamp now : Q) : bool :=
  if Qltb now (timestamp + inject_Z (cooldown_time (config self)))
  then true else false.

End MarketMakingStrategyBase.

(** ** Concrete inputs

    The inputs at which the statements below are evaluated.  The instance
    of [Scipy] gives the answers of scipy on the arrays of the scenario and
    is not meant to agree with scipy elsewhere. *)

Module Scenario.

Fixpoint Qlist_eqb (l1 l2 : list Q) : bool :=
  match l1, l2 with
  | [], [] => true
  | x :: l1', y :: l2' => Qeq_bool x y && Qlist_eqb l1' l2'
  | _, _ => false
  end.

Definition bar (h l : Q) : Bar := {| high := h; low := l |}.

(** Ten bars.  The highs peak at positions 1, 3, 5, 7 (120, 121, 130, 131),
    the lows at positions 2, 4, 6, 8 (100, 101, 110, 111); the range is
    131 - 100 and every peak has prominence at least 1. *)
Definition candles : Candles :=
  [bar 115 105; bar 120 112; bar 114 100; bar 121 112; bar 114 101;
   bar 130 112; bar 114 110; bar 131 113; bar 114 111; bar 115 112].

Definition high_peak_prices : list Q := [120; 121; 130; 131].
Definition low_peak_prices : list Q := [100; 101; 110; 111].

(** scipy on the scenario.  [find_peaks] with prominence 0.62 and distance
    1 answers the peak positions above.  [linkage] rejects fewer than two
    observations.  On either array of four peak prices Ward linkage merges
    the two close pairs at height 1 and the two pairs at height 10 * sqrt 2,
    so that [fcluster] with two or with three clusters requested answers the
    two-cluster labelling [[1, 1, 2, 2]]: no cut of this tree has three
    clusters.  On any other array the instance puts every observation in a
    cluster of its own, which is the cut that the maxclust criterion
    describes when at least as many clusters are requested as there are
    observations. *)
Definition scipy : Scipy :=
  {| linkage_matrix := list Q;
     find_peaks := fun x _ _ =>
       if Qlist_eqb x (map high candles) then Ok [1; 3; 5; 7]%nat
       else if Qlist_eqb x (map (fun c => - low c) candles) then Ok [2; 4; 6; 8]%nat
       else Ok [];
     linkage := fun x => if (length x <? 2)%nat then Raise ValueError else Ok x;
     fcluster := fun Z _ =>
       if Qlist_eqb Z high_peak_prices || Qlist_eqb Z low_peak_prices
       then [1; 1; 2; 2]%Z
       else map Z.of_nat (seq 1 (length Z)) |}.

Definition trailing : TrailingStop :=
  {| activation_price := 1 # 100; trailing_delta := 5 # 1000 |}.

(** One DCA level, hence two clusters requested per side, and a one-entry
    distribution: the proportions of the defaults (four levels, four
    weights, five clusters). *)
Definition marroq_config : Marroq.MarroqControllerConfig :=
  {| Marroq.connector_name := "binance_perpetual";
     Marroq.trading_pair := "BTC-USDT";
     Marroq.candles_connector := "binance_perpetual";
     Marroq.candles_trading_pair := "BTC-USDT";
     Marroq.interval := "3m";
     Marroq.cluster_window := 1500;
     Marroq.cluster_prominence := 2 # 100;
     Marroq.cluster_width := 1;
     Marroq.dca_levels := 1;
     Marroq.dca_amounts_distribution := [1];
     Marroq.executor_activation_bounds := None;
     Marroq.leverage := 20;
     Marroq.stop_loss := 3 # 100;
     Marroq.take_profit := 1 # 100;
     Marroq.time_limit := 2700;
     Marroq.trailing_stop := trailing |}.

Definition marroq_controller : Marroq.MarroqController :=
  {| Marroq.config := marroq_config;
     Marroq.max_records := 1500;
     Marroq.dca_amounts_pct := [1] |}.

(** A runtime in which a started executor is active and open, and
    [early_stop] leaves an executor inactive without closing it. *)
Definition runtime : GenericExecutor.ExecutorRuntime :=
  {| GenericExecutor.flags_after_start := fun _ => (true, false);
     GenericExecutor.flags_after_early_stop :=
       fun e => (false, GenericExecutor.is_closed e) |}.

Definition executor (o : nat) (i : string) (c : GenericExecutor.ConfigClass)
           (active closed : bool) : GenericExecutor.Executor :=
  {| GenericExecutor.oid := o;
     GenericExecutor.config :=
       {| GenericExecutor.id := i; GenericExecutor.config_class := c |};
     GenericExecutor.is_active := active;
     GenericExecutor.is_closed := closed |}.

(** A handler with a closed and an active position executor, a closed and
    an active DCA executor, and nothing stored yet. *)
Definition handler : GenericExecutor.GenericExecutor :=
  {| GenericExecutor.position_executors :=
       [executor 0 "p-1" GenericExecutor.PositionExecutorConfig false true;
        executor 1 "p-2" GenericExecutor.PositionExecutorConfig true false];
     GenericExecutor.dca_executors :=
       [executor 2 "d-1" GenericExecutor.DCAExecutorConfig false true;
        executor 3 "d-2" GenericExecutor.DCAExecutorConfig true false];
     GenericExecutor.arbitrage_executors := [];
     GenericExecutor.stored := [];
     GenericExecutor.next_oid := 4 |}.

Definition info (i ty : string) (s : TradeType) (pair : string)
           (st : PMMSingleLevel.SmartComponentStatus) (ts : Q) (active trading : bool)
  : PMMSingleLevel.ExecutorInfo :=
  {| PMMSingleLevel.id := i;
     PMMSingleLevel.type := ty;
     PMMSingleLevel.side := s;
     PMMSingleLevel.trading_pair := pair;
     PMMSingleLevel.status := st;
     PMMSingleLevel.timestamp := ts;
     PMMSingleLevel.is_active := active;
     PMMSingleLevel.is_trading := trading |}.

Definition letter (n : nat) : string := String (Ascii.ascii_of_nat (65 + n)) EmptyString.

(** [n] terminated executors of type [ty], named A, B, ... and created at
    times 0, 1, ... *)
Definition terminated_infos (ty : string) (n : nat) : list PMMSingleLevel.ExecutorInfo :=
  map (fun i => info (letter i) ty BUY "BTC-USDT" PMMSingleLevel.TERMINATED
                     (inject_Z (Z.of_nat i)) false false)
      (seq 0 n).

Definition pmm_config : PMMSingleLevel.PMMWithPositionExecutorConfig :=
  {| PMMSingleLevel.order_amount_quote := 30;
     PMMSingleLevel.executor_refresh_time := 20;
     PMMSingleLevel.config_closed_executors_buffer := 10;
     PMMSingleLevel.spread := 3 # 1000;
     PMMSingleLevel.leverage := 20;
     PMMSingleLevel.position_mode := PMMSingleLevel.HEDGE;
     PMMSingleLevel.stop_loss := 3 # 100;
     PMMSingleLevel.take_profit := 1 # 100;
     PMMSingleLevel.time_limit := 2700;
     PMMSingleLevel.take_profit_order_type := PMMSingleLevel.LIMIT |}.

Definition active_sell : PMMSingleLevel.ExecutorInfo :=
  info "S" "position_executor" SELL "BTC-USDT" PMMSingleLevel.RUNNING 990 true false.

(** A strategy over the given connectors, each trading BTC-USDT at mid
    price 100, with the given executors and the buffer of the class. *)
Definition strategy (connector_names : list string)
           (executors : list PMMSingleLevel.ExecutorInfo) : PMMSingleLevel.PMMSingleLevel :=
  {| PMMSingleLevel.config := pmm_config;
     PMMSingleLevel.closed_executors_buffer := 10;
     PMMSingleLevel.connectors := connector_names;
     PMMSingleLevel.market_data_provider :=
       {| PMMSingleLevel.ready := true;
          PMMSingleLevel.get_trading_pairs := fun _ => ["BTC-USDT"%string];
          PMMSingleLevel.mid_price := fun _ _ => 100 |};
     PMMSingleLevel.all_executors := executors;
     PMMSingleLevel.current_timestamp := 1000;
     PMMSingleLevel.account_config_set := true |}.

End Scenario.

(** Further inputs, variations of the scenario. *)

Module Inputs.

(** The scenario configuration with another amounts distribution. *)
Definition config_with_distribution (d : list Q) : Marroq.MarroqControllerConfig :=
  {| Marroq.connector_name := "binance_perpetual";
     Marroq.trading_pair := "BTC-USDT";
     Marroq.candles_connector := "binance_perpetual";
     Marroq.candles_trading_pair := "BTC-USDT";
     Marroq.interval := "3m";
     Marroq.cluster_window := 1500;
     Marroq.cluster_prominence := 2 # 100;
     Marroq.cluster_width := 1;
     Marroq.dca_levels := 1;
     Marroq.dca_amounts_distribution := d;
     Marroq.executor_activation_bounds := None;
     Marroq.leverage := 20;
     Marroq.stop_loss := 3 # 100;
     Marroq.take_profit := 1 # 100;
     Marroq.time_limit := 2700;
     Marroq.trailing_stop := Scenario.trailing |}.

(** The scenario controller with other weights. *)
Definition controller_with_weights (pct : list Q) : Marroq.MarroqController :=
  {| Marroq.config := Scenario.marroq_config;
     Marroq.max_records := 1500;
     Marroq.dca_amounts_pct := pct |}.

(** The scenario controller asking for three clusters per side. *)
Definition controller_two_levels : Marroq.MarroqController :=
  {| Marroq.config :=
       {| Marroq.connector_name := "binance_perpetual";
          Marroq.trading_pair := "BTC-USDT";
          Marroq.candles_connector := "binance_perpetual";
          Marroq.candles_trading_pair := "BTC-USDT";
          Marroq.interval := "3m";
          Marroq.cluster_window := 1500;
          Marroq.cluster_prominence := 2 # 100;
          Marroq.cluster_width := 1;
          Marroq.dca_levels := 2;
          Marroq.dca_amounts_distribution := [1; 1];
          Marroq.executor_activation_bounds := None;
          Marroq.leverage := 20;
          Marroq.stop_loss := 3 # 100;
          Marroq.take_profit := 1 # 100;
          Marroq.time_limit := 2700;
          Marroq.trailing_stop := Scenario.trailing |};
     Marroq.max_records := 1500;
     Marroq.dca_amounts_pct := [1 # 2; 1 # 2] |}.

(** A strategy of the base class on one perpetual market, with two candles
    feeds of the same name and interval and one of another interval. *)
Definition base_strategy : MarketMakingStrategyBase.MarketMakingStrategyBase :=
  {| MarketMakingStrategyBase.config :=
       {| MarketMakingStrategyBase.strategy_name := "dman";
          MarketMakingStrategyBase.exchange := "binance_perpetual";
          MarketMakingStrategyBase.trading_pair := "BTC-USDT";
          MarketMakingStrategyBase.order_refresh_time := 60;
          MarketMakingStrategyBase.cooldown_time := 0;
          MarketMakingStrategyBase.leverage := 10 |};
     MarketMakingStrategyBase.candles :=
       [{| MarketMakingStrategyBase.name := "binance_perpetual_BTC-USDT";
           MarketMakingStrategyBase.interval := "3m";
           MarketMakingStrategyBase.is_ready := false |};
        {| MarketMakingStrategyBase.name := "binance_perpetual_BTC-USDT";
           MarketMakingStrategyBase.interval := "1h";
           MarketMakingStrategyBase.is_ready := true |};
        {| MarketMakingStrategyBase.name := "binance_perpetual_BTC-USDT";
           MarketMakingStrategyBase.interval := "3m";
           MarketMakingStrategyBase.is_ready := true |}] |}.

(** A single-level strategy over two connectors, the first perpetual, that
    has not configured its account yet. *)
Definition fresh_strategy : PMMSingleLevel.PMMSingleLevel :=
  {| PMMSingleLevel.config := Scenario.pmm_config;
     PMMSingleLevel.closed_executors_buffer := 10;
     PMMSingleLevel.connectors := ["binance_perpetual"%string; "kucoin"%string];
     PMMSingleLevel.market_data_provider :=
       {| PMMSingleLevel.ready := true;
          PMMSingleLevel.get_trading_pairs := fun _ => ["BTC-USDT"%string];
          PMMSingleLevel.mid_price := fun _ _ => 100 |};
     PMMSingleLevel.all_executors := [];
     PMMSingleLevel.current_timestamp := 1000;
     PMMSingleLevel.account_config_set := false |}.

Definition perpetual_by_name (connector_name : string) : bool :=
  String.eqb connector_name "binance_perpetual".


(** A strategy whose only market has mid price 0. *)
Definition strategy_without_price : PMMSingleLevel.PMMSingleLevel :=
  {| PMMSingleLevel.config := Scenario.pmm_config;
     PMMSingleLevel.closed_executors_buffer := 10;
     PMMSingleLevel.connectors := ["binance"%string];
     PMMSingleLevel.market_data_provider :=
       {| PMMSingleLevel.ready := true;
          PMMSingleLevel.get_trading_pairs := fun _ => ["BTC-USDT"%string];
          PMMSingleLevel.mid_price := fun _ _ => 0 |};
     PMMSingleLevel.all_executors := [];
     PMMSingleLevel.current_timestamp := 1000;
     PMMSingleLevel.account_config_set := true |}.

End Inputs.

(** * Properties *)

(** ** Fallible computations *)

Lemma bind_ok_inv {A B : Type} (m : result A) (k : A -> result B) (b : B) :
  bind m k = Ok b -> exists a, m = Ok a /\ k a = Ok b.
Proof.
  destruct m as [a | e]; simpl; intros Hk; [eauto | discriminate].
Qed.

Lemma mapM_total {A B : Type} (f : A -> result B) (g : A -> B) (l : list A) :
  (forall a, In a l -> f a = Ok (g a)) -> mapM f l = Ok (map g l).
Proof.
  induction l as [| a l IH]; simpl; intros Hf; [reflexivity |].
  rewrite (Hf a) by auto. simpl.
  rewrite IH by auto. reflexivity.
Qed.

Lemma mapM_length {A B : Type} (f : A -> result B) (l : list A) (bs : list B) :
  mapM f l = Ok bs -> length bs = length l.
Proof.
  revert bs. induction l as [| a l IH]; simpl; intros bs Hm.
  - injection Hm as <-. reflexivity.
  - apply bind_ok_inv in Hm as (b & _ & Hm).
    apply bind_ok_inv in Hm as (bs' & Hbs' & Hm).
    injection Hm as <-. simpl. f_equal. auto.
Qed.


(** ** Sums, extrema and means of rationals *)

Lemma fold_left_Qplus (l : list Q) (a : Q) : fold_left Qplus l a == a + total l.
Proof.
  revert a. induction l as [| x l IH]; simpl; intros a.
  - ring.
  - rewrite IH. ring.
Qed.

Lemma Qsum_total (l : list Q) : Qsum l == total l.
Proof.
  unfold Qsum. rewrite fold_left_Qplus. ring.
Qed.





Lemma fold_left_Qmax_ge (l : list Q) (a : Q) :
  a <= fold_left Qmax l a /\ Forall (fun y => y <= fold_left Qmax l a) l.
Proof.
  revert a. induction l as [| x l IH]; simpl; intros a.
  - split; [apply Qle_refl | constructor].
  - destruct (IH (Qmax a x)) as [Hacc Hall]. split; [| constructor].
    + eapply Qle_trans; [apply Q.le_max_l | exact Hacc].
    + eapply Qle_trans; [apply Q.le_max_r | exact Hacc].
    + exact Hall.
Qed.

Lemma fold_left_Qmin_le (l : list Q) (a : Q) :
  fold_left Qmin l a <= a /\ Forall (fun y => fold_left Qmin l a <= y) l.
Proof.
  revert a. induction l as [| x l IH]; simpl; intros a.
  - split; [apply Qle_refl | constructor].
  - destruct (IH (Qmin a x)) as [Hacc Hall]. split; [| constructor].
    + eapply Qle_trans; [exact Hacc | apply Q.le_min_l].
    + eapply Qle_trans; [exact Hacc | apply Q.le_min_r].
    + exact Hall.
Qed.

Lemma series_max_ge (s : list Q) (hi x : Q) :
  series_max s = Fin hi -> In x s -> x <= hi.
Proof.
  destruct s as [| y s]; [discriminate |].
  intros Hmax Hin. injection Hmax as <-.
  destruct (fold_left_Qmax_ge s y) as [Hy Hs].
  destruct Hin as [<- | Hin]; [assumption |].
  rewrite Forall_forall in Hs. auto.
Qed.

Lemma series_min_le (s : list Q) (lo x : Q) :
  series_min s = Fin lo -> In x s -> lo <= x.
Proof.
  destruct s as [| y s]; [discriminate |].
  intros Hmin Hin. injection Hmin as <-.
  destruct (fold_left_Qmin_le s y) as [Hy Hs].
  destruct Hin as [<- | Hin]; [assumption |].
  rewrite Forall_forall in Hs. auto.
Qed.

(** ** Clustering of peak prices *)

Lemma py_range_length (a b : Z) : length (py_range a b) = Z.to_nat (b - a).
Proof.
  unfold py_range. rewrite length_map, length_seq. reflexivity.
Qed.

Lemma py_range_NoDup (a b : Z) : NoDup (py_range a b).
Proof.
  unfold py_range. generalize (seq_NoDup (Z.to_nat (b - a)) 0).
  generalize (seq 0 (Z.to_nat (b - a))) as l.
  induction l as [| i l IH]; simpl; intros Hnd; [constructor |].
  inversion Hnd as [| ? ? Hni Hnd']; subst.
  constructor; [| auto].
  rewrite in_map_iff. intros (i' & Heq & Hin).
  assert (i' = i) by lia. subst. contradiction.
Qed.


Lemma members_label (peaks : list Q) (labels : list Z) (j : Z) :
  PeakAnalysisUtils.members peaks labels j <> [] -> In j labels.
Proof.
  unfold PeakAnalysisUtils.members.
  destruct (filter _ (combine peaks labels)) as [| [x l] r] eqn:Hf; [intros Hne; now elim Hne |].
  intros _.
  assert (Hin : In (x, l) (filter (fun pl => Z.eqb (snd pl) j) (combine peaks labels))).
  { rewrite Hf. left. reflexivity. }
  apply filter_In in Hin as [Hin Heq]. simpl in Heq.
  apply Z.eqb_eq in Heq. subst l. eapply in_combine_r; eassumption.
Qed.

Lemma is_nan_mean (xs : list Q) :
  is_nan (PeakAnalysisUtils.mean xs) = false -> xs <> [].
Proof.
  destruct xs; simpl; [discriminate | intros _; discriminate].
Qed.

Lemma filter_split_length {A : Type} (f : A -> bool) (l : list A) :
  (length (filter f l) + length (filter (fun x => negb (f x)) l) = length l)%nat.
Proof.
  induction l as [| a l IH]; simpl; [reflexivity |].
  destruct (f a); simpl; lia.
Qed.

Lemma filter_map_length {A B : Type} (f : B -> bool) (g : A -> B) (l : list A) :
  length (filter f (map g l)) = length (filter (fun a => f (g a)) l).
Proof.
  induction l as [| a l IH]; simpl; [reflexivity |].
  destruct (f (g a)); simpl; congruence.
Qed.

(** The centroids list, once the two scipy calls have returned a labelling
    of the right length: one mean per requested cluster. *)
Lemma hierarchical_clustering_returns `{Scipy} (peaks : list Q) (k : Z)
      (Z0 : linkage_matrix) :
  linkage peaks = Ok Z0 ->
  length (fcluster Z0 k) = length peaks ->
  PeakAnalysisUtils.hierarchical_clustering peaks k =
  Ok (map (fun j => PeakAnalysisUtils.mean (PeakAnalysisUtils.members peaks (fcluster Z0 k) j))
          (py_range 1 (k + 1)),
      fcluster Z0 k).
Proof.
  intros Hlink Hlen. unfold PeakAnalysisUtils.hierarchical_clustering.
  rewrite Hlink. simpl.
  erewrite mapM_total; [reflexivity |].
  intros j _. unfold PeakAnalysisUtils.mask_select.
  rewrite Hlen, Nat.eqb_refl. reflexivity.
Qed.

(** Pigeonhole: at most as many clusters are non-empty as there are peaks. *)
Lemma defined_centroids_le_peaks (peaks : list Q) (labels : list Z) (k : Z) :
  length labels = length peaks ->
  (length (filter (fun c => negb (is_nan c))
             (map (fun j => PeakAnalysisUtils.mean (PeakAnalysisUtils.members peaks labels j))
                  (py_range 1 (k + 1))))
   <= length peaks)%nat.
Proof.
  intros Hlen. rewrite filter_map_length, <- Hlen.
  apply NoDup_incl_length.
  - apply NoDup_filter, py_range_NoDup.
  - intros j Hj. apply filter_In in Hj as [_ Hj].
    apply members_label with (peaks := peaks).
    apply is_nan_mean. now apply negb_true_iff.
Qed.

(** C4 (amended): with fewer peaks than requested clusters, whenever scipy
    returns a labelling, [hierarchical_clustering] returns exactly [k]
    centroids, none dropped, and at least [k - n] of them are NaN. *)
Theorem short_peak_set_keeps_nan_centroids `{Scipy} (peaks : list Q) (k : Z)
        (Z0 : linkage_matrix) :
  linkage peaks = Ok Z0 ->
  length (fcluster Z0 k) = length peaks ->
  (Z.of_nat (length peaks) < k)%Z ->
  exists centroids,
    PeakAnalysisUtils.hierarchical_clustering peaks k = Ok (centroids, fcluster Z0 k) /\
    length centroids = Z.to_nat k /\
    (Z.to_nat k - length peaks <= count_nan centroids)%nat /\
    (1 <= count_nan centroids)%nat.
Proof.
  intros Hlink Hlen Hshort.
  eexists. split; [apply hierarchical_clustering_returns; eassumption |].
  assert (Hk : length (map (fun j => PeakAnalysisUtils.mean
                                       (PeakAnalysisUtils.members peaks (fcluster Z0 k) j))
                           (py_range 1 (k + 1))) = Z.to_nat k).
  { rewrite length_map, py_range_length. f_equal. lia. }
  split; [exact Hk |].
  pose proof (defined_centroids_le_peaks peaks (fcluster Z0 k) k Hlen) as Hdef.
  pose proof (filter_split_length is_nan
                (map (fun j => PeakAnalysisUtils.mean
                                 (PeakAnalysisUtils.members peaks (fcluster Z0 k) j))
                     (py_range 1 (k + 1)))) as Hsplit.
  unfold count_nan. rewrite Hk in Hsplit. lia.
Qed.

Lemma short_peak_set_witness :
  exists centroids,
    @PeakAnalysisUtils.hierarchical_clustering Scenario.scipy [100; 110; 120] 4 =
    Ok (centroids, [1; 2; 3]%Z) /\
    length centroids = 4%nat /\
    (Z.to_nat 4 - 3 <= count_nan centroids)%nat /\
    (1 <= count_nan centroids)%nat.
Proof.
  apply (@short_peak_set_keeps_nan_centroids Scenario.scipy [100; 110; 120] 4
           [100; 110; 120]).
  - reflexivity.
  - reflexivity.
  - simpl. lia.
Defined.

(** C4 (as stated) fails: three peaks and four requested clusters give four
    centroids, the last of them NaN.  By the theorem above the same holds
    for every labelling that [fcluster] may answer. *)
Lemma short_peak_set_counterexample :
  exists centroids labels,
    @PeakAnalysisUtils.hierarchical_clustering Scenario.scipy [100; 110; 120] 4 =
    Ok (centroids, labels) /\
    ~ ((length centroids < 4)%nat /\ ~ In NaN centroids).
Proof.
  exists [Fin 100; Fin 110; Fin 120; NaN], [1; 2; 3]%Z.
  split; [reflexivity |].
  intros [Hlen _]. simpl in Hlen. lia.
Qed.

(** ** Discovery of price levels *)


Section Window.
Variable candles : Candles.
Variables lo hi : Q.
Hypothesis bars_ordered : forall b, In b candles -> low b <= high b.
Hypothesis window_min : series_min (map low candles) = Fin lo.
Hypothesis window_max : series_max (map high candles) = Fin hi.




End Window.


Lemma scenario_bars_ordered (b : Bar) : In b Scenario.candles -> low b <= high b.
Proof.
  intros Hin. repeat (destruct Hin as [<- | Hin]; [vm_compute; discriminate |]).
  destruct Hin.
Qed.



(** ** The executor configuration builder *)


Lemma dec_div_nonzero (x y : Q) : ~ y == 0 -> dec_div x y = Ok (x / y).
Proof.
  intros Hy. unfold dec_div.
  destruct (Qeq_bool y 0) eqn:Heq; [| reflexivity].
  apply Qeq_bool_eq in Heq. contradiction.
Qed.

Lemma dec_div_ok_inv (x y q : Q) : dec_div x y = Ok q -> ~ y == 0 /\ q = x / y.
Proof.
  unfold dec_div. destruct (Qeq_bool y 0) eqn:Heq.
  - destruct (Qeq_bool x 0); discriminate.
  - intros Hq. injection Hq as <-. split; [| reflexivity].
    now apply Qeq_bool_neq.
Qed.



(** The builder once discovery and the two cluster filters have returned:
    the rest of the method, from the ladder on. *)
Lemma get_executor_config_from_clusters `{Scipy} (self : Marroq.MarroqController)
      (level_id : string) (trade_type : TradeType) (candles : Candles) (now price amount : Q)
      (high_clusters low_clusters : list num) (relevant_high relevant_low : list Q) :
  Marroq.find_and_cluster_peaks candles
    (Marroq.cluster_prominence (Marroq.config self))
    (Marroq.cluster_width (Marroq.config self))
    (Marroq.dca_levels (Marroq.config self) + 1) = Ok (high_clusters, low_clusters) ->
  Marroq.filter_clusters (fun c => Qltb price c) high_clusters = Ok relevant_high ->
  Marroq.filter_clusters (fun c => Qltb c price) low_clusters = Ok relevant_low ->
  forall e,
    Marroq.breakeven
      (price :: Marroq.select_clusters trade_type relevant_low relevant_high)
      (Marroq.ladder_amounts amount
         (Marroq.adjust_amounts_pct (Marroq.dca_amounts_pct self)
            (Marroq.select_clusters trade_type relevant_low relevant_high))
         (price :: Marroq.select_clusters trade_type relevant_low relevant_high))
    = Raise e ->
    Marroq.get_executor_config self level_id trade_type candles now price amount = Raise e.
Proof.
  intros Hdisc Hhigh Hlow e Hbe.
  unfold Marroq.get_executor_config.
  rewrite Hdisc. cbn [bind]. rewrite Hhigh. cbn [bind]. rewrite Hlow. cbn [bind].
  rewrite Hbe. reflexivity.
Qed.

(** What a returned configuration records of the run that produced it. *)
Lemma get_executor_config_inv `{Scipy} (self : Marroq.MarroqController)
      (level_id : string) (trade_type : TradeType) (candles : Candles) (now price amount : Q)
      (cfg : DCAExecutorConfig) :
  Marroq.get_executor_config self level_id trade_type candles now price amount = Ok cfg ->
  exists high_clusters low_clusters relevant_high relevant_low nearest,
    Marroq.find_and_cluster_peaks candles
      (Marroq.cluster_prominence (Marroq.config self))
      (Marroq.cluster_width (Marroq.config self))
      (Marroq.dca_levels (Marroq.config self) + 1) = Ok (high_clusters, low_clusters) /\
    Marroq.filter_clusters (fun c => Qltb price c) high_clusters = Ok relevant_high /\
    Marroq.filter_clusters (fun c => Qltb c price) low_clusters = Ok relevant_low /\
    prices cfg = price :: Marroq.select_clusters trade_type relevant_low relevant_high /\
    amounts_quote cfg =
      Marroq.ladder_amounts amount
        (Marroq.adjust_amounts_pct (Marroq.dca_amounts_pct self)
           (Marroq.select_clusters trade_type relevant_low relevant_high))
        (prices cfg) /\
    (if TradeType_eqb trade_type BUY then py_min relevant_high else py_max relevant_low)
    = Ok nearest /\
    ~ price == 0 /\
    activation_price (dca_trailing_stop cfg) = (price - nearest) / price.
Proof.
  unfold Marroq.get_executor_config. intros Hcfg.
  apply bind_ok_inv in Hcfg as ([high_clusters low_clusters] & Hdisc & Hcfg).
  apply bind_ok_inv in Hcfg as (relevant_high & Hhigh & Hcfg).
  apply bind_ok_inv in Hcfg as (relevant_low & Hlow & Hcfg).
  apply bind_ok_inv in Hcfg as (be & Hbe & Hcfg).
  apply bind_ok_inv in Hcfg as ([sl_pct nearest] & Hsl & Hcfg).
  apply bind_ok_inv in Hcfg as (activation & Hact & Hcfg).
  injection Hcfg as <-. cbn [prices amounts_quote dca_trailing_stop activation_price].
  apply dec_div_ok_inv in Hact as [Hprice ->].
  exists high_clusters, low_clusters, relevant_high, relevant_low, nearest.
  repeat split; try assumption; try reflexivity.
  destruct (TradeType_eqb trade_type BUY).
  - apply bind_ok_inv in Hsl as (m & _ & Hsl).
    apply bind_ok_inv in Hsl as (sl & _ & Hsl).
    apply bind_ok_inv in Hsl as (tsp & Htsp & Hsl).
    injection Hsl as _ <-. exact Htsp.
  - apply bind_ok_inv in Hsl as (m & _ & Hsl).
    apply bind_ok_inv in Hsl as (sl & _ & Hsl).
    apply bind_ok_inv in Hsl as (tsp & Htsp & Hsl).
    injection Hsl as _ <-. exact Htsp.
Qed.

(** The lengths of the two lists of a returned plan: the ladder has one
    price per selected cluster plus the entry, the amounts stop at the end
    of the weight sequence. *)
Lemma ladder_lengths (amount price : Q) (dca_amounts_pct selected : list Q) :
  length (Marroq.ladder_amounts amount
            (Marroq.adjust_amounts_pct dca_amounts_pct selected) (price :: selected))
  = Nat.min (length dca_amounts_pct) (S (length selected)).
Proof.
  unfold Marroq.ladder_amounts, Marroq.adjust_amounts_pct.
  rewrite length_map, length_combine.
  destruct (length selected + 1 <? length dca_amounts_pct)%nat eqn:Hlt.
  - apply Nat.ltb_lt in Hlt. rewrite length_firstn. simpl. lia.
  - apply Nat.ltb_ge in Hlt. simpl. lia.
Qed.

(** C1: the code breaks the claim.  With two low clusters below the price
    and a one-entry weight sequence the call succeeds and emits three
    prices with a single quote amount. *)
Theorem ladder_length_mismatch :
  Marroq.init Scenario.marroq_config = Ok Scenario.marroq_controller /\
  exists cfg,
    @Marroq.get_executor_config Scenario.scipy Scenario.marroq_controller
      "buy_0" BUY Scenario.candles 0 115 1000 = Ok cfg /\
    prices cfg = [115; 201 # 2; 221 # 2] /\
    amounts_quote cfg = [115000] /\
    length (prices cfg) = 3%nat /\
    length (amounts_quote cfg) = 1%nat.
Proof.
  split; [reflexivity |].
  eexists. split; [vm_compute; reflexivity |].
  repeat split.
Qed.

Lemma breakeven_raise_inv (prices amounts : list Q) (e : exn) :
  Marroq.breakeven prices amounts = Raise e ->
  e = ZeroDivisionError \/ e = DivisionByZero \/ e = InvalidOperation.
Proof.
  unfold Marroq.breakeven, dec_div.
  destruct amounts as [| a amounts]; [intros He; injection He as <-; auto |].
  destruct (Qeq_bool _ 0); [| discriminate].
  destruct (Qeq_bool _ 0); intros He; injection He as <-; auto.
Qed.




(** C3 (amended): when no cluster is selected the builder returns no plan.
    It fails with the [ValueError] of [min()]/[max()] on the empty selection,
    unless the breakeven division has failed before, in which case it fails
    with the error of that division. *)
Theorem no_selected_cluster_fails `{Scipy} (self : Marroq.MarroqController)
        (level_id : string) (trade_type : TradeType) (candles : Candles)
        (now price amount : Q)
        (high_clusters low_clusters : list num) (relevant_high relevant_low : list Q) :
  Marroq.find_and_cluster_peaks candles
    (Marroq.cluster_prominence (Marroq.config self))
    (Marroq.cluster_width (Marroq.config self))
    (Marroq.dca_levels (Marroq.config self) + 1) = Ok (high_clusters, low_clusters) ->
  Marroq.filter_clusters (fun c => Qltb price c) high_clusters = Ok relevant_high ->
  Marroq.filter_clusters (fun c => Qltb c price) low_clusters = Ok relevant_low ->
  Marroq.select_clusters trade_type relevant_low relevant_high = [] ->
  let amounts :=
    Marroq.ladder_amounts amount
      (Marroq.adjust_amounts_pct (Marroq.dca_amounts_pct self) []) [price] in
  (exists b,
      Marroq.breakeven [price] amounts = Ok b /\
      Marroq.get_executor_config self level_id trade_type candles now price amount
      = Raise ValueError) \/
  (exists e,
      Marroq.breakeven [price] amounts = Raise e /\
      (e = ZeroDivisionError \/ e = DivisionByZero \/ e = InvalidOperation) /\
      Marroq.get_executor_config self level_id trade_type candles now price amount
      = Raise e).
Proof.
  intros Hdisc Hhigh Hlow Hsel amounts.
  destruct (Marroq.breakeven [price] amounts) as [b | e] eqn:Hbe.
  - left. exists b. split; [reflexivity |].
    unfold Marroq.get_executor_config.
    rewrite Hdisc. cbn [bind]. rewrite Hhigh. cbn [bind]. rewrite Hlow. cbn [bind].
    rewrite Hsel. fold amounts. rewrite Hbe. cbn [bind].
    destruct (TradeType_eqb trade_type BUY); reflexivity.
  - right. exists e. split; [reflexivity |].
    split; [eapply breakeven_raise_inv; eassumption |].
    eapply get_executor_config_from_clusters; try eassumption.
    rewrite Hsel. exact Hbe.
Qed.

Lemma no_selected_cluster_witness :
  (exists b,
      Marroq.breakeven [100] (Marroq.ladder_amounts 1000 [1] [100]) = Ok b /\
      @Marroq.get_executor_config Scenario.scipy Scenario.marroq_controller
        "buy_0" BUY Scenario.candles 0 100 1000 = Raise ValueError) \/
  (exists e,
      Marroq.breakeven [100] (Marroq.ladder_amounts 1000 [1] [100]) = Raise e /\
      (e = ZeroDivisionError \/ e = DivisionByZero \/ e = InvalidOperation) /\
      @Marroq.get_executor_config Scenario.scipy Scenario.marroq_controller
        "buy_0" BUY Scenario.candles 0 100 1000 = Raise e).
Proof.
  apply (@no_selected_cluster_fails Scenario.scipy Scenario.marroq_controller
           "buy_0" BUY Scenario.candles 0 100 1000
           [Fin (241 # 2); Fin (261 # 2)] [Fin (201 # 2); Fin (221 # 2)]
           [241 # 2; 261 # 2] []);
    reflexivity.
Defined.

(** C3 (as stated) fails: at price 100 no low cluster lies below the price,
    the Buy selection is empty, and the builder raises the builtin
    [ValueError] of [min()]; [InsufficientLevels] is not raised. *)
Lemma no_selected_cluster_counterexample :
  Marroq.filter_clusters (fun c => Qltb c 100) [Fin (201 # 2); Fin (221 # 2)] = Ok [] /\
  @Marroq.get_executor_config Scenario.scipy Scenario.marroq_controller
    "buy_0" BUY Scenario.candles 0 100 1000 = Raise ValueError /\
  @Marroq.get_executor_config Scenario.scipy Scenario.marroq_controller
    "buy_0" BUY Scenario.candles 0 100 1000 <> Raise InsufficientLevels.
Proof.
  split; [reflexivity |].
  split; [reflexivity |].
  vm_compute. discriminate.
Qed.

Lemma filter_clusters_keep (keep : Q -> bool) (clusters : list num) (kept : list Q) :
  Marroq.filter_clusters keep clusters = Ok kept -> Forall (fun c => keep c = true) kept.
Proof.
  revert kept. induction clusters as [| [c |] clusters IH]; simpl; intros kept Hf.
  - injection Hf as <-. constructor.
  - apply bind_ok_inv in Hf as (rest & Hrest & Hf).
    destruct (keep c) eqn:Hc; injection Hf as <-; auto.
  - discriminate.
Qed.

Lemma min_from_In (m : Q) (l : list Q) : In (min_from m l) (m :: l).
Proof.
  revert m. induction l as [| x l IH]; simpl; intros m; [auto |].
  destruct (IH (if Qltb x m then x else m)) as [Heq | Hin]; [| auto].
  rewrite <- Heq. destruct (Qltb x m); auto.
Qed.

Lemma py_min_In (l : list Q) (m : Q) : py_min l = Ok m -> In m l.
Proof.
  destruct l as [| x l]; simpl; [discriminate |].
  intros Hm. injection Hm as <-. apply min_from_In.
Qed.

Lemma Qltb_lt (x y : Q) : Qltb x y = true -> x < y.
Proof.
  unfold Qltb. rewrite negb_true_iff. intros Hle.
  apply Qnot_le_lt. intros Hyx. apply Qle_bool_iff in Hyx. congruence.
Qed.

(** Every plan that the builder returns for a Buy at a positive price has
    a negative trailing-stop activation: the signed quotient
    [(price - nearest) / price] with [nearest] the lowest high cluster above
    the price. *)
Lemma buy_activation_is_signed `{Scipy} (self : Marroq.MarroqController)
      (level_id : string) (candles : Candles) (now price amount : Q)
      (cfg : DCAExecutorConfig) :
  Marroq.get_executor_config self level_id BUY candles now price amount = Ok cfg ->
  0 < price ->
  activation_price (dca_trailing_stop cfg) < 0.
Proof.
  intros Hcfg Hprice.
  apply get_executor_config_inv in Hcfg
    as (hc & lc & rh & rl & nearest & _ & Hrh & _ & _ & _ & Hnear & _ & ->).
  simpl in Hnear. apply py_min_In in Hnear.
  apply filter_clusters_keep in Hrh. rewrite Forall_forall in Hrh.
  apply Hrh, Qltb_lt in Hnear.
  unfold Qdiv. setoid_replace 0 with (0 * / price) by ring.
  apply Qmult_lt_compat_r; [now apply Qinv_lt_0_compat |].
  unfold Qminus. setoid_replace 0 with (nearest + - nearest) by ring.
  now apply Qplus_lt_l.
Qed.

(** C6: the code breaks the claim on the Buy side.  At price 115 the
    nearest high cluster above the price is 120.5, at distance 5.5, that is
    11/230 of the price; the plan that the builder returns carries the
    activation -11/230. *)
Theorem buy_trailing_activation_negative :
  exists cfg,
    @Marroq.get_executor_config Scenario.scipy Scenario.marroq_controller
      "buy_0" BUY Scenario.candles 0 115 1000 = Ok cfg /\
    Marroq.filter_clusters (fun c => Qltb 115 c) [Fin (241 # 2); Fin (261 # 2)]
    = Ok [241 # 2; 261 # 2] /\
    py_min [241 # 2; 261 # 2] = Ok (241 # 2) /\
    Qabs ((241 # 2) - 115) / 115 == 11 # 230 /\
    activation_price (dca_trailing_stop cfg) == - (11 # 230) /\
    ~ activation_price (dca_trailing_stop cfg) == Qabs ((241 # 2) - 115) / 115.
Proof.
  eexists. split; [vm_compute; reflexivity |].
  cbn [dca_trailing_stop activation_price].
  repeat split; try reflexivity.
  vm_compute. discriminate.
Qed.

(** ** The apply phase of the executor handler *)

Lemma list_remove_absent (o : nat) (l : list GenericExecutor.Executor) :
  (forall d, In d l -> GenericExecutor.oid d <> o) ->
  GenericExecutor.list_remove o l = None.
Proof.
  induction l as [| d l IH]; simpl; intros Habs; [reflexivity |].
  destruct (Nat.eqb_spec (GenericExecutor.oid d) o) as [Heq | _].
  - elim (Habs d); auto.
  - rewrite IH; auto.
Qed.

(** C7: a [Store] action whose target is not closed (or is unknown) changes
    nothing, neither the executor lists nor the record of stored executors,
    raises nothing, and the actions after it are applied as if it were not
    there. *)
Theorem store_on_open_executor_is_noop `{GenericExecutor.ExecutorRuntime}
        (self : GenericExecutor.GenericExecutor) (executor_id : string)
        (rest : list GenericExecutor.ExecutorAction) :
  (forall e, GenericExecutor.get_executor_by_id self executor_id = Some e ->
             GenericExecutor.is_closed e = false) ->
  GenericExecutor.execute_action self (GenericExecutor.StoreExecutorAction executor_id)
  = (self, None) /\
  GenericExecutor.execute_actions self
    (GenericExecutor.StoreExecutorAction executor_id :: rest)
  = GenericExecutor.execute_actions self rest.
Proof.
  intros Hopen.
  assert (Hstep : GenericExecutor.execute_action self
                    (GenericExecutor.StoreExecutorAction executor_id) = (self, None)).
  { unfold GenericExecutor.execute_action.
    destruct (GenericExecutor.get_executor_by_id self executor_id) as [e |] eqn:Hget;
      [| reflexivity].
    rewrite (Hopen e eq_refl). reflexivity. }
  split; [exact Hstep |].
  cbn [GenericExecutor.execute_actions]. rewrite Hstep. reflexivity.
Qed.

Lemma store_on_open_executor_witness :
  @GenericExecutor.execute_action Scenario.runtime Scenario.handler
    (GenericExecutor.StoreExecutorAction "p-2")
  = (Scenario.handler, None) /\
  @GenericExecutor.execute_actions Scenario.runtime Scenario.handler
    [GenericExecutor.StoreExecutorAction "p-2"; GenericExecutor.StoreExecutorAction "d-1"]
  = @GenericExecutor.execute_actions Scenario.runtime Scenario.handler
      [GenericExecutor.StoreExecutorAction "d-1"].
Proof.
  apply (@store_on_open_executor_is_noop Scenario.runtime Scenario.handler "p-2"
           [GenericExecutor.StoreExecutorAction "d-1"]).
  intros e He. vm_compute in He. injection He as <-. reflexivity.
Defined.

(** C10: a [Store] action never changes the position and arbitrage lists.
    When its target is closed, the executor is handed to the recorder and
    [remove] is called on the DCA list only: the first occurrence of the
    executor there is dropped, and when the executor is not in the DCA list
    (a position or arbitrage executor) that list is unchanged as well, the
    executor stays in its own list, and [remove] raises [ValueError]. *)
Theorem store_removes_from_dca_list_only `{GenericExecutor.ExecutorRuntime}
        (self : GenericExecutor.GenericExecutor) (executor_id : string) :
  let result :=
    GenericExecutor.execute_action self (GenericExecutor.StoreExecutorAction executor_id) in
  GenericExecutor.position_executors (fst result) = GenericExecutor.position_executors self /\
  GenericExecutor.arbitrage_executors (fst result) = GenericExecutor.arbitrage_executors self /\
  forall e,
    GenericExecutor.get_executor_by_id self executor_id = Some e ->
    GenericExecutor.is_closed e = true ->
    GenericExecutor.stored (fst result) = GenericExecutor.stored self ++ [e] /\
    GenericExecutor.dca_executors (fst result)
    = match GenericExecutor.list_remove (GenericExecutor.oid e)
              (GenericExecutor.dca_executors self) with
      | Some remaining => remaining
      | None => GenericExecutor.dca_executors self
      end /\
    ((forall d, In d (GenericExecutor.dca_executors self) ->
                GenericExecutor.oid d <> GenericExecutor.oid e) ->
     GenericExecutor.dca_executors (fst result) = GenericExecutor.dca_executors self /\
     snd result = Some ValueError).
Proof.
  cbn zeta. unfold GenericExecutor.execute_action.
  destruct (GenericExecutor.get_executor_by_id self executor_id) as [e |] eqn:Hget.
  - destruct (GenericExecutor.is_closed e) eqn:Hclosed.
    + destruct (GenericExecutor.list_remove (GenericExecutor.oid e)
                  (GenericExecutor.dca_executors self)) as [remaining |] eqn:Hrem;
        cbn [fst snd GenericExecutor.position_executors GenericExecutor.arbitrage_executors
             GenericExecutor.dca_executors GenericExecutor.stored];
        (split; [reflexivity |]); (split; [reflexivity |]);
        intros e' He' _; injection He' as <-; rewrite Hrem;
        (split; [reflexivity |]); (split; [reflexivity |]); intros Habs.
      * rewrite (list_remove_absent _ _ Habs) in Hrem. discriminate.
      * split; reflexivity.
    + cbn [fst snd]. split; [reflexivity |]. split; [reflexivity |].
      intros e' He' Hc. injection He' as <-. congruence.
  - cbn [fst snd]. split; [reflexivity |]. split; [reflexivity |].
    intros e' He'. discriminate.
Qed.

Lemma store_removes_from_dca_list_only_witness :
  let result :=
    @GenericExecutor.execute_action Scenario.runtime Scenario.handler
      (GenericExecutor.StoreExecutorAction "p-1") in
  let p1 := Scenario.executor 0 "p-1" GenericExecutor.PositionExecutorConfig false true in
  GenericExecutor.position_executors (fst result)
  = GenericExecutor.position_executors Scenario.handler /\
  GenericExecutor.arbitrage_executors (fst result)
  = GenericExecutor.arbitrage_executors Scenario.handler /\
  GenericExecutor.stored (fst result) = [p1] /\
  GenericExecutor.dca_executors (fst result) = GenericExecutor.dca_executors Scenario.handler /\
  In p1 (GenericExecutor.position_executors (fst result)) /\
  snd result = Some ValueError.
Proof.
  cbn zeta.
  destruct (@store_removes_from_dca_list_only Scenario.runtime Scenario.handler "p-1")
    as (Hpos & Harb & Hclosed).
  destruct (Hclosed (Scenario.executor 0 "p-1" GenericExecutor.PositionExecutorConfig
                       false true) eq_refl eq_refl) as (Hstored & _ & Habsent).
  destruct Habsent as [Hdca Hexn].
  { intros d [<- | [<- | []]]; simpl; discriminate. }
  repeat split; try assumption.
  rewrite Hpos. left. reflexivity.
Defined.

(** ** The store proposal of the single-level script *)








(** ** The creation proposal of the single-level script *)

Lemma create_order_ok (self : PMMSingleLevel.PMMSingleLevel) (c p : string)
      (s : TradeType) (order_price : Q) :
  ~ order_price == 0 ->
  PMMSingleLevel.create_order self c p s order_price
  = Ok (PMMSingleLevel.order_at self c p s order_price).
Proof.
  intros Hprice. unfold PMMSingleLevel.create_order.
  rewrite dec_div_nonzero by assumption. reflexivity.
Qed.

Lemma create_actions_for_ok (self : PMMSingleLevel.PMMSingleLevel) (c p : string) :
  ~ PMMSingleLevel.entry_price_of self c p BUY == 0 ->
  ~ PMMSingleLevel.entry_price_of self c p SELL == 0 ->
  PMMSingleLevel.create_actions_for self c p = Ok (PMMSingleLevel.market_actions self c p).
Proof.
  intros Hbuy Hsell.
  unfold PMMSingleLevel.create_actions_for, PMMSingleLevel.market_actions.
  unfold PMMSingleLevel.entry_price_of in *.
  destruct (Nat.eqb (PMMSingleLevel.len_active self BUY p) 0);
    destruct (Nat.eqb (PMMSingleLevel.len_active self SELL p) 0);
    rewrite ?create_order_ok by assumption; reflexivity.
Qed.

Lemma create_actions_proposal_ok (self : PMMSingleLevel.PMMSingleLevel) :
  (forall c p,
      In c (PMMSingleLevel.connectors self) ->
      In p (PMMSingleLevel.get_trading_pairs (PMMSingleLevel.market_data_provider self) c) ->
      ~ PMMSingleLevel.entry_price_of self c p BUY == 0 /\
      ~ PMMSingleLevel.entry_price_of self c p SELL == 0) ->
  PMMSingleLevel.create_actions_proposal self
  = Ok (flat_map
          (fun c => flat_map (PMMSingleLevel.market_actions self c)
                      (PMMSingleLevel.get_trading_pairs
                         (PMMSingleLevel.market_data_provider self) c))
          (PMMSingleLevel.connectors self)).
Proof.
  intros Hprices. unfold PMMSingleLevel.create_actions_proposal.
  erewrite mapM_total.
  - cbn [bind]. now rewrite <- flat_map_concat_map.
  - intros c Hc. erewrite mapM_total.
    + cbn [bind]. now rewrite <- flat_map_concat_map.
    + intros p Hp. destruct (Hprices c p Hc Hp). now apply create_actions_for_ok.
Qed.

Lemma count_flat_map_absent {A B : Type} (P : B -> bool) (f : A -> list B) (l : list A) :
  (forall a, In a l -> length (filter P (f a)) = 0%nat) ->
  length (filter P (flat_map f l)) = 0%nat.
Proof.
  induction l as [| a l IH]; simpl; intros Hzero; [reflexivity |].
  rewrite filter_app, length_app, Hzero, IH; auto.
Qed.

Lemma count_flat_map_unique {A B : Type} (P : B -> bool) (f : A -> list B)
      (l : list A) (k : A) :
  NoDup l -> In k l ->
  (forall a, In a l -> a <> k -> length (filter P (f a)) = 0%nat) ->
  length (filter P (flat_map f l)) = length (filter P (f k)).
Proof.
  induction l as [| a l IH]; simpl; intros Hnd Hin Hzero; [contradiction |].
  inversion Hnd as [| ? ? Hni Hnd']; subst.
  rewrite filter_app, length_app.
  destruct Hin as [-> | Hin].
  - rewrite count_flat_map_absent; [lia |].
    intros a Ha. apply Hzero; [auto |]. intros ->. contradiction.
  - rewrite IH by auto. rewrite Hzero; [lia | auto |].
    intros ->. contradiction.
Qed.

Lemma count_market_actions (self : PMMSingleLevel.PMMSingleLevel) (c p c' p' : string)
      (s : TradeType) :
  s = BUY \/ s = SELL ->
  length (filter (PMMSingleLevel.is_create_for c p s)
                 (PMMSingleLevel.market_actions self c' p'))
  = if (String.eqb c' c && String.eqb p' p
        && Nat.eqb (PMMSingleLevel.len_active self s p') 0)%bool
    then 1%nat else 0%nat.
Proof.
  unfold PMMSingleLevel.market_actions.
  intros [-> | ->];
    destruct (Nat.eqb (PMMSingleLevel.len_active self BUY p') 0);
    destruct (Nat.eqb (PMMSingleLevel.len_active self SELL p') 0);
    simpl; destruct (String.eqb c' c); destruct (String.eqb p' p); reflexivity.
Qed.

Lemma count_pair_market_actions (self : PMMSingleLevel.PMMSingleLevel) (p c' p' : string)
      (s : TradeType) :
  s = BUY \/ s = SELL ->
  PMMSingleLevel.len_active self s p <> 0%nat ->
  length (filter (PMMSingleLevel.is_create_for_pair p s)
                 (PMMSingleLevel.market_actions self c' p')) = 0%nat.
Proof.
  unfold PMMSingleLevel.market_actions.
  intros Hs Hactive.
  destruct (String.eqb_spec p' p) as [-> | Hpair].
  - apply Nat.eqb_neq in Hactive.
    destruct Hs as [-> | ->]; rewrite Hactive;
      [destruct (Nat.eqb (PMMSingleLevel.len_active self SELL p) 0)
      | destruct (Nat.eqb (PMMSingleLevel.len_active self BUY p) 0)];
      simpl; rewrite ?String.eqb_refl; reflexivity.
  - apply String.eqb_neq in Hpair.
    destruct (Nat.eqb (PMMSingleLevel.len_active self BUY p') 0);
      destruct (Nat.eqb (PMMSingleLevel.len_active self SELL p') 0);
      simpl; rewrite ?Hpair; reflexivity.
Qed.

Lemma market_actions_well_priced (self : PMMSingleLevel.PMMSingleLevel) (c p : string) :
  Forall (PMMSingleLevel.well_priced self) (PMMSingleLevel.market_actions self c p).
Proof.
  unfold PMMSingleLevel.market_actions.
  apply Forall_app. split.
  - destruct (Nat.eqb _ 0); constructor; [| constructor].
    simpl. auto.
  - destruct (Nat.eqb _ 0); constructor; [| constructor].
    simpl. auto.
Qed.

Lemma TradeType_eqb_eq (a b : TradeType) : TradeType_eqb a b = true <-> a = b.
Proof.
  destruct a, b; simpl; split; intros Heq; try reflexivity; discriminate.
Qed.

Lemma len_active_zero_iff (self : PMMSingleLevel.PMMSingleLevel) (s : TradeType)
      (p : string) :
  PMMSingleLevel.len_active self s p = 0%nat <->
  ~ exists x,
      In x (PMMSingleLevel.all_executors self) /\
      PMMSingleLevel.side x = s /\
      PMMSingleLevel.type x = "position_executor"%string /\
      PMMSingleLevel.is_active x = true /\
      PMMSingleLevel.trading_pair x = p.
Proof.
  unfold PMMSingleLevel.len_active, PMMSingleLevel.active_position_executors,
    PMMSingleLevel.filter_executors.
  rewrite length_zero_iff_nil. split.
  - intros Hnil (x & Hin & Hside & Htype & Hactive & Hpair).
    assert (Hx : In x []); [| contradiction].
    rewrite <- Hnil. apply filter_In. split.
    + apply filter_In. split; [exact Hin |].
      rewrite !andb_true_iff. split; [split |].
      * now apply TradeType_eqb_eq.
      * now apply String.eqb_eq.
      * exact Hactive.
    + now apply String.eqb_eq.
  - intros Hnone.
    destruct (filter _ (filter _ _)) as [| x rest] eqn:Hfilter; [reflexivity |].
    exfalso. apply Hnone. exists x.
    assert (Hx : In x (x :: rest)) by now left.
    rewrite <- Hfilter in Hx.
    apply filter_In in Hx as [Hx Hpair].
    apply filter_In in Hx as [Hin Hkind].
    rewrite !andb_true_iff in Hkind. destruct Hkind as [[Hside Htype] Hactive].
    split; [exact Hin |].
    split; [now apply TradeType_eqb_eq |].
    split; [now apply String.eqb_eq |].
    split; [exact Hactive | now apply String.eqb_eq].
Qed.

(** C9 (amended): when every connector is listed once, every connector
    lists each of its trading pairs once and no entry price is zero, the
    creation proposal returns; every action is a creation priced at
    [mid * (1 - spread)] for a Buy and [mid * (1 + spread)] for a Sell.
    Call a side active on a pair when the executors seen by the strategy
    hold an executor of that side, of type [position_executor], that is
    active and trades the pair.  For each listed market (connector and
    trading pair) and each side that is not active on the pair there is
    exactly one creation, for an unlisted market there is none, and a side
    that is active on a pair gets no creation for that pair on any
    connector. *)
Theorem one_create_per_market_and_side (self : PMMSingleLevel.PMMSingleLevel) :
  NoDup (PMMSingleLevel.connectors self) ->
  (forall c, In c (PMMSingleLevel.connectors self) ->
             NoDup (PMMSingleLevel.get_trading_pairs
                      (PMMSingleLevel.market_data_provider self) c)) ->
  (forall c p,
      In c (PMMSingleLevel.connectors self) ->
      In p (PMMSingleLevel.get_trading_pairs (PMMSingleLevel.market_data_provider self) c) ->
      ~ PMMSingleLevel.entry_price_of self c p BUY == 0 /\
      ~ PMMSingleLevel.entry_price_of self c p SELL == 0) ->
  let active_on (s : TradeType) (p : string) : Prop :=
    exists x,
      In x (PMMSingleLevel.all_executors self) /\
      PMMSingleLevel.side x = s /\
      PMMSingleLevel.type x = "position_executor"%string /\
      PMMSingleLevel.is_active x = true /\
      PMMSingleLevel.trading_pair x = p in
  exists actions,
    PMMSingleLevel.create_actions_proposal self = Ok actions /\
    Forall (PMMSingleLevel.well_priced self) actions /\
    forall c p s,
      s = BUY \/ s = SELL ->
      (In c (PMMSingleLevel.connectors self) ->
       In p (PMMSingleLevel.get_trading_pairs (PMMSingleLevel.market_data_provider self) c) ->
       ~ active_on s p ->
       length (filter (PMMSingleLevel.is_create_for c p s) actions) = 1%nat) /\
      (~ (In c (PMMSingleLevel.connectors self) /\
          In p (PMMSingleLevel.get_trading_pairs
                  (PMMSingleLevel.market_data_provider self) c)) ->
       length (filter (PMMSingleLevel.is_create_for c p s) actions) = 0%nat) /\
      (active_on s p ->
       length (filter (PMMSingleLevel.is_create_for_pair p s) actions) = 0%nat).
Proof.
  intros Hconn Hpairs Hprices active_on.
  eexists. split; [now apply create_actions_proposal_ok |].
  split.
  { apply Forall_flat_map, Forall_forall. intros c _.
    apply Forall_flat_map, Forall_forall. intros p _.
    apply market_actions_well_priced. }
  intros c p s Hs. split; [| split].
  - intros Hc Hp Hnone.
    apply len_active_zero_iff in Hnone.
    rewrite (count_flat_map_unique _ _ _ c Hconn Hc).
    + rewrite (count_flat_map_unique _ _ _ p (Hpairs c Hc) Hp).
      * rewrite count_market_actions by assumption.
        now rewrite !String.eqb_refl, Hnone.
      * intros p' _ Hp'. rewrite count_market_actions by assumption.
        apply String.eqb_neq in Hp'. rewrite Hp'.
        now rewrite andb_false_r.
    + intros c' _ Hc'. apply count_flat_map_absent. intros p' _.
      rewrite count_market_actions by assumption.
      apply String.eqb_neq in Hc'. now rewrite Hc'.
  - intros Hunlisted.
    apply count_flat_map_absent. intros c' Hc'.
    apply count_flat_map_absent. intros p' Hp'.
    rewrite count_market_actions by assumption.
    destruct (String.eqb_spec c' c) as [-> | _]; [| reflexivity].
    destruct (String.eqb_spec p' p) as [-> | _]; [| reflexivity].
    elim Hunlisted. auto.
  - intros Hactive.
    assert (Hlen : PMMSingleLevel.len_active self s p <> 0%nat).
    { intros Hzero. apply len_active_zero_iff in Hzero. now apply Hzero. }
    apply count_flat_map_absent. intros c' _.
    apply count_flat_map_absent. intros p' _.
    now apply count_pair_market_actions.
Qed.

Lemma one_create_per_market_witness :
  let self := Scenario.strategy ["binance"%string] [Scenario.active_sell] in
  exists actions,
    PMMSingleLevel.create_actions_proposal self = Ok actions /\
    Forall (PMMSingleLevel.well_priced self) actions /\
    length (filter (PMMSingleLevel.is_create_for "binance" "BTC-USDT" BUY) actions) = 1%nat /\
    length (filter (PMMSingleLevel.is_create_for "kucoin" "BTC-USDT" BUY) actions) = 0%nat /\
    length (filter (PMMSingleLevel.is_create_for_pair "BTC-USDT" SELL) actions) = 0%nat.
Proof.
  cbn zeta.
  destruct (one_create_per_market_and_side
              (Scenario.strategy ["binance"%string] [Scenario.active_sell]))
    as (actions & Hactions & Hpriced & Hcount).
  - repeat constructor. simpl. tauto.
  - intros c _. repeat constructor. simpl. tauto.
  - intros c p _ _. split; vm_compute; discriminate.
  - exists actions. split; [exact Hactions |]. split; [exact Hpriced |].
    split; [| split].
    + apply (Hcount "binance"%string "BTC-USDT"%string BUY); [now left | | |];
        simpl; auto.
      intros (x & [<- | []] & Hside & _). discriminate.
    + apply (Hcount "kucoin"%string "BTC-USDT"%string BUY); [now left |].
      intros [[Hc | []] _]. discriminate.
    + apply (Hcount "binance"%string "BTC-USDT"%string SELL); [now right |].
      exists Scenario.active_sell. simpl. auto 6.
Defined.

(** C9 (as stated) fails: with the pair BTC-USDT listed by two connectors
    and no executor at all, one tick proposes two Buy creations (and two
    Sell creations) for the pair, one per connector. *)
Lemma one_create_per_side_counterexample :
  let self := Scenario.strategy ["binance"%string; "kucoin"%string] [] in
  PMMSingleLevel.all_executors self = [] /\
  exists actions,
    PMMSingleLevel.create_actions_proposal self = Ok actions /\
    length (filter (PMMSingleLevel.is_create_for_pair "BTC-USDT" BUY) actions) = 2%nat /\
    length (filter (PMMSingleLevel.is_create_for_pair "BTC-USDT" SELL) actions) = 2%nat.
Proof.
  cbn zeta. split; [reflexivity |].
  eexists. split; [vm_compute; reflexivity |].
  split; reflexivity.
Qed.

(** Twelve terminated position executors created at times 0 to 11 and the
    buffer of ten: the two oldest, B then A, are proposed for storage. *)
Example store_proposal_example :
  PMMSingleLevel.store_actions_proposal
    (Scenario.strategy ["binance"%string]
       (Scenario.terminated_infos "position_executor" 12))
  = [PMMSingleLevel.StoreExecutorAction "B"; PMMSingleLevel.StoreExecutorAction "A"].
Proof. reflexivity. Qed.

(** * Further properties of the code *)

(** ** Normalisation of the amounts distribution *)

Lemma total_map_div (s : Q) (l : list Q) :
  total (map (fun a => a / s) l) == total l / s.
Proof.
  induction l as [| a l IH]; simpl.
  - unfold Qdiv. ring.
  - rewrite IH. unfold Qdiv. ring.
Qed.

(** X1: a non-empty distribution whose sum is not zero is normalised by
    the constructor: the weights are the entries divided by the sum, as
    many as the entries, and (in the exact arithmetic of the embedding,
    rounding apart) they sum to 1. *)
Theorem init_normalises (cfg : Marroq.MarroqControllerConfig) :
  Marroq.dca_amounts_distribution cfg <> [] ->
  ~ Qsum (Marroq.dca_amounts_distribution cfg) == 0 ->
  exists self,
    Marroq.init cfg = Ok self /\
    Marroq.config self = cfg /\
    Marroq.dca_amounts_pct self
    = map (fun a => a / Qsum (Marroq.dca_amounts_distribution cfg))
          (Marroq.dca_amounts_distribution cfg) /\
    length (Marroq.dca_amounts_pct self) = length (Marroq.dca_amounts_distribution cfg) /\
    Qsum (Marroq.dca_amounts_pct self) == 1.
Proof.
  intros Hne Hsum. unfold Marroq.init.
  erewrite mapM_total; [| intros a _; now apply dec_div_nonzero].
  cbn [bind]. eexists. split; [reflexivity |].
  cbn [Marroq.config Marroq.dca_amounts_pct].
  repeat split.
  - apply length_map.
  - rewrite Qsum_total, total_map_div, <- Qsum_total.
    now apply Qmult_inv_r.
Qed.

Lemma init_normalises_witness :
  exists self,
    Marroq.init Scenario.marroq_config = Ok self /\
    Marroq.config self = Scenario.marroq_config /\
    Marroq.dca_amounts_pct self = map (fun a => a / Qsum [1]) [1] /\
    length (Marroq.dca_amounts_pct self) = 1%nat /\
    Qsum (Marroq.dca_amounts_pct self) == 1.
Proof.
  apply (init_normalises Scenario.marroq_config).
  - discriminate.
  - vm_compute. discriminate.
Defined.

(** X2: a non-empty distribution that sums to zero makes the constructor
    fail with the error of its first division: [decimal.DivisionByZero]
    when the first entry is not zero, [decimal.InvalidOperation] when it
    is. *)
Theorem init_zero_sum_fails (cfg : Marroq.MarroqControllerConfig) (a : Q) (rest : list Q) :
  Marroq.dca_amounts_distribution cfg = a :: rest ->
  Qsum (a :: rest) == 0 ->
  Marroq.init cfg = Raise (if Qeq_bool a 0 then InvalidOperation else DivisionByZero).
Proof.
  intros Hdist Hsum. unfold Marroq.init. rewrite Hdist.
  cbn [mapM]. unfold dec_div at 1.
  rewrite (Qeq_eq_bool _ _ Hsum).
  destruct (Qeq_bool a 0); reflexivity.
Qed.

Lemma init_zero_sum_witness :
  Marroq.init (Inputs.config_with_distribution [1; -1]) = Raise DivisionByZero.
Proof.
  apply (init_zero_sum_fails (Inputs.config_with_distribution [1; -1]) 1 [-1]);
    reflexivity.
Defined.

(** ** More on the executor configuration builder *)

Lemma filter_clusters_nan (keep : Q -> bool) (clusters : list num) :
  In NaN clusters -> Marroq.filter_clusters keep clusters = Raise InvalidOperation.
Proof.
  induction clusters as [| [c |] clusters IH]; simpl; intros Hin.
  - contradiction.
  - destruct Hin as [Heq | Hin]; [discriminate |].
    rewrite IH by assumption. reflexivity.
  - reflexivity.
Qed.

Lemma filter_clusters_raise (keep : Q -> bool) (clusters : list num) (e : exn) :
  Marroq.filter_clusters keep clusters = Raise e -> e = InvalidOperation.
Proof.
  induction clusters as [| [c |] clusters IH]; simpl; intros Hf.
  - discriminate.
  - destruct (Marroq.filter_clusters keep clusters); [discriminate |].
    apply IH. simpl in Hf. injection Hf as ->. reflexivity.
  - now injection Hf.
Qed.

(** X3: an undefined centroid on either side, the selected one or the
    other, makes the build fail: ordering NaN against the price raises
    [decimal.InvalidOperation] in the cluster filters. *)
Theorem nan_centroid_fails_build `{Scipy} (self : Marroq.MarroqController)
        (level_id : string) (trade_type : TradeType) (candles : Candles)
        (now price amount : Q) (high_clusters low_clusters : list num) :
  Marroq.find_and_cluster_peaks candles
    (Marroq.cluster_prominence (Marroq.config self))
    (Marroq.cluster_width (Marroq.config self))
    (Marroq.dca_levels (Marroq.config self) + 1) = Ok (high_clusters, low_clusters) ->
  In NaN high_clusters \/ In NaN low_clusters ->
  Marroq.get_executor_config self level_id trade_type candles now price amount
  = Raise InvalidOperation.
Proof.
  intros Hdisc Hnan. unfold Marroq.get_executor_config.
  rewrite Hdisc. cbn [bind].
  destruct (Marroq.filter_clusters (fun c => Qltb price c) high_clusters)
    as [relevant_high | e] eqn:Hhigh.
  - destruct Hnan as [Hnan | Hnan].
    + rewrite (filter_clusters_nan _ _ Hnan) in Hhigh. discriminate.
    + cbn [bind]. rewrite (filter_clusters_nan _ _ Hnan). reflexivity.
  - cbn [bind]. now rewrite (filter_clusters_raise _ _ _ Hhigh).
Qed.

Lemma nan_centroid_witness :
  @Marroq.get_executor_config Scenario.scipy Inputs.controller_two_levels
    "buy_0" BUY Scenario.candles 0 115 1000 = Raise InvalidOperation.
Proof.
  apply (@nan_centroid_fails_build Scenario.scipy Inputs.controller_two_levels
           "buy_0" BUY Scenario.candles 0 115 1000
           [Fin (241 # 2); Fin (261 # 2); NaN] [Fin (201 # 2); Fin (221 # 2); NaN]).
  - reflexivity.
  - left. simpl. auto.
Defined.

(** X4: with an empty weight sequence no build returns a plan; a build
    that gets past discovery and the cluster filters computes an empty list
    of amounts and fails on the builtin division [0 / 0]. *)
Theorem empty_weights_never_build `{Scipy} (self : Marroq.MarroqController)
        (level_id : string) (trade_type : TradeType) (candles : Candles)
        (now price amount : Q) :
  Marroq.dca_amounts_pct self = [] ->
  (forall cfg,
      Marroq.get_executor_config self level_id trade_type candles now price amount
      <> Ok cfg) /\
  (forall high_clusters low_clusters relevant_high relevant_low,
      Marroq.find_and_cluster_peaks candles
        (Marroq.cluster_prominence (Marroq.config self))
        (Marroq.cluster_width (Marroq.config self))
        (Marroq.dca_levels (Marroq.config self) + 1) = Ok (high_clusters, low_clusters) ->
      Marroq.filter_clusters (fun c => Qltb price c) high_clusters = Ok relevant_high ->
      Marroq.filter_clusters (fun c => Qltb c price) low_clusters = Ok relevant_low ->
      Marroq.get_executor_config self level_id trade_type candles now price amount
      = Raise ZeroDivisionError).
Proof.
  intros Hempty.
  assert (Hfail : forall high_clusters low_clusters relevant_high relevant_low,
             Marroq.find_and_cluster_peaks candles
               (Marroq.cluster_prominence (Marroq.config self))
               (Marroq.cluster_width (Marroq.config self))
               (Marroq.dca_levels (Marroq.config self) + 1)
             = Ok (high_clusters, low_clusters) ->
             Marroq.filter_clusters (fun c => Qltb price c) high_clusters = Ok relevant_high ->
             Marroq.filter_clusters (fun c => Qltb c price) low_clusters = Ok relevant_low ->
             Marroq.get_executor_config self level_id trade_type candles now price amount
             = Raise ZeroDivisionError).
  { intros hc lc rh rl Hdisc Hhigh Hlow.
    eapply get_executor_config_from_clusters; try eassumption.
    rewrite Hempty. unfold Marroq.adjust_amounts_pct.
    destruct (_ <? _)%nat; [rewrite firstn_nil |]; reflexivity. }
  split; [| exact Hfail].
  intros cfg Hcfg.
  destruct (get_executor_config_inv _ _ _ _ _ _ _ _ Hcfg)
    as (hc & lc & rh & rl & nearest & Hdisc & Hhigh & Hlow & _).
  rewrite (Hfail _ _ _ _ Hdisc Hhigh Hlow) in Hcfg. discriminate.
Qed.

Lemma empty_weights_witness :
  (forall cfg,
      @Marroq.get_executor_config Scenario.scipy (Inputs.controller_with_weights [])
        "buy_0" BUY Scenario.candles 0 115 1000 <> Ok cfg) /\
  @Marroq.get_executor_config Scenario.scipy (Inputs.controller_with_weights [])
    "buy_0" BUY Scenario.candles 0 115 1000 = Raise ZeroDivisionError.
Proof.
  destruct (@empty_weights_never_build Scenario.scipy (Inputs.controller_with_weights [])
              "buy_0" BUY Scenario.candles 0 115 1000 eq_refl) as [Hnever Hfail].
  split; [exact Hnever |].
  apply (Hfail [Fin (241 # 2); Fin (261 # 2)] [Fin (201 # 2); Fin (221 # 2)]
               [241 # 2; 261 # 2] [201 # 2; 221 # 2]); reflexivity.
Defined.

Lemma Qltb_ge (x y : Q) : Qltb x y = false -> y <= x.
Proof.
  unfold Qltb. rewrite negb_false_iff. apply Qle_bool_iff.
Qed.

Lemma min_from_le (l : list Q) (m : Q) :
  min_from m l <= m /\ Forall (fun x => min_from m l <= x) l.
Proof.
  revert m. induction l as [| x l IH]; simpl; intros m.
  - split; [apply Qle_refl | constructor].
  - destruct (IH (if Qltb x m then x else m)) as [Hacc Hall].
    destruct (Qltb x m) eqn:Hlt.
    + apply Qltb_lt in Hlt. split; [| constructor; assumption].
      eapply Qle_trans; [exact Hacc | now apply Qlt_le_weak].
    + apply Qltb_ge in Hlt. split; [assumption |].
      constructor; [| assumption]. eapply Qle_trans; eassumption.
Qed.

Lemma max_from_ge (l : list Q) (m : Q) :
  m <= max_from m l /\ Forall (fun x => x <= max_from m l) l.
Proof.
  revert m. induction l as [| x l IH]; simpl; intros m.
  - split; [apply Qle_refl | constructor].
  - destruct (IH (if Qltb m x then x else m)) as [Hacc Hall].
    destruct (Qltb m x) eqn:Hlt.
    + apply Qltb_lt in Hlt. split; [| constructor; assumption].
      apply Qle_trans with x; [now apply Qlt_le_weak | exact Hacc].
    + apply Qltb_ge in Hlt. split; [assumption |].
      constructor; [| assumption]. eapply Qle_trans; eassumption.
Qed.

Lemma max_from_In (m : Q) (l : list Q) : In (max_from m l) (m :: l).
Proof.
  revert m. induction l as [| x l IH]; simpl; intros m; [auto |].
  destruct (IH (if Qltb m x then x else m)) as [Heq | Hin]; [| auto].
  rewrite <- Heq. destruct (Qltb m x); auto.
Qed.

Lemma py_min_spec (l : list Q) (m : Q) :
  py_min l = Ok m -> In m l /\ Forall (fun x => m <= x) l.
Proof.
  destruct l as [| x l]; simpl; [discriminate |].
  intros Hm. injection Hm as <-. split; [apply min_from_In |].
  destruct (min_from_le l x). now constructor.
Qed.

Lemma py_max_spec (l : list Q) (m : Q) :
  py_max l = Ok m -> In m l /\ Forall (fun x => x <= m) l.
Proof.
  destruct l as [| x l]; simpl; [discriminate |].
  intros Hm. injection Hm as <-. split; [apply max_from_In |].
  destruct (max_from_ge l x). now constructor.
Qed.

(** Everything that a returned configuration records of its run,
    including the extremum taken on the selected side. *)
Lemma get_executor_config_run `{Scipy} (self : Marroq.MarroqController)
      (level_id : string) (trade_type : TradeType) (candles : Candles) (now price amount : Q)
      (cfg : DCAExecutorConfig) :
  Marroq.get_executor_config self level_id trade_type candles now price amount = Ok cfg ->
  exists high_clusters low_clusters relevant_high relevant_low be worst nearest,
    Marroq.find_and_cluster_peaks candles
      (Marroq.cluster_prominence (Marroq.config self))
      (Marroq.cluster_width (Marroq.config self))
      (Marroq.dca_levels (Marroq.config self) + 1) = Ok (high_clusters, low_clusters) /\
    Marroq.filter_clusters (fun c => Qltb price c) high_clusters = Ok relevant_high /\
    Marroq.filter_clusters (fun c => Qltb c price) low_clusters = Ok relevant_low /\
    prices cfg = price :: Marroq.select_clusters trade_type relevant_low relevant_high /\
    amounts_quote cfg =
      Marroq.ladder_amounts amount
        (Marroq.adjust_amounts_pct (Marroq.dca_amounts_pct self)
           (Marroq.select_clusters trade_type relevant_low relevant_high))
        (prices cfg) /\
    Marroq.breakeven (prices cfg) (amounts_quote cfg) = Ok be /\
    (if TradeType_eqb trade_type BUY
     then py_min relevant_low = Ok worst /\ py_min relevant_high = Ok nearest
     else py_max relevant_high = Ok worst /\ py_max relevant_low = Ok nearest) /\
    ~ price == 0 /\
    activation_price (dca_trailing_stop cfg) = (price - nearest) / price.
Proof.
  unfold Marroq.get_executor_config. intros Hcfg.
  apply bind_ok_inv in Hcfg as ([high_clusters low_clusters] & Hdisc & Hcfg).
  apply bind_ok_inv in Hcfg as (relevant_high & Hhigh & Hcfg).
  apply bind_ok_inv in Hcfg as (relevant_low & Hlow & Hcfg).
  apply bind_ok_inv in Hcfg as (be & Hbe & Hcfg).
  apply bind_ok_inv in Hcfg as ([sl_pct nearest] & Hsl & Hcfg).
  apply bind_ok_inv in Hcfg as (activation & Hact & Hcfg).
  injection Hcfg as <-. cbn [prices amounts_quote dca_trailing_stop activation_price].
  apply dec_div_ok_inv in Hact as [Hprice ->].
  unfold Marroq.select_clusters in *.
  destruct (TradeType_eqb trade_type BUY) eqn:Hside;
    apply bind_ok_inv in Hsl as (worst & Hworst & Hsl);
    apply bind_ok_inv in Hsl as (sl & _ & Hsl);
    apply bind_ok_inv in Hsl as (tsp & Htsp & Hsl);
    injection Hsl as _ <-;
    exists high_clusters, low_clusters, relevant_high, relevant_low, be, worst, tsp;
    repeat split; assumption || reflexivity.
Qed.

(** X5: every plan that the builder returns has a cluster on each side of
    the price, whatever the side of the order: the selected side supplies
    the scale-in levels and the stop loss, the opposite side the trailing
    stop.  Hence at least two prices, at least one amount, a non-zero total
    amount and a non-zero price. *)
Theorem returned_plan_has_both_sides `{Scipy} (self : Marroq.MarroqController)
        (level_id : string) (trade_type : TradeType) (candles : Candles)
        (now price amount : Q) (cfg : DCAExecutorConfig) :
  Marroq.get_executor_config self level_id trade_type candles now price amount = Ok cfg ->
  (exists high_clusters low_clusters relevant_high relevant_low,
      Marroq.find_and_cluster_peaks candles
        (Marroq.cluster_prominence (Marroq.config self))
        (Marroq.cluster_width (Marroq.config self))
        (Marroq.dca_levels (Marroq.config self) + 1) = Ok (high_clusters, low_clusters) /\
      Marroq.filter_clusters (fun c => Qltb price c) high_clusters = Ok relevant_high /\
      Marroq.filter_clusters (fun c => Qltb c price) low_clusters = Ok relevant_low /\
      relevant_high <> [] /\ relevant_low <> []) /\
  (2 <= length (prices cfg))%nat /\
  (1 <= length (amounts_quote cfg))%nat /\
  ~ Qsum (amounts_quote cfg) == 0 /\
  ~ price == 0.
Proof.
  intros Hcfg.
  destruct (get_executor_config_run _ _ _ _ _ _ _ _ Hcfg)
    as (hc & lc & rh & rl & be & worst & nearest
        & Hdisc & Hhigh & Hlow & Hprices & Hamounts & Hbe & Hext & Hprice & _).
  assert (Hboth : rh <> [] /\ rl <> []).
  { destruct (TradeType_eqb trade_type BUY); destruct Hext as [Hw Hn];
      split; intros ->; discriminate. }
  destruct Hboth as [Hrh Hrl].
  split; [exists hc, lc, rh, rl; auto |].
  split.
  { rewrite Hprices. unfold Marroq.select_clusters.
    destruct (TradeType_eqb trade_type BUY); [destruct rl | destruct rh];
      simpl; try contradiction; lia. }
  unfold Marroq.breakeven in Hbe.
  destruct (amounts_quote cfg) as [| a amounts]; [discriminate |].
  split; [simpl; lia |].
  split; [| assumption].
  now apply dec_div_ok_inv in Hbe.
Qed.

Lemma returned_plan_witness :
  (exists high_clusters low_clusters relevant_high relevant_low,
      @Marroq.find_and_cluster_peaks Scenario.scipy Scenario.candles
        (2 # 100) 1 (1 + 1) = Ok (high_clusters, low_clusters) /\
      Marroq.filter_clusters (fun c => Qltb 115 c) high_clusters = Ok relevant_high /\
      Marroq.filter_clusters (fun c => Qltb c 115) low_clusters = Ok relevant_low /\
      relevant_high <> [] /\ relevant_low <> []) /\
  (2 <= 3)%nat /\ (1 <= 1)%nat /\ ~ Qsum [115000] == 0 /\ ~ 115 == 0.
Proof.
  apply (@returned_plan_has_both_sides Scenario.scipy Scenario.marroq_controller
           "sell_0" SELL Scenario.candles 0 115 1000
           {| dca_timestamp := 0;
              dca_level_id := "sell_0";
              dca_connector_name := "binance_perpetual";
              dca_trading_pair := "BTC-USDT";
              prices := [115; 241 # 2; 261 # 2];
              amounts_quote := [115000];
              dca_leverage := 20;
              dca_side := SELL;
              dca_time_limit := 2700;
              dca_stop_loss := Fin (43457350000000 # 304175000000000);
              dca_trailing_stop :=
                {| activation_price := 9 # 230; trailing_delta := 5 # 1000 |};
              activation_bounds := None;
              dca_take_profit := 1 # 100 |}).
  vm_compute. reflexivity.
Defined.

(** X6: in every returned plan there is one price per selected cluster
    plus the entry, and the amounts stop at the shorter of the weight
    sequence and the prices: the two lists have the same length exactly
    when there are at least as many weights as prices. *)
Theorem returned_plan_lengths `{Scipy} (self : Marroq.MarroqController)
        (level_id : string) (trade_type : TradeType) (candles : Candles)
        (now price amount : Q) (cfg : DCAExecutorConfig) :
  Marroq.get_executor_config self level_id trade_type candles now price amount = Ok cfg ->
  length (amounts_quote cfg)
  = Nat.min (length (Marroq.dca_amounts_pct self)) (length (prices cfg)) /\
  (length (amounts_quote cfg) = length (prices cfg) <->
   (length (prices cfg) <= length (Marroq.dca_amounts_pct self))%nat).
Proof.
  intros Hcfg.
  destruct (get_executor_config_run _ _ _ _ _ _ _ _ Hcfg)
    as (hc & lc & rh & rl & be & worst & nearest
        & _ & _ & _ & Hprices & Hamounts & _).
  assert (Hlen : length (amounts_quote cfg)
                 = Nat.min (length (Marroq.dca_amounts_pct self)) (length (prices cfg))).
  { rewrite Hamounts, Hprices. apply ladder_lengths. }
  split; [exact Hlen |]. lia.
Qed.

Lemma returned_plan_lengths_witness :
  1%nat = Nat.min 1 3 /\ (1%nat = 3%nat <-> (3 <= 1)%nat).
Proof.
  apply (@returned_plan_lengths Scenario.scipy Scenario.marroq_controller
           "buy_0" BUY Scenario.candles 0 115 1000
           {| dca_timestamp := 0;
              dca_level_id := "buy_0";
              dca_connector_name := "binance_perpetual";
              dca_trading_pair := "BTC-USDT";
              prices := [115; 201 # 2; 221 # 2];
              amounts_quote := [115000];
              dca_leverage := 20;
              dca_side := BUY;
              dca_time_limit := 2700;
              dca_stop_loss := Fin (40812350000000 # 304175000000000);
              dca_trailing_stop :=
                {| activation_price := -11 # 230; trailing_delta := 5 # 1000 |};
              activation_bounds := None;
              dca_take_profit := 1 # 100 |}).
  vm_compute. reflexivity.
Defined.

(** X7: the ladder of a returned plan starts at the reference price and
    every scale-in level lies strictly on the adverse side of it: below the
    price for a Buy, above it otherwise. *)
Theorem returned_ladder_sides `{Scipy} (self : Marroq.MarroqController)
        (level_id : string) (trade_type : TradeType) (candles : Candles)
        (now price amount : Q) (cfg : DCAExecutorConfig) :
  Marroq.get_executor_config self level_id trade_type candles now price amount = Ok cfg ->
  exists levels,
    prices cfg = price :: levels /\
    Forall (fun p => if TradeType_eqb trade_type BUY then p < price else price < p) levels.
Proof.
  intros Hcfg.
  destruct (get_executor_config_run _ _ _ _ _ _ _ _ Hcfg)
    as (hc & lc & rh & rl & be & worst & nearest
        & _ & Hhigh & Hlow & Hprices & _).
  eexists. split; [exact Hprices |].
  unfold Marroq.select_clusters. destruct (TradeType_eqb trade_type BUY).
  - eapply Forall_impl; [| exact (filter_clusters_keep _ _ _ Hlow)].
    intros p. apply Qltb_lt.
  - eapply Forall_impl; [| exact (filter_clusters_keep _ _ _ Hhigh)].
    intros p. apply Qltb_lt.
Qed.

Lemma returned_ladder_sides_witness :
  exists levels,
    [115; 201 # 2; 221 # 2] = 115 :: levels /\
    Forall (fun p => if TradeType_eqb BUY BUY then p < 115 else 115 < p) levels.
Proof.
  apply (@returned_ladder_sides Scenario.scipy Scenario.marroq_controller
           "buy_0" BUY Scenario.candles 0 115 1000
           {| dca_timestamp := 0;
              dca_level_id := "buy_0";
              dca_connector_name := "binance_perpetual";
              dca_trading_pair := "BTC-USDT";
              prices := [115; 201 # 2; 221 # 2];
              amounts_quote := [115000];
              dca_leverage := 20;
              dca_side := BUY;
              dca_time_limit := 2700;
              dca_stop_loss := Fin (40812350000000 # 304175000000000);
              dca_trailing_stop :=
                {| activation_price := -11 # 230; trailing_delta := 5 # 1000 |};
              activation_bounds := None;
              dca_take_profit := 1 # 100 |}).
  vm_compute. reflexivity.
Defined.

(** X8: for an order that is not a Buy, at a positive price, the
    trailing-stop activation of a returned plan is the distance between the
    price and the highest low cluster below it, as a positive fraction of
    the price. *)
Theorem sell_activation_is_distance `{Scipy} (self : Marroq.MarroqController)
        (level_id : string) (trade_type : TradeType) (candles : Candles)
        (now price amount : Q) (cfg : DCAExecutorConfig) :
  Marroq.get_executor_config self level_id trade_type candles now price amount = Ok cfg ->
  trade_type <> BUY ->
  0 < price ->
  exists high_clusters low_clusters relevant_low nearest,
    Marroq.find_and_cluster_peaks candles
      (Marroq.cluster_prominence (Marroq.config self))
      (Marroq.cluster_width (Marroq.config self))
      (Marroq.dca_levels (Marroq.config self) + 1) = Ok (high_clusters, low_clusters) /\
    Marroq.filter_clusters (fun c => Qltb c price) low_clusters = Ok relevant_low /\
    In nearest relevant_low /\
    Forall (fun c => c <= nearest) relevant_low /\
    nearest < price /\
    activation_price (dca_trailing_stop cfg) == Qabs (nearest - price) / price /\
    0 < activation_price (dca_trailing_stop cfg).
Proof.
  intros Hcfg Hside Hprice.
  destruct (get_executor_config_run _ _ _ _ _ _ _ _ Hcfg)
    as (hc & lc & rh & rl & be & worst & nearest
        & Hdisc & _ & Hlow & _ & _ & _ & Hext & _ & Hact).
  assert (Hnot : TradeType_eqb trade_type BUY = false).
  { destruct trade_type; [contradiction | reflexivity | reflexivity]. }
  rewrite Hnot in Hext. destruct Hext as [_ Hnear].
  apply py_max_spec in Hnear as [Hin Hmax].
  assert (Hlt : nearest < price).
  { pose proof (filter_clusters_keep _ _ _ Hlow) as Hkeep.
    rewrite Forall_forall in Hkeep. now apply Qltb_lt, Hkeep. }
  exists hc, lc, rl, nearest.
  repeat split; try assumption.
  - rewrite Hact.
    rewrite Qabs_neg.
    + unfold Qdiv. ring.
    + unfold Qminus. setoid_replace 0 with (price + - price) by ring.
      apply Qplus_le_l. now apply Qlt_le_weak.
  - rewrite Hact. unfold Qdiv.
    setoid_replace 0 with (0 * / price) by ring.
    apply Qmult_lt_compat_r; [now apply Qinv_lt_0_compat |].
    unfold Qminus. setoid_replace 0 with (nearest + - nearest) by ring.
    now apply Qplus_lt_l.
Qed.

Lemma sell_activation_witness :
  exists high_clusters low_clusters relevant_low nearest,
    @Marroq.find_and_cluster_peaks Scenario.scipy Scenario.candles
      (2 # 100) 1 (1 + 1) = Ok (high_clusters, low_clusters) /\
    Marroq.filter_clusters (fun c => Qltb c 115) low_clusters = Ok relevant_low /\
    In nearest relevant_low /\
    Forall (fun c => c <= nearest) relevant_low /\
    nearest < 115 /\
    9 # 230 == Qabs (nearest - 115) / 115 /\
    0 < 9 # 230.
Proof.
  apply (@sell_activation_is_distance Scenario.scipy Scenario.marroq_controller
           "sell_0" SELL Scenario.candles 0 115 1000
           {| dca_timestamp := 0;
              dca_level_id := "sell_0";
              dca_connector_name := "binance_perpetual";
              dca_trading_pair := "BTC-USDT";
              prices := [115; 241 # 2; 261 # 2];
              amounts_quote := [115000];
              dca_leverage := 20;
              dca_side := SELL;
              dca_time_limit := 2700;
              dca_stop_loss := Fin (43457350000000 # 304175000000000);
              dca_trailing_stop :=
                {| activation_price := 9 # 230; trailing_delta := 5 # 1000 |};
              activation_bounds := None;
              dca_take_profit := 1 # 100 |}).
  - vm_compute. reflexivity.
  - discriminate.
  - reflexivity.
Defined.

(** X9: for a Buy, the trailing-stop activation of a returned plan is
    computed from the lowest high cluster above the price, as the signed
    quotient [(price - nearest) / price]. *)
Theorem buy_activation_uses_lowest_high `{Scipy} (self : Marroq.MarroqController)
        (level_id : string) (candles : Candles)
        (now price amount : Q) (cfg : DCAExecutorConfig) :
  Marroq.get_executor_config self level_id BUY candles now price amount = Ok cfg ->
  exists high_clusters low_clusters relevant_high nearest,
    Marroq.find_and_cluster_peaks candles
      (Marroq.cluster_prominence (Marroq.config self))
      (Marroq.cluster_width (Marroq.config self))
      (Marroq.dca_levels (Marroq.config self) + 1) = Ok (high_clusters, low_clusters) /\
    Marroq.filter_clusters (fun c => Qltb price c) high_clusters = Ok relevant_high /\
    In nearest relevant_high /\
    Forall (fun c => nearest <= c) relevant_high /\
    price < nearest /\
    activation_price (dca_trailing_stop cfg) = (price - nearest) / price.
Proof.
  intros Hcfg.
  destruct (get_executor_config_run _ _ _ _ _ _ _ _ Hcfg)
    as (hc & lc & rh & rl & be & worst & nearest
        & Hdisc & Hhigh & _ & _ & _ & _ & Hext & _ & Hact).
  simpl in Hext. destruct Hext as [_ Hnear].
  apply py_min_spec in Hnear as [Hin Hmin].
  exists hc, lc, rh, nearest.
  repeat split; try assumption.
  pose proof (filter_clusters_keep _ _ _ Hhigh) as Hkeep.
  rewrite Forall_forall in Hkeep. now apply Qltb_lt, Hkeep.
Qed.

Lemma buy_activation_witness :
  exists high_clusters low_clusters relevant_high nearest,
    @Marroq.find_and_cluster_peaks Scenario.scipy Scenario.candles
      (2 # 100) 1 (1 + 1) = Ok (high_clusters, low_clusters) /\
    Marroq.filter_clusters (fun c => Qltb 115 c) high_clusters = Ok relevant_high /\
    In nearest relevant_high /\
    Forall (fun c => nearest <= c) relevant_high /\
    115 < nearest /\
    -11 # 230 = (115 - nearest) / 115.
Proof.
  apply (@buy_activation_uses_lowest_high Scenario.scipy Scenario.marroq_controller
           "buy_0" Scenario.candles 0 115 1000
           {| dca_timestamp := 0;
              dca_level_id := "buy_0";
              dca_connector_name := "binance_perpetual";
              dca_trading_pair := "BTC-USDT";
              prices := [115; 201 # 2; 221 # 2];
              amounts_quote := [115000];
              dca_leverage := 20;
              dca_side := BUY;
              dca_time_limit := 2700;
              dca_stop_loss := Fin (40812350000000 # 304175000000000);
              dca_trailing_stop :=
                {| activation_price := -11 # 230; trailing_delta := 5 # 1000 |};
              activation_bounds := None;
              dca_take_profit := 1 # 100 |}).
  vm_compute. reflexivity.
Defined.

(** ** The breakeven price *)




(** ** More on peaks and clusters *)

Lemma series_extrema_defined (s : list Q) :
  s <> [] -> exists lo hi, series_min s = Fin lo /\ series_max s = Fin hi.
Proof.
  destruct s as [| x s]; [intros Hne; now elim Hne |].
  intros _. simpl. eauto.
Qed.

(** X11: on a non-empty window whose bars have [low <= high], the
    prominence threshold for a non-negative percentage is a non-negative
    number (the range of the window times the percentage); nothing keeps it
    above zero. *)
Theorem prominence_nonnegative (candles : Candles) (prominence_percentage : Q) :
  candles <> [] ->
  (forall b, In b candles -> low b <= high b) ->
  0 <= prominence_percentage ->
  exists lo hi,
    series_min (map low candles) = Fin lo /\
    series_max (map high candles) = Fin hi /\
    lo <= hi /\
    PeakAnalysisUtils.calculate_prominence candles prominence_percentage
    = Fin ((hi - lo) * prominence_percentage) /\
    0 <= (hi - lo) * prominence_percentage.
Proof.
  intros Hne Hbars Hpct.
  destruct candles as [| b candles]; [now elim Hne |].
  unfold PeakAnalysisUtils.calculate_prominence.
  destruct (series_extrema_defined (map low (b :: candles))) as (lo & _ & Hlo & _);
    [discriminate |].
  destruct (series_extrema_defined (map high (b :: candles))) as (_ & hi & _ & Hhi);
    [discriminate |].
  assert (Hrange : lo <= hi).
  { apply Qle_trans with (low b).
    - apply series_min_le with (map low (b :: candles)); [assumption | now left].
    - apply Qle_trans with (high b); [apply Hbars; now left |].
      apply series_max_ge with (map high (b :: candles)); [assumption | now left]. }
  exists lo, hi. rewrite Hlo, Hhi. repeat split; try assumption.
  apply Qmult_le_0_compat; [| assumption].
  unfold Qminus. setoid_replace 0 with (lo + - lo) by ring.
  now apply Qplus_le_l.
Qed.

Lemma prominence_nonnegative_witness :
  exists lo hi,
    series_min (map low Scenario.candles) = Fin lo /\
    series_max (map high Scenario.candles) = Fin hi /\
    lo <= hi /\
    PeakAnalysisUtils.calculate_prominence Scenario.candles (2 # 100)
    = Fin ((hi - lo) * (2 # 100)) /\
    0 <= (hi - lo) * (2 # 100).
Proof.
  apply (prominence_nonnegative Scenario.candles (2 # 100)).
  - discriminate.
  - exact scenario_bars_ordered.
  - discriminate.
Defined.

Lemma fold_left_Qmax_const (c : Q) (l : list Q) (a : Q) :
  a == c -> Forall (fun x => x == c) l -> fold_left Qmax l a == c.
Proof.
  revert a. induction l as [| x l IH]; simpl; intros a Ha Hall; [assumption |].
  inversion Hall as [| ? ? Hx Hall']; subst.
  apply IH; [| assumption].
  rewrite Q.max_l; [assumption |]. rewrite Ha, Hx. apply Qle_refl.
Qed.

Lemma fold_left_Qmin_const (c : Q) (l : list Q) (a : Q) :
  a == c -> Forall (fun x => x == c) l -> fold_left Qmin l a == c.
Proof.
  revert a. induction l as [| x l IH]; simpl; intros a Ha Hall; [assumption |].
  inversion Hall as [| ? ? Hx Hall']; subst.
  apply IH; [| assumption].
  rewrite Q.min_l; [assumption |]. rewrite Ha, Hx. apply Qle_refl.
Qed.

(** X12: on a flat window, every high and every low equal to the same
    price, the prominence threshold is zero whatever the percentage. *)
Theorem prominence_flat_window (candles : Candles) (prominence_percentage c : Q) :
  candles <> [] ->
  (forall b, In b candles -> high b == c /\ low b == c) ->
  exists q,
    PeakAnalysisUtils.calculate_prominence candles prominence_percentage = Fin q /\
    q == 0.
Proof.
  intros Hne Hflat.
  destruct candles as [| b candles]; [now elim Hne |].
  unfold PeakAnalysisUtils.calculate_prominence. simpl.
  eexists. split; [reflexivity |].
  assert (Hhigh : Forall (fun x => x == c) (map high candles)).
  { apply Forall_map, Forall_forall. intros b' Hb'. apply Hflat. now right. }
  assert (Hlow : Forall (fun x => x == c) (map low candles)).
  { apply Forall_map, Forall_forall. intros b' Hb'. apply Hflat. now right. }
  destruct (Hflat b (or_introl eq_refl)) as [Hb_high Hb_low].
  rewrite (fold_left_Qmax_const c _ _ Hb_high Hhigh).
  rewrite (fold_left_Qmin_const c _ _ Hb_low Hlow).
  ring.
Qed.

Lemma prominence_flat_witness :
  exists q,
    PeakAnalysisUtils.calculate_prominence
      [Scenario.bar 100 100; Scenario.bar 100 100; Scenario.bar 100 100] (2 # 100) = Fin q /\
    q == 0.
Proof.
  apply (prominence_flat_window _ (2 # 100) 100).
  - discriminate.
  - intros b [<- | [<- | [<- | []]]]; split; reflexivity.
Defined.

Lemma combine_label_In (peaks : list Q) (labels : list Z) (j : Z) :
  length labels = length peaks -> In j labels -> exists p, In (p, j) (combine peaks labels).
Proof.
  revert labels. induction peaks as [| p peaks IH]; intros [| l labels] Hlen Hin;
    simpl in *; try contradiction; try discriminate.
  destruct Hin as [-> | Hin]; [eauto |].
  destruct (IH labels) as (p' & Hp'); [lia | assumption | eauto].
Qed.

Lemma mean_nan_iff (xs : list Q) : PeakAnalysisUtils.mean xs = NaN <-> xs = [].
Proof.
  destruct xs; simpl; split; intros Heq; reflexivity || discriminate.
Qed.

Lemma members_empty_iff (peaks : list Q) (labels : list Z) (j : Z) :
  length labels = length peaks ->
  PeakAnalysisUtils.members peaks labels j = [] <-> ~ In j labels.
Proof.
  intros Hlen. split.
  - intros Hempty Hin.
    destruct (combine_label_In peaks labels j Hlen Hin) as (p & Hp).
    assert (Hmem : In p (PeakAnalysisUtils.members peaks labels j)).
    { unfold PeakAnalysisUtils.members. apply in_map_iff. exists (p, j).
      split; [reflexivity |]. apply filter_In. split; [assumption |].
      simpl. apply Z.eqb_refl. }
    rewrite Hempty in Hmem. contradiction.
  - intros Hnot.
    destruct (PeakAnalysisUtils.members peaks labels j) eqn:Hmem; [reflexivity |].
    elim Hnot. apply members_label with (peaks := peaks). rewrite Hmem. discriminate.
Qed.

Lemma Forall2_map_right {A B : Type} (P : A -> B -> Prop) (f : A -> B) (l : list A) :
  (forall a, P a (f a)) -> Forall2 P l (map f l).
Proof.
  intros HP. induction l; simpl; constructor; auto.
Qed.

(** X13: whenever scipy returns a labelling of the right length, the
    centroid at position [j] (counting from 1) is NaN exactly when no peak
    carries the label [j]; nothing else makes a centroid undefined. *)
Theorem centroid_nan_iff_unused_label `{Scipy} (peaks : list Q) (k : Z)
        (Z0 : linkage_matrix) :
  linkage peaks = Ok Z0 ->
  length (fcluster Z0 k) = length peaks ->
  exists centroids,
    PeakAnalysisUtils.hierarchical_clustering peaks k = Ok (centroids, fcluster Z0 k) /\
    Forall2 (fun j c => c = NaN <-> ~ In j (fcluster Z0 k))
            (py_range 1 (k + 1)) centroids.
Proof.
  intros Hlink Hlen.
  eexists. split; [apply hierarchical_clustering_returns; eassumption |].
  apply Forall2_map_right. intros j.
  rewrite mean_nan_iff. now apply members_empty_iff.
Qed.

Lemma centroid_nan_witness :
  exists centroids,
    @PeakAnalysisUtils.hierarchical_clustering Scenario.scipy Scenario.high_peak_prices 3
    = Ok (centroids, [1; 1; 2; 2]%Z) /\
    Forall2 (fun j c => c = NaN <-> ~ In j [1; 1; 2; 2]%Z) (py_range 1 (3 + 1)) centroids.
Proof.
  apply (@centroid_nan_iff_unused_label Scenario.scipy Scenario.high_peak_prices 3
           Scenario.high_peak_prices); reflexivity.
Defined.

Lemma filter_disjoint_length {A : Type} (f g : A -> bool) (l : list A) :
  (forall a, f a = true -> g a = false) ->
  (length (filter f l) + length (filter g l)
   = length (filter (fun a => f a || g a) l))%nat.
Proof.
  intros Hdisj. induction l as [| a l IH]; simpl; [reflexivity |].
  destruct (f a) eqn:Hf; simpl.
  - rewrite (Hdisj a Hf). simpl. lia.
  - destruct (g a); simpl; lia.
Qed.

Lemma existsb_Zeqb_In (x : Z) (l : list Z) : existsb (Z.eqb x) l = true <-> In x l.
Proof.
  rewrite existsb_exists. split.
  - intros (y & Hy & Heq). apply Z.eqb_eq in Heq. now subst.
  - intros Hin. exists x. split; [assumption | apply Z.eqb_refl].
Qed.

Lemma class_sizes_sum {A : Type} (label : A -> Z) (l : list A) (js : list Z) :
  NoDup js ->
  list_sum (map (fun j => length (filter (fun a => Z.eqb (label a) j) l)) js)
  = length (filter (fun a => existsb (Z.eqb (label a)) js) l).
Proof.
  induction 1 as [| j js Hnotin Hnd IH]; simpl.
  - induction l as [| a l IHl]; simpl; auto.
  - rewrite IH. apply filter_disjoint_length.
    intros a Ha. apply Z.eqb_eq in Ha. subst j.
    destruct (existsb (Z.eqb (label a)) js) eqn:Hex; [| reflexivity].
    apply existsb_Zeqb_In in Hex. contradiction.
Qed.

Lemma py_range_In (a b x : Z) : In x (py_range a b) <-> (a <= x < b)%Z.
Proof.
  unfold py_range. rewrite in_map_iff. split.
  - intros (i & <- & Hi). apply in_seq in Hi. lia.
  - intros Hx. exists (Z.to_nat (x - a)). split; [lia |].
    apply in_seq. lia.
Qed.

(** X14: the clusters partition the labelled peaks.  With a labelling of
    the right length whose labels all lie between 1 and [k], the sizes of
    the [k] member sets add up to the number of peaks: every peak counts in
    exactly one centroid. *)
Theorem clusters_partition_peaks (peaks : list Q) (labels : list Z) (k : Z) :
  length labels = length peaks ->
  Forall (fun l => (1 <= l <= k)%Z) labels ->
  list_sum (map (fun j => length (PeakAnalysisUtils.members peaks labels j))
                (py_range 1 (k + 1)))
  = length peaks.
Proof.
  intros Hlen Hlabels.
  unfold PeakAnalysisUtils.members.
  erewrite map_ext; [| intros j; apply length_map].
  rewrite (class_sizes_sum snd (combine peaks labels) _ (py_range_NoDup 1 (k + 1))).
  rewrite forallb_filter_id.
  - rewrite length_combine. lia.
  - apply forallb_forall. intros [p l] Hin. simpl.
    apply existsb_Zeqb_In, py_range_In.
    apply in_combine_r in Hin. rewrite Forall_forall in Hlabels.
    specialize (Hlabels l Hin). lia.
Qed.

Lemma clusters_partition_witness :
  list_sum (map (fun j => length (PeakAnalysisUtils.members
                                    Scenario.high_peak_prices [1; 1; 2; 2]%Z j))
                (py_range 1 (3 + 1)))
  = length Scenario.high_peak_prices.
Proof.
  apply (clusters_partition_peaks Scenario.high_peak_prices [1; 1; 2; 2]%Z 3).
  - reflexivity.
  - repeat constructor; lia.
Defined.

(** ** More on the executor handler *)

(** X15: a batch of actions is applied as its two halves in sequence: the
    second half runs on the handler that the first half leaves, and when the
    first half raises, the handler it leaves and its exception are the
    result and the second half is not applied. *)
Theorem execute_actions_in_sequence `{GenericExecutor.ExecutorRuntime}
        (self : GenericExecutor.GenericExecutor)
        (first second : list GenericExecutor.ExecutorAction) :
  GenericExecutor.execute_actions self (first ++ second)
  = match GenericExecutor.execute_actions self first with
    | (self', None) => GenericExecutor.execute_actions self' second
    | (self', Some e) => (self', Some e)
    end.
Proof.
  revert self. induction first as [| action first IH]; intros self; simpl.
  - reflexivity.
  - destruct (GenericExecutor.execute_action self action) as [self' [e |]].
    + reflexivity.
    + apply IH.
Qed.

(** X16: an action of an unknown class raises [ValueError] and ends the
    batch: what the earlier actions did stays, the later actions are not
    applied. *)
Theorem unknown_action_ends_batch `{GenericExecutor.ExecutorRuntime}
        (self : GenericExecutor.GenericExecutor)
        (before after : list GenericExecutor.ExecutorAction) :
  snd (GenericExecutor.execute_actions self before) = None ->
  GenericExecutor.execute_actions self
    (before ++ GenericExecutor.UnknownAction :: after)
  = (fst (GenericExecutor.execute_actions self before), Some ValueError).
Proof.
  revert self. induction before as [| action before IH]; intros self; simpl.
  - reflexivity.
  - destruct (GenericExecutor.execute_action self action) as [self' [e |]].
    + discriminate.
    + apply IH.
Qed.

Lemma unknown_action_witness :
  @GenericExecutor.execute_actions Scenario.runtime Scenario.handler
    ([GenericExecutor.StopExecutorAction "p-2"]
     ++ GenericExecutor.UnknownAction :: [GenericExecutor.StoreExecutorAction "d-1"])
  = (fst (@GenericExecutor.execute_actions Scenario.runtime Scenario.handler
            [GenericExecutor.StopExecutorAction "p-2"]),
     Some ValueError).
Proof.
  apply (@unknown_action_ends_batch Scenario.runtime Scenario.handler
           [GenericExecutor.StopExecutorAction "p-2"]
           [GenericExecutor.StoreExecutorAction "d-1"]).
  reflexivity.
Defined.

Lemma find_app {A : Type} (f : A -> bool) (l1 l2 : list A) :
  find f (l1 ++ l2) = match find f l1 with
                      | Some x => Some x
                      | None => find f l2
                      end.
Proof.
  induction l1 as [| a l1 IH]; simpl; [reflexivity |].
  destruct (f a); [reflexivity | exact IH].
Qed.

Lemma find_absent {A : Type} (f : A -> bool) (l : list A) :
  (forall a, In a l -> f a = false) -> find f l = None.
Proof.
  induction l as [| a l IH]; simpl; intros Hf; [reflexivity |].
  rewrite (Hf a) by auto. apply IH. auto.
Qed.

(** X17: creation and lookup.  For a configuration of one of the three
    known classes whose id no executor of the handler carries, the handler
    after [create_executor] resolves that id to the new executor, a fresh
    object, and resolves every other id as before. *)
Theorem create_then_lookup `{GenericExecutor.ExecutorRuntime}
        (self : GenericExecutor.GenericExecutor)
        (executor_config : GenericExecutor.ExecutorConfig) :
  GenericExecutor.config_class executor_config <> GenericExecutor.OtherConfig ->
  (forall e, In e (GenericExecutor.all_executors self) ->
             GenericExecutor.id (GenericExecutor.config e)
             <> GenericExecutor.id executor_config) ->
  GenericExecutor.get_executor_by_id
    (GenericExecutor.create_executor self executor_config)
    (GenericExecutor.id executor_config)
  = Some (GenericExecutor.new_executor self executor_config) /\
  GenericExecutor.oid (GenericExecutor.new_executor self executor_config)
  = GenericExecutor.next_oid self /\
  forall other,
    other <> GenericExecutor.id executor_config ->
    GenericExecutor.get_executor_by_id
      (GenericExecutor.create_executor self executor_config) other
    = GenericExecutor.get_executor_by_id self other.
Proof.
  intros Hclass Hfresh.
  unfold GenericExecutor.all_executors in Hfresh.
  assert (Hnone : forall l,
             (forall e, In e l -> In e (GenericExecutor.position_executors self
                                          ++ GenericExecutor.dca_executors self
                                          ++ GenericExecutor.arbitrage_executors self)) ->
             find (fun executor =>
                     String.eqb (GenericExecutor.id (GenericExecutor.config executor))
                                (GenericExecutor.id executor_config)) l = None).
  { intros l Hincl. apply find_absent. intros e He.
    apply String.eqb_neq. auto. }
  assert (Hp := Hnone (GenericExecutor.position_executors self)
                      (fun e He => in_or_app _ _ _ (or_introl He))).
  assert (Hd := Hnone (GenericExecutor.dca_executors self)
                      (fun e He => in_or_app _ _ _
                                     (or_intror (in_or_app _ _ _ (or_introl He))))).
  assert (Ha := Hnone (GenericExecutor.arbitrage_executors self)
                      (fun e He => in_or_app _ _ _
                                     (or_intror (in_or_app _ _ _ (or_intror He))))).
  split; [| split; [reflexivity |]].
  - unfold GenericExecutor.get_executor_by_id, GenericExecutor.create_executor.
    destruct (GenericExecutor.config_class executor_config);
      try (now elim Hclass);
      cbn [GenericExecutor.position_executors GenericExecutor.dca_executors
           GenericExecutor.arbitrage_executors];
      rewrite !find_app, ?Hp, ?Hd, ?Ha; simpl; now rewrite String.eqb_refl.
  - intros other Hother.
    unfold GenericExecutor.get_executor_by_id, GenericExecutor.create_executor.
    assert (Hnew : String.eqb (GenericExecutor.id executor_config) other = false).
    { apply String.eqb_neq. auto. }
    destruct (GenericExecutor.config_class executor_config);
      try (now elim Hclass);
      cbn [GenericExecutor.position_executors GenericExecutor.dca_executors
           GenericExecutor.arbitrage_executors];
      rewrite !find_app; simpl; rewrite Hnew;
      repeat (destruct (find _ _); try reflexivity).
Qed.

Lemma create_then_lookup_witness :
  let cfg := {| GenericExecutor.id := "d-3";
                GenericExecutor.config_class := GenericExecutor.DCAExecutorConfig |} in
  @GenericExecutor.get_executor_by_id
    (@GenericExecutor.create_executor Scenario.runtime Scenario.handler cfg) "d-3"
  = Some (@GenericExecutor.new_executor Scenario.runtime Scenario.handler cfg) /\
  GenericExecutor.oid (@GenericExecutor.new_executor Scenario.runtime Scenario.handler cfg)
  = 4%nat /\
  forall other,
    other <> "d-3"%string ->
    GenericExecutor.get_executor_by_id
      (@GenericExecutor.create_executor Scenario.runtime Scenario.handler cfg) other
    = GenericExecutor.get_executor_by_id Scenario.handler other.
Proof.
  cbn zeta.
  apply (@create_then_lookup Scenario.runtime Scenario.handler
           {| GenericExecutor.id := "d-3";
              GenericExecutor.config_class := GenericExecutor.DCAExecutorConfig |}).
  - discriminate.
  - intros e [<- | [<- | [<- | [<- | []]]]]; discriminate.
Defined.

Lemma update_object_shape `{GenericExecutor.ExecutorRuntime} (o : nat)
      (l : list GenericExecutor.Executor) :
  map (fun e => (GenericExecutor.oid e, GenericExecutor.config e))
      (GenericExecutor.update_object o GenericExecutor.early_stop l)
  = map (fun e => (GenericExecutor.oid e, GenericExecutor.config e)) l.
Proof.
  unfold GenericExecutor.update_object. rewrite map_map.
  apply map_ext. intros e. destruct (Nat.eqb _ _); reflexivity.
Qed.

Lemma update_object_others `{GenericExecutor.ExecutorRuntime} (o : nat)
      (l : list GenericExecutor.Executor) :
  filter (fun e => negb (Nat.eqb (GenericExecutor.oid e) o))
         (GenericExecutor.update_object o GenericExecutor.early_stop l)
  = filter (fun e => negb (Nat.eqb (GenericExecutor.oid e) o)) l.
Proof.
  unfold GenericExecutor.update_object.
  induction l as [| e l IH]; simpl; [reflexivity |].
  destruct (Nat.eqb (GenericExecutor.oid e) o) eqn:Heq; simpl; rewrite Heq; simpl;
    now rewrite IH.
Qed.

(** X18: a [Stop] action raises nothing, stores nothing and neither adds,
    removes nor reorders executors: every list keeps its objects and their
    configurations, and every executor other than the target is left as it
    was.  When the target is unknown or not active the handler is
    unchanged. *)
Theorem stop_keeps_registry `{GenericExecutor.ExecutorRuntime}
        (self : GenericExecutor.GenericExecutor) (executor_id : string) :
  let result :=
    GenericExecutor.execute_action self (GenericExecutor.StopExecutorAction executor_id) in
  let shape := map (fun e => (GenericExecutor.oid e, GenericExecutor.config e)) in
  snd result = None /\
  GenericExecutor.stored (fst result) = GenericExecutor.stored self /\
  GenericExecutor.next_oid (fst result) = GenericExecutor.next_oid self /\
  shape (GenericExecutor.position_executors (fst result))
  = shape (GenericExecutor.position_executors self) /\
  shape (GenericExecutor.dca_executors (fst result))
  = shape (GenericExecutor.dca_executors self) /\
  shape (GenericExecutor.arbitrage_executors (fst result))
  = shape (GenericExecutor.arbitrage_executors self) /\
  (forall target,
      GenericExecutor.get_executor_by_id self executor_id = Some target ->
      let others := filter (fun e => negb (Nat.eqb (GenericExecutor.oid e)
                                                   (GenericExecutor.oid target))) in
      others (GenericExecutor.all_executors (fst result))
      = others (GenericExecutor.all_executors self)) /\
  ((forall target,
       GenericExecutor.get_executor_by_id self executor_id = Some target ->
       GenericExecutor.is_active target = false) ->
   fst result = self).
Proof.
  cbn zeta. unfold GenericExecutor.execute_action.
  destruct (GenericExecutor.get_executor_by_id self executor_id) as [target |] eqn:Hget.
  - destruct (GenericExecutor.is_active target) eqn:Hactive;
      cbn [fst snd GenericExecutor.stored GenericExecutor.next_oid
           GenericExecutor.position_executors GenericExecutor.dca_executors
           GenericExecutor.arbitrage_executors].
    + rewrite !update_object_shape.
      do 6 (split; [reflexivity |]). split.
      * intros target' Htarget. injection Htarget as <-.
        unfold GenericExecutor.all_executors.
        cbn [GenericExecutor.position_executors GenericExecutor.dca_executors
             GenericExecutor.arbitrage_executors].
        rewrite !filter_app, !update_object_others. reflexivity.
      * intros Hinactive. specialize (Hinactive target eq_refl). congruence.
    + do 6 (split; [reflexivity |]). split; reflexivity.
  - cbn [fst snd]. do 6 (split; [reflexivity |]). split; reflexivity.
Qed.

Lemma stop_keeps_registry_witness :
  let result :=
    @GenericExecutor.execute_action Scenario.runtime Scenario.handler
      (GenericExecutor.StopExecutorAction "p-1") in
  snd result = None /\ fst result = Scenario.handler.
Proof.
  cbn zeta.
  destruct (@stop_keeps_registry Scenario.runtime Scenario.handler "p-1")
    as (Hexn & _ & _ & _ & _ & _ & _ & Hnoop).
  split; [exact Hexn |].
  apply Hnoop. intros target Htarget. vm_compute in Htarget.
  injection Htarget as <-. reflexivity.
Defined.

(** X19: the report of the handler lists every executor exactly once:
    for each of the three kinds, the active and the closed executors of the
    report are together a rearrangement of the handler's list. *)
Theorem report_partitions_executors (self : GenericExecutor.GenericExecutor) :
  let report := GenericExecutor.get_executor_handler_report self in
  Permutation (GenericExecutor.active_position_executors report
               ++ GenericExecutor.closed_position_executors report)
              (GenericExecutor.position_executors self) /\
  Permutation (GenericExecutor.active_dca_executors report
               ++ GenericExecutor.closed_dca_executors report)
              (GenericExecutor.dca_executors self) /\
  Permutation (GenericExecutor.active_arbitrage_executors report
               ++ GenericExecutor.closed_arbitrage_executors report)
              (GenericExecutor.arbitrage_executors self) /\
  Forall (fun e => GenericExecutor.is_closed e = false)
         (GenericExecutor.active_position_executors report
          ++ GenericExecutor.active_dca_executors report
          ++ GenericExecutor.active_arbitrage_executors report) /\
  Forall (fun e => GenericExecutor.is_closed e = true)
         (GenericExecutor.closed_position_executors report
          ++ GenericExecutor.closed_dca_executors report
          ++ GenericExecutor.closed_arbitrage_executors report).
Proof.
  assert (Hsplit : forall l : list GenericExecutor.Executor,
             Permutation
               (filter (fun e => negb (GenericExecutor.is_closed e)) l
                ++ filter (fun e => GenericExecutor.is_closed e) l) l).
  { induction l as [| e l IH]; simpl; [constructor |].
    destruct (GenericExecutor.is_closed e); simpl.
    - apply Permutation_sym, Permutation_cons_app, Permutation_sym, IH.
    - now constructor. }
  assert (Hopen : forall l : list GenericExecutor.Executor,
             Forall (fun e => GenericExecutor.is_closed e = false)
                    (filter (fun e => negb (GenericExecutor.is_closed e)) l)).
  { intros l. apply Forall_forall. intros e He.
    apply filter_In in He as [_ He]. now apply negb_true_iff. }
  assert (Hclosed : forall l : list GenericExecutor.Executor,
             Forall (fun e => GenericExecutor.is_closed e = true)
                    (filter (fun e => GenericExecutor.is_closed e) l)).
  { intros l. apply Forall_forall. intros e He.
    now apply filter_In in He as [_ He]. }
  cbn zeta. unfold GenericExecutor.get_executor_handler_report.
  cbn [GenericExecutor.active_position_executors GenericExecutor.closed_position_executors
       GenericExecutor.active_dca_executors GenericExecutor.closed_dca_executors
       GenericExecutor.active_arbitrage_executors
       GenericExecutor.closed_arbitrage_executors].
  split; [apply Hsplit |]. split; [apply Hsplit |]. split; [apply Hsplit |].
  split; repeat (apply Forall_app; split); (apply Hopen || apply Hclosed).
Qed.

Lemma list_remove_split (o : nat) (l r : list GenericExecutor.Executor) :
  GenericExecutor.list_remove o l = Some r ->
  exists l1 e l2,
    l = l1 ++ e :: l2 /\ r = l1 ++ l2 /\ GenericExecutor.oid e = o.
Proof.
  revert r. induction l as [| d l IH]; simpl; intros r Hrem; [discriminate |].
  destruct (Nat.eqb_spec (GenericExecutor.oid d) o) as [Heq | Hne].
  - injection Hrem as <-. exists [], d, l. auto.
  - destruct (GenericExecutor.list_remove o l) as [r' |]; [| discriminate].
    injection Hrem as <-.
    destruct (IH r' eq_refl) as (l1 & e & l2 & -> & -> & Hoid).
    exists (d :: l1), e, l2. auto.
Qed.

Lemma create_executor_all `{GenericExecutor.ExecutorRuntime}
      (self : GenericExecutor.GenericExecutor)
      (executor_config : GenericExecutor.ExecutorConfig) :
  GenericExecutor.config_class executor_config <> GenericExecutor.OtherConfig ->
  Permutation
    (GenericExecutor.new_executor self executor_config :: GenericExecutor.all_executors self)
    (GenericExecutor.all_executors (GenericExecutor.create_executor self executor_config)) /\
  GenericExecutor.next_oid (GenericExecutor.create_executor self executor_config)
  = S (GenericExecutor.next_oid self).
Proof.
  intros Hclass.
  unfold GenericExecutor.all_executors, GenericExecutor.create_executor.
  destruct (GenericExecutor.config_class executor_config); try (now elim Hclass);
    cbn [GenericExecutor.position_executors GenericExecutor.dca_executors
         GenericExecutor.arbitrage_executors GenericExecutor.next_oid];
    (split; [| reflexivity]).
  - rewrite <- app_assoc. simpl. apply Permutation_middle.
  - rewrite <- !app_assoc. simpl. rewrite !app_assoc. apply Permutation_middle.
  - rewrite !app_assoc. apply Permutation_cons_append.
Qed.

Lemma unique_objects_alt (self : GenericExecutor.GenericExecutor) :
  GenericExecutor.unique_objects self <->
  NoDup (map GenericExecutor.oid (GenericExecutor.all_executors self)) /\
  Forall (fun o => (o < GenericExecutor.next_oid self)%nat)
         (map GenericExecutor.oid (GenericExecutor.all_executors self)).
Proof.
  unfold GenericExecutor.unique_objects. now rewrite Forall_map.
Qed.

Lemma execute_action_unique_objects `{GenericExecutor.ExecutorRuntime}
      (self : GenericExecutor.GenericExecutor) (action : GenericExecutor.ExecutorAction) :
  GenericExecutor.unique_objects self ->
  GenericExecutor.unique_objects (fst (GenericExecutor.execute_action self action)).
Proof.
  intros Hwf. destruct action as [cfg | executor_id | executor_id |]; simpl.
  - destruct (GenericExecutor.config_class cfg) eqn:Hclass;
      try (destruct (create_executor_all self cfg) as [Hperm Hnext];
           [rewrite Hclass; discriminate |];
           apply unique_objects_alt in Hwf as [Hnd Hlt];
           apply unique_objects_alt; rewrite Hnext; split;
           [ eapply Permutation_NoDup; [apply Permutation_map, Hperm |];
             simpl; constructor; [| assumption];
             intros Hin; rewrite Forall_forall in Hlt;
             specialize (Hlt _ Hin); lia
           | eapply Permutation_Forall; [apply Permutation_map, Hperm |];
             simpl; constructor; [lia |];
             eapply Forall_impl; [| exact Hlt]; simpl; intros; lia ]).
    unfold GenericExecutor.create_executor. rewrite Hclass. exact Hwf.
  - destruct (GenericExecutor.get_executor_by_id self executor_id) as [target |];
      [| exact Hwf].
    destruct (GenericExecutor.is_active target); [| exact Hwf]. simpl.
    apply unique_objects_alt in Hwf. apply unique_objects_alt.
    unfold GenericExecutor.all_executors in *.
    cbn [GenericExecutor.position_executors GenericExecutor.dca_executors
         GenericExecutor.arbitrage_executors GenericExecutor.next_oid].
    assert (Hoids : forall l,
               map GenericExecutor.oid
                   (GenericExecutor.update_object (GenericExecutor.oid target)
                      GenericExecutor.early_stop l)
               = map GenericExecutor.oid l).
    { intros l. unfold GenericExecutor.update_object. rewrite map_map.
      apply map_ext. intros e. destruct (Nat.eqb _ _); reflexivity. }
    rewrite !map_app, !Hoids, <- !map_app. exact Hwf.
  - destruct (GenericExecutor.get_executor_by_id self executor_id) as [target |];
      [| exact Hwf].
    destruct (GenericExecutor.is_closed target); [| exact Hwf].
    destruct (GenericExecutor.list_remove (GenericExecutor.oid target)
                (GenericExecutor.dca_executors self)) as [remaining |] eqn:Hrem;
      [| exact Hwf].
    simpl. destruct (list_remove_split _ _ _ Hrem) as (l1 & e & l2 & Hdca & -> & _).
    apply unique_objects_alt in Hwf as [Hnd Hlt]. apply unique_objects_alt.
    unfold GenericExecutor.all_executors in *.
    cbn [GenericExecutor.position_executors GenericExecutor.dca_executors
         GenericExecutor.arbitrage_executors GenericExecutor.next_oid].
    rewrite Hdca in Hnd, Hlt.
    assert (Hperm : Permutation
                      (e :: GenericExecutor.position_executors self
                         ++ (l1 ++ l2) ++ GenericExecutor.arbitrage_executors self)
                      (GenericExecutor.position_executors self
                         ++ (l1 ++ e :: l2) ++ GenericExecutor.arbitrage_executors self)).
    { rewrite <- !app_assoc. simpl.
      rewrite (app_assoc (GenericExecutor.position_executors self) l1 (l2 ++ _)).
      rewrite (app_assoc (GenericExecutor.position_executors self) l1 (e :: _)).
      apply Permutation_middle. }
    apply Permutation_sym in Hperm.
    pose proof (Permutation_NoDup (Permutation_map GenericExecutor.oid Hperm) Hnd) as Hnd'.
    pose proof (Permutation_Forall (Permutation_map GenericExecutor.oid Hperm) Hlt) as Hlt'.
    simpl in Hnd', Hlt'. inversion Hnd'; inversion Hlt'; subst. auto.
  - exact Hwf.
Qed.

(** X20: unique object identities are an invariant of the apply phase.  If
    every executor object sits in the handler's lists once and identities
    were handed out below [next_oid], the same holds after any batch of
    actions, whether the batch completes or raises. *)
Theorem execute_actions_keeps_objects_unique `{GenericExecutor.ExecutorRuntime}
        (self : GenericExecutor.GenericExecutor)
        (actions : list GenericExecutor.ExecutorAction) :
  GenericExecutor.unique_objects self ->
  GenericExecutor.unique_objects (fst (GenericExecutor.execute_actions self actions)).
Proof.
  revert self. induction actions as [| action actions IH]; intros self Hwf; simpl.
  - exact Hwf.
  - pose proof (execute_action_unique_objects self action Hwf) as Hstep.
    destruct (GenericExecutor.execute_action self action) as [self' [e |]].
    + exact Hstep.
    + apply IH. exact Hstep.
Qed.

Lemma scenario_handler_unique : GenericExecutor.unique_objects Scenario.handler.
Proof.
  split.
  - simpl. repeat constructor; simpl; intuition discriminate.
  - simpl. repeat constructor.
Qed.

Lemma execute_actions_keeps_objects_unique_witness :
  GenericExecutor.unique_objects
    (fst (@GenericExecutor.execute_actions Scenario.runtime Scenario.handler
            [GenericExecutor.CreateExecutorAction
               {| GenericExecutor.id := "d-3";
                  GenericExecutor.config_class := GenericExecutor.DCAExecutorConfig |};
             GenericExecutor.StopExecutorAction "p-2";
             GenericExecutor.StoreExecutorAction "d-1"])).
Proof.
  apply (@execute_actions_keeps_objects_unique Scenario.runtime Scenario.handler).
  exact scenario_handler_unique.
Defined.

Lemma NoDup_map_inj {A B : Type} (f : A -> B) (l : list A) (x y : A) :
  NoDup (map f l) -> In x l -> In y l -> f x = f y -> x = y.
Proof.
  induction l as [| a l IH]; simpl; intros Hnd Hx Hy Heq; [contradiction |].
  inversion Hnd as [| ? ? Hnotin Hnd']; subst.
  destruct Hx as [-> | Hx]; destruct Hy as [-> | Hy]; auto.
  - elim Hnotin. rewrite Heq. now apply in_map.
  - elim Hnotin. rewrite <- Heq. now apply in_map.
Qed.

Lemma list_remove_present (e : GenericExecutor.Executor)
      (l : list GenericExecutor.Executor) :
  In e l -> exists r, GenericExecutor.list_remove (GenericExecutor.oid e) l = Some r.
Proof.
  induction l as [| d l IH]; simpl; intros Hin; [contradiction |].
  destruct (Nat.eqb (GenericExecutor.oid d) (GenericExecutor.oid e)) eqn:Heq; [eauto |].
  destruct Hin as [-> | Hin]; [rewrite Nat.eqb_refl in Heq; discriminate |].
  destruct (IH Hin) as (r & ->). eauto.
Qed.

(** X21: storing a closed DCA executor.  In a handler with unique objects
    and unique configuration ids, a [Store] action on a closed executor of
    the DCA list hands it to the recorder, takes exactly that executor out
    of the DCA list, and leaves a handler in which the id resolves to
    nothing, so that a second [Store] of the same id does nothing. *)
Theorem store_closed_dca_executor `{GenericExecutor.ExecutorRuntime}
        (self : GenericExecutor.GenericExecutor) (executor_id : string)
        (e : GenericExecutor.Executor) :
  GenericExecutor.unique_objects self ->
  GenericExecutor.unique_ids self ->
  GenericExecutor.get_executor_by_id self executor_id = Some e ->
  GenericExecutor.is_closed e = true ->
  In e (GenericExecutor.dca_executors self) ->
  let result :=
    GenericExecutor.execute_action self (GenericExecutor.StoreExecutorAction executor_id) in
  snd result = None /\
  GenericExecutor.stored (fst result) = GenericExecutor.stored self ++ [e] /\
  Permutation (GenericExecutor.dca_executors self)
              (e :: GenericExecutor.dca_executors (fst result)) /\
  GenericExecutor.get_executor_by_id (fst result) executor_id = None /\
  GenericExecutor.execute_action (fst result)
    (GenericExecutor.StoreExecutorAction executor_id) = (fst result, None).
Proof.
  intros [Hobjects _] Hids Hget Hclosed Hin. cbn zeta.
  destruct (list_remove_present e _ Hin) as (remaining & Hrem).
  destruct (list_remove_split _ _ _ Hrem) as (l1 & e' & l2 & Hdca & -> & Hoid).
  assert (He' : e' = e).
  { apply (NoDup_map_inj GenericExecutor.oid (GenericExecutor.all_executors self));
      try assumption; unfold GenericExecutor.all_executors;
      apply in_or_app; right; apply in_or_app; left; [| assumption].
    rewrite Hdca. apply in_or_app. right. now left. }
  subst e'.
  assert (Hstep : GenericExecutor.execute_action self
                    (GenericExecutor.StoreExecutorAction executor_id)
                  = ({| GenericExecutor.position_executors :=
                          GenericExecutor.position_executors self;
                        GenericExecutor.dca_executors := l1 ++ l2;
                        GenericExecutor.arbitrage_executors :=
                          GenericExecutor.arbitrage_executors self;
                        GenericExecutor.stored := GenericExecutor.stored self ++ [e];
                        GenericExecutor.next_oid := GenericExecutor.next_oid self |},
                     None)).
  { unfold GenericExecutor.execute_action. now rewrite Hget, Hclosed, Hrem. }
  rewrite Hstep. cbn [fst snd GenericExecutor.stored GenericExecutor.dca_executors].
  assert (Hgone : GenericExecutor.get_executor_by_id
                    {| GenericExecutor.position_executors :=
                         GenericExecutor.position_executors self;
                       GenericExecutor.dca_executors := l1 ++ l2;
                       GenericExecutor.arbitrage_executors :=
                         GenericExecutor.arbitrage_executors self;
                       GenericExecutor.stored := GenericExecutor.stored self ++ [e];
                       GenericExecutor.next_oid := GenericExecutor.next_oid self |}
                    executor_id = None).
  { unfold GenericExecutor.get_executor_by_id.
    cbn [GenericExecutor.position_executors GenericExecutor.dca_executors
         GenericExecutor.arbitrage_executors].
    apply find_absent. intros x Hx.
    destruct (String.eqb_spec (GenericExecutor.id (GenericExecutor.config x)) executor_id)
      as [Hid | _]; [| reflexivity].
    exfalso.
    unfold GenericExecutor.get_executor_by_id in Hget.
    apply find_some in Hget as [_ He_id]. apply String.eqb_eq in He_id.
    unfold GenericExecutor.unique_ids, GenericExecutor.all_executors in Hids.
    rewrite Hdca in Hids.
    assert (Hperm : Permutation
                      (GenericExecutor.position_executors self
                         ++ (l1 ++ e :: l2) ++ GenericExecutor.arbitrage_executors self)
                      (e :: GenericExecutor.position_executors self
                         ++ (l1 ++ l2) ++ GenericExecutor.arbitrage_executors self)).
    { apply Permutation_sym. rewrite <- !app_assoc. simpl.
      rewrite (app_assoc (GenericExecutor.position_executors self) l1 (l2 ++ _)).
      rewrite (app_assoc (GenericExecutor.position_executors self) l1 (e :: _)).
      apply Permutation_middle. }
    pose proof (Permutation_NoDup
                  (Permutation_map (fun e0 => GenericExecutor.id (GenericExecutor.config e0))
                                   Hperm) Hids) as Hnd.
    simpl in Hnd. apply NoDup_cons_iff in Hnd as [Hnotin _].
    apply Hnotin. rewrite He_id, <- Hid.
    exact (in_map (fun e0 => GenericExecutor.id (GenericExecutor.config e0)) _ _ Hx). }
  repeat split.
  - rewrite Hdca. apply Permutation_sym, Permutation_middle.
  - exact Hgone.
  - unfold GenericExecutor.execute_action. now rewrite Hgone.
Qed.

Lemma scenario_handler_unique_ids : GenericExecutor.unique_ids Scenario.handler.
Proof.
  unfold GenericExecutor.unique_ids. simpl.
  repeat constructor; simpl; intuition discriminate.
Qed.

Lemma store_closed_dca_executor_witness :
  let d1 := Scenario.executor 2 "d-1" GenericExecutor.DCAExecutorConfig false true in
  let result :=
    @GenericExecutor.execute_action Scenario.runtime Scenario.handler
      (GenericExecutor.StoreExecutorAction "d-1") in
  snd result = None /\
  GenericExecutor.stored (fst result) = GenericExecutor.stored Scenario.handler ++ [d1] /\
  Permutation (GenericExecutor.dca_executors Scenario.handler)
              (d1 :: GenericExecutor.dca_executors (fst result)) /\
  GenericExecutor.get_executor_by_id (fst result) "d-1" = None /\
  @GenericExecutor.execute_action Scenario.runtime (fst result)
    (GenericExecutor.StoreExecutorAction "d-1") = (fst result, None).
Proof.
  cbn zeta.
  apply (@store_closed_dca_executor Scenario.runtime Scenario.handler "d-1"
           (Scenario.executor 2 "d-1" GenericExecutor.DCAExecutorConfig false true)).
  - exact scenario_handler_unique.
  - exact scenario_handler_unique_ids.
  - reflexivity.
  - reflexivity.
  - simpl. auto.
Defined.

(** X22: storing a closed executor that is not in the DCA list (a position
    or arbitrage executor) hands it to the recorder, raises [ValueError] and
    ends the batch, the later actions are not applied; the executor stays
    resolvable by its id, so that the next [Store] of that id records it
    once more and raises again. *)
Theorem store_outside_dca_list_repeats `{GenericExecutor.ExecutorRuntime}
        (self : GenericExecutor.GenericExecutor) (executor_id : string)
        (e : GenericExecutor.Executor) (rest : list GenericExecutor.ExecutorAction) :
  GenericExecutor.get_executor_by_id self executor_id = Some e ->
  GenericExecutor.is_closed e = true ->
  (forall d, In d (GenericExecutor.dca_executors self) ->
             GenericExecutor.oid d <> GenericExecutor.oid e) ->
  let recorded (n : list GenericExecutor.Executor) :=
    {| GenericExecutor.position_executors := GenericExecutor.position_executors self;
       GenericExecutor.dca_executors := GenericExecutor.dca_executors self;
       GenericExecutor.arbitrage_executors := GenericExecutor.arbitrage_executors self;
       GenericExecutor.stored := GenericExecutor.stored self ++ n;
       GenericExecutor.next_oid := GenericExecutor.next_oid self |} in
  GenericExecutor.execute_actions self
    (GenericExecutor.StoreExecutorAction executor_id :: rest)
  = (recorded [e], Some ValueError) /\
  GenericExecutor.get_executor_by_id (recorded [e]) executor_id = Some e /\
  GenericExecutor.execute_actions (recorded [e])
    (GenericExecutor.StoreExecutorAction executor_id :: rest)
  = (recorded [e; e], Some ValueError).
Proof.
  intros Hget Hclosed Habsent. cbn zeta.
  pose proof (list_remove_absent _ _ Habsent) as Hrem.
  split; [| split].
  - cbn [GenericExecutor.execute_actions]. unfold GenericExecutor.execute_action.
    now rewrite Hget, Hclosed, Hrem.
  - exact Hget.
  - cbn [GenericExecutor.execute_actions]. unfold GenericExecutor.execute_action.
    change (GenericExecutor.get_executor_by_id _ executor_id)
      with (GenericExecutor.get_executor_by_id self executor_id).
    rewrite Hget, Hclosed.
    cbn [GenericExecutor.dca_executors GenericExecutor.stored
         GenericExecutor.position_executors GenericExecutor.arbitrage_executors
         GenericExecutor.next_oid].
    rewrite Hrem, <- app_assoc. reflexivity.
Qed.

Lemma store_outside_dca_list_witness :
  let p1 := Scenario.executor 0 "p-1" GenericExecutor.PositionExecutorConfig false true in
  let recorded (n : list GenericExecutor.Executor) :=
    {| GenericExecutor.position_executors :=
         GenericExecutor.position_executors Scenario.handler;
       GenericExecutor.dca_executors := GenericExecutor.dca_executors Scenario.handler;
       GenericExecutor.arbitrage_executors :=
         GenericExecutor.arbitrage_executors Scenario.handler;
       GenericExecutor.stored := GenericExecutor.stored Scenario.handler ++ n;
       GenericExecutor.next_oid := GenericExecutor.next_oid Scenario.handler |} in
  @GenericExecutor.execute_actions Scenario.runtime Scenario.handler
    (GenericExecutor.StoreExecutorAction "p-1"
     :: [GenericExecutor.StoreExecutorAction "d-1"])
  = (recorded [p1], Some ValueError) /\
  GenericExecutor.get_executor_by_id (recorded [p1]) "p-1" = Some p1 /\
  @GenericExecutor.execute_actions Scenario.runtime (recorded [p1])
    (GenericExecutor.StoreExecutorAction "p-1"
     :: [GenericExecutor.StoreExecutorAction "d-1"])
  = (recorded [p1; p1], Some ValueError).
Proof.
  cbn zeta.
  apply (@store_outside_dca_list_repeats Scenario.runtime Scenario.handler "p-1"
           (Scenario.executor 0 "p-1" GenericExecutor.PositionExecutorConfig false true)
           [GenericExecutor.StoreExecutorAction "d-1"]).
  - reflexivity.
  - reflexivity.
  - intros d [<- | [<- | []]]; simpl; discriminate.
Defined.

Lemma fold_early_stop_object `{GenericExecutor.ExecutorRuntime} (os : list nat)
      (self : GenericExecutor.GenericExecutor) :
  NoDup os ->
  let stop_listed e :=
    if existsb (Nat.eqb (GenericExecutor.oid e)) os then GenericExecutor.early_stop e else e in
  fold_left GenericExecutor.early_stop_object os self
  = {| GenericExecutor.position_executors :=
         map stop_listed (GenericExecutor.position_executors self);
       GenericExecutor.dca_executors := map stop_listed (GenericExecutor.dca_executors self);
       GenericExecutor.arbitrage_executors :=
         map stop_listed (GenericExecutor.arbitrage_executors self);
       GenericExecutor.stored := GenericExecutor.stored self;
       GenericExecutor.next_oid := GenericExecutor.next_oid self |}.
Proof.
  cbn zeta. revert self. induction os as [| o os IH]; intros self Hnd.
  - simpl. rewrite !map_id. now destruct self.
  - inversion Hnd as [| ? ? Hnotin Hnd']; subst.
    cbn [fold_left]. rewrite IH by assumption.
    unfold GenericExecutor.early_stop_object, GenericExecutor.update_object.
    cbn [GenericExecutor.position_executors GenericExecutor.dca_executors
         GenericExecutor.arbitrage_executors GenericExecutor.stored
         GenericExecutor.next_oid].
    rewrite !map_map.
    assert (Hstep : forall e,
               (if existsb (Nat.eqb (GenericExecutor.oid
                                       (if Nat.eqb (GenericExecutor.oid e) o
                                        then GenericExecutor.early_stop e else e))) os
                then GenericExecutor.early_stop
                       (if Nat.eqb (GenericExecutor.oid e) o
                        then GenericExecutor.early_stop e else e)
                else if Nat.eqb (GenericExecutor.oid e) o
                     then GenericExecutor.early_stop e else e)
               = if existsb (Nat.eqb (GenericExecutor.oid e)) (o :: os)
                 then GenericExecutor.early_stop e else e).
    { intros e. cbn [existsb].
      destruct (Nat.eqb_spec (GenericExecutor.oid e) o) as [Heq | Hne]; simpl.
      - destruct (existsb (Nat.eqb (GenericExecutor.oid e)) os) eqn:Hex; [| reflexivity].
        exfalso. apply existsb_exists in Hex as (o' & Ho' & Heq').
        apply Nat.eqb_eq in Heq'. apply Hnotin. congruence.
      - reflexivity. }
    f_equal; apply map_ext; exact Hstep.
Qed.

(** X23: in a handler with unique objects, [stop_all_executors] calls
    [early_stop] once on every executor of every list and changes nothing
    else: each list is the old one with [early_stop] applied to each
    executor, nothing is stored and no executor is added or removed. *)
Theorem stop_all_stops_each_once `{GenericExecutor.ExecutorRuntime}
        (self : GenericExecutor.GenericExecutor) :
  GenericExecutor.unique_objects self ->
  GenericExecutor.stop_all_executors self
  = {| GenericExecutor.position_executors :=
         map GenericExecutor.early_stop (GenericExecutor.position_executors self);
       GenericExecutor.dca_executors :=
         map GenericExecutor.early_stop (GenericExecutor.dca_executors self);
       GenericExecutor.arbitrage_executors :=
         map GenericExecutor.early_stop (GenericExecutor.arbitrage_executors self);
       GenericExecutor.stored := GenericExecutor.stored self;
       GenericExecutor.next_oid := GenericExecutor.next_oid self |}.
Proof.
  intros [Hnd _]. unfold GenericExecutor.stop_all_executors.
  pose proof (fold_early_stop_object _ self Hnd) as Hfold. cbn zeta in Hfold.
  unfold GenericExecutor.all_executors in Hfold. rewrite Hfold.
  assert (Hlisted : forall l,
             (forall e, In e l ->
                        In e (GenericExecutor.position_executors self
                              ++ GenericExecutor.dca_executors self
                              ++ GenericExecutor.arbitrage_executors self)) ->
             map (fun e =>
                    if existsb (Nat.eqb (GenericExecutor.oid e))
                               (map GenericExecutor.oid
                                    (GenericExecutor.position_executors self
                                     ++ GenericExecutor.dca_executors self
                                     ++ GenericExecutor.arbitrage_executors self))
                    then GenericExecutor.early_stop e else e) l
             = map GenericExecutor.early_stop l).
  { intros l Hincl. apply map_ext_in. intros e He.
    destruct (existsb _ _) eqn:Hex; [reflexivity |].
    exfalso. apply Bool.not_true_iff_false in Hex. apply Hex.
    apply existsb_exists. exists (GenericExecutor.oid e).
    split; [apply in_map; auto | apply Nat.eqb_refl]. }
  f_equal; apply Hlisted; intros e He.
  - apply in_or_app. now left.
  - apply in_or_app. right. apply in_or_app. now left.
  - apply in_or_app. right. apply in_or_app. now right.
Qed.

Lemma stop_all_witness :
  @GenericExecutor.stop_all_executors Scenario.runtime Scenario.handler
  = {| GenericExecutor.position_executors :=
         map (@GenericExecutor.early_stop Scenario.runtime)
             (GenericExecutor.position_executors Scenario.handler);
       GenericExecutor.dca_executors :=
         map (@GenericExecutor.early_stop Scenario.runtime)
             (GenericExecutor.dca_executors Scenario.handler);
       GenericExecutor.arbitrage_executors :=
         map (@GenericExecutor.early_stop Scenario.runtime)
             (GenericExecutor.arbitrage_executors Scenario.handler);
       GenericExecutor.stored := GenericExecutor.stored Scenario.handler;
       GenericExecutor.next_oid := GenericExecutor.next_oid Scenario.handler |}.
Proof.
  apply (@stop_all_stops_each_once Scenario.runtime Scenario.handler).
  exact scenario_handler_unique.
Defined.

(** ** The market-making strategy base *)

Lemma dict_get_set {V : Type} (d : MarketMakingStrategyBase.dict V) (k k' : string) (v : V) :
  MarketMakingStrategyBase.dict_get (MarketMakingStrategyBase.dict_set d k v) k'
  = if String.eqb k k' then Some v else MarketMakingStrategyBase.dict_get d k'.
Proof.
  unfold MarketMakingStrategyBase.dict_get.
  induction d as [| [k0 v0] d IH]; simpl.
  - destruct (String.eqb k k'); reflexivity.
  - destruct (String.eqb_spec k0 k) as [-> | Hne]; simpl.
    + destruct (String.eqb k k'); reflexivity.
    + destruct (String.eqb_spec k0 k') as [-> | Hne'].
      * apply not_eq_sym, String.eqb_neq in Hne. now rewrite Hne.
      * exact IH.
Qed.

Lemma dict_set_same {V : Type} (d : MarketMakingStrategyBase.dict V) (k : string) (v : V) :
  MarketMakingStrategyBase.dict_get d k = Some v ->
  MarketMakingStrategyBase.dict_set d k v = d.
Proof.
  unfold MarketMakingStrategyBase.dict_get.
  induction d as [| [k0 v0] d IH]; simpl; [discriminate |].
  destruct (String.eqb_spec k0 k) as [-> | Hne]; simpl.
  - intros Hv. now injection Hv as ->.
  - intros Hv. now rewrite IH.
Qed.

Lemma candles_empty_phase (cs : list MarketMakingStrategyBase.Candle)
      (d0 : MarketMakingStrategyBase.dict
              (MarketMakingStrategyBase.dict MarketMakingStrategyBase.Candle))
      (n : string) :
  MarketMakingStrategyBase.dict_get
    (fold_left (fun d candle =>
                  MarketMakingStrategyBase.dict_set d
                    (MarketMakingStrategyBase.name candle) []) cs d0) n
  = if existsb (fun c => String.eqb (MarketMakingStrategyBase.name c) n) cs
    then Some []
    else MarketMakingStrategyBase.dict_get d0 n.
Proof.
  revert d0. induction cs as [| c cs IH]; intros d0; simpl; [reflexivity |].
  rewrite IH, dict_get_set.
  destruct (String.eqb (MarketMakingStrategyBase.name c) n); simpl;
    destruct (existsb _ cs); reflexivity.
Qed.

Lemma candles_fill_phase (cs : list MarketMakingStrategyBase.Candle)
      (d : MarketMakingStrategyBase.dict
             (MarketMakingStrategyBase.dict MarketMakingStrategyBase.Candle))
      (n : string) :
  MarketMakingStrategyBase.dict_get
    (fold_left
       (fun d candle =>
          match MarketMakingStrategyBase.dict_get d (MarketMakingStrategyBase.name candle) with
          | Some by_interval =>
              MarketMakingStrategyBase.dict_set d (MarketMakingStrategyBase.name candle)
                (MarketMakingStrategyBase.dict_set by_interval
                   (MarketMakingStrategyBase.interval candle) candle)
          | None => d
          end) cs d) n
  = match MarketMakingStrategyBase.dict_get d n with
    | None => None
    | Some inner =>
        Some (fold_left
                (fun inn c =>
                   if String.eqb (MarketMakingStrategyBase.name c) n
                   then MarketMakingStrategyBase.dict_set inn
                          (MarketMakingStrategyBase.interval c) c
                   else inn) cs inner)
    end.
Proof.
  revert d. induction cs as [| c cs IH]; intros d; cbn [fold_left].
  - destruct (MarketMakingStrategyBase.dict_get d n); reflexivity.
  - rewrite IH.
    destruct (MarketMakingStrategyBase.dict_get d (MarketMakingStrategyBase.name c))
      as [by_interval |] eqn:Hname.
    + rewrite dict_get_set.
      destruct (String.eqb_spec (MarketMakingStrategyBase.name c) n) as [<- | Hne].
      * now rewrite Hname.
      * reflexivity.
    + destruct (String.eqb_spec (MarketMakingStrategyBase.name c) n) as [<- | Hne].
      * now rewrite Hname.
      * reflexivity.
Qed.

Lemma candles_inner_phase (cs : list MarketMakingStrategyBase.Candle)
      (inner : MarketMakingStrategyBase.dict MarketMakingStrategyBase.Candle)
      (n i : string) :
  MarketMakingStrategyBase.dict_get
    (fold_left
       (fun inn c =>
          if String.eqb (MarketMakingStrategyBase.name c) n
          then MarketMakingStrategyBase.dict_set inn (MarketMakingStrategyBase.interval c) c
          else inn) cs inner) i
  = match find (fun c => String.eqb (MarketMakingStrategyBase.name c) n
                         && String.eqb (MarketMakingStrategyBase.interval c) i) (rev cs) with
    | Some c => Some c
    | None => MarketMakingStrategyBase.dict_get inner i
    end.
Proof.
  revert inner. induction cs as [| c cs IH]; intros inner; cbn [fold_left rev].
  - reflexivity.
  - rewrite IH, find_app.
    destruct (find _ (rev cs)); [reflexivity |]. simpl.
    destruct (String.eqb (MarketMakingStrategyBase.name c) n); simpl; [| reflexivity].
    rewrite dict_get_set.
    destruct (String.eqb (MarketMakingStrategyBase.interval c) i); reflexivity.
Qed.

(** X24: [get_candle] returns the last candle of the strategy whose name
    is [connector_pair] and whose interval is the one asked for; it raises
    [KeyError] (here [None]) exactly when the strategy has no such candle. *)
Theorem get_candle_is_last_match (self : MarketMakingStrategyBase.MarketMakingStrategyBase)
        (connector trading_pair interval : string) :
  MarketMakingStrategyBase.get_candle self connector trading_pair interval
  = find (fun c =>
            String.eqb (MarketMakingStrategyBase.name c)
                       (MarketMakingStrategyBase.candle_name connector trading_pair)
            && String.eqb (MarketMakingStrategyBase.interval c) interval)
         (rev (MarketMakingStrategyBase.candles self)).
Proof.
  unfold MarketMakingStrategyBase.get_candle,
    MarketMakingStrategyBase.get_candles_by_connector_trading_pair,
    MarketMakingStrategyBase.get_candles_dict.
  rewrite candles_fill_phase, candles_empty_phase.
  destruct (existsb _ (MarketMakingStrategyBase.candles self)) eqn:Hex.
  - rewrite candles_inner_phase. destruct (find _ _); reflexivity.
  - simpl. symmetry. apply find_absent. intros c Hc.
    apply in_rev in Hc.
    destruct (String.eqb (MarketMakingStrategyBase.name c) _) eqn:Hname; [| reflexivity].
    exfalso. apply Bool.not_true_iff_false in Hex. apply Hex.
    apply existsb_exists. eauto.
Qed.

Lemma set_add_spec (x : string) (s : list string) :
  In x (MarketMakingStrategyBase.set_add x s) /\
  incl s (MarketMakingStrategyBase.set_add x s) /\
  MarketMakingStrategyBase.set_add x (MarketMakingStrategyBase.set_add x s)
  = MarketMakingStrategyBase.set_add x s.
Proof.
  unfold MarketMakingStrategyBase.set_add.
  destruct (existsb (String.eqb x) s) eqn:Hex.
  - rewrite Hex. split; [| split; [apply incl_refl | reflexivity]].
    apply existsb_exists in Hex as (y & Hy & Heq).
    apply String.eqb_eq in Heq. now subst.
  - assert (Hin : In x (s ++ [x])) by (apply in_or_app; right; now left).
    split; [exact Hin |]. split; [apply incl_appl, incl_refl |].
    assert (Hex' : existsb (String.eqb x) (s ++ [x]) = true).
    { apply existsb_exists. exists x. split; [exact Hin | apply String.eqb_refl]. }
    now rewrite Hex'.
Qed.

(** X25: [update_strategy_markets_dict] registers the market of the
    strategy and nothing else: afterwards the exchange maps to a set that
    holds the trading pair and every pair it held before, every other
    exchange maps to what it mapped to before, and a second call changes
    nothing. *)
Theorem update_markets_dict_registers (self : MarketMakingStrategyBase.MarketMakingStrategyBase)
        (markets_dict : MarketMakingStrategyBase.dict (list string)) :
  let ex := MarketMakingStrategyBase.exchange (MarketMakingStrategyBase.config self) in
  let pair := MarketMakingStrategyBase.trading_pair (MarketMakingStrategyBase.config self) in
  let updated := MarketMakingStrategyBase.update_strategy_markets_dict self markets_dict in
  (exists pairs,
      MarketMakingStrategyBase.dict_get updated ex = Some pairs /\
      In pair pairs /\
      forall before,
        MarketMakingStrategyBase.dict_get markets_dict ex = Some before ->
        incl before pairs) /\
  (forall other,
      other <> ex ->
      MarketMakingStrategyBase.dict_get updated other
      = MarketMakingStrategyBase.dict_get markets_dict other) /\
  MarketMakingStrategyBase.update_strategy_markets_dict self updated = updated.
Proof.
  cbn zeta. unfold MarketMakingStrategyBase.update_strategy_markets_dict.
  set (ex := MarketMakingStrategyBase.exchange (MarketMakingStrategyBase.config self)).
  set (pair := MarketMakingStrategyBase.trading_pair (MarketMakingStrategyBase.config self)).
  destruct (MarketMakingStrategyBase.dict_get markets_dict ex) as [before |] eqn:Hget.
  - destruct (set_add_spec pair before) as (Hin & Hincl & Hidem).
    split; [| split].
    + exists (MarketMakingStrategyBase.set_add pair before).
      rewrite dict_get_set, String.eqb_refl.
      split; [reflexivity |]. split; [exact Hin |].
      intros before' Hb. now injection Hb as <-.
    + intros other Hother. rewrite dict_get_set.
      apply not_eq_sym, String.eqb_neq in Hother. now rewrite Hother.
    + rewrite dict_get_set, String.eqb_refl, Hidem.
      apply dict_set_same. now rewrite dict_get_set, String.eqb_refl.
  - split; [| split].
    + exists [pair]. rewrite dict_get_set, String.eqb_refl.
      split; [reflexivity |]. split; [now left |].
      intros before Hb. discriminate.
    + intros other Hother. rewrite dict_get_set.
      apply not_eq_sym, String.eqb_neq in Hother. now rewrite Hother.
    + rewrite dict_get_set, String.eqb_refl.
      unfold MarketMakingStrategyBase.set_add. simpl. rewrite String.eqb_refl. simpl.
      apply dict_set_same. now rewrite dict_get_set, String.eqb_refl.
Qed.

(** X26: both timing conditions are monotone in time: once an order is due
    for refresh it stays due, and once a cooldown has ended it does not
    start again. *)
Theorem timing_conditions_monotone (self : MarketMakingStrategyBase.MarketMakingStrategyBase)
        (timestamp now later : Q) :
  now <= later ->
  (MarketMakingStrategyBase.refresh_order_condition self timestamp now = true ->
   MarketMakingStrategyBase.refresh_order_condition self timestamp later = true) /\
  (MarketMakingStrategyBase.cooldown_condition self timestamp now = false ->
   MarketMakingStrategyBase.cooldown_condition self timestamp later = false).
Proof.
  intros Hlater.
  unfold MarketMakingStrategyBase.refresh_order_condition,
    MarketMakingStrategyBase.cooldown_condition.
  assert (Hmono : forall bound, Qltb now bound = false -> Qltb later bound = false).
  { intros bound Hnow. apply Qltb_ge in Hnow.
    destruct (Qltb later bound) eqn:Hl; [| reflexivity].
    apply Qltb_lt in Hl. exfalso.
    apply (Qlt_irrefl bound).
    eapply Qle_lt_trans; [exact Hnow |]. eapply Qle_lt_trans; eassumption. }
  split.
  - destruct (Qltb now _) eqn:Hnow; [discriminate |].
    intros _. now rewrite (Hmono _ Hnow).
  - destruct (Qltb now _) eqn:Hnow; [discriminate |].
    intros _. now rewrite (Hmono _ Hnow).
Qed.

Lemma timing_conditions_witness :
  (MarketMakingStrategyBase.refresh_order_condition Inputs.base_strategy 1000 1060 = true ->
   MarketMakingStrategyBase.refresh_order_condition Inputs.base_strategy 1000 1090 = true) /\
  (MarketMakingStrategyBase.cooldown_condition Inputs.base_strategy 1000 1060 = false ->
   MarketMakingStrategyBase.cooldown_condition Inputs.base_strategy 1000 1090 = false).
Proof.
  apply (timing_conditions_monotone Inputs.base_strategy 1000 1060 1090).
  discriminate.
Defined.

(** The second three-minute feed of the example strategy shadows the
    first; an interval that no feed has is a [KeyError]. *)
Example get_candle_example :
  MarketMakingStrategyBase.get_candle Inputs.base_strategy
    "binance_perpetual" "BTC-USDT" "3m"
  = Some {| MarketMakingStrategyBase.name := "binance_perpetual_BTC-USDT";
            MarketMakingStrategyBase.interval := "3m";
            MarketMakingStrategyBase.is_ready := true |} /\
  MarketMakingStrategyBase.get_candle Inputs.base_strategy
    "binance_perpetual" "BTC-USDT" "1d" = None /\
  MarketMakingStrategyBase.get_candle Inputs.base_strategy
    "kucoin" "BTC-USDT" "3m" = None.
Proof. repeat split. Qed.

(** ** More on the single-level script *)

(** X27: the stop proposal consists of one [Stop] action for each executor
    that is active, not trading and older than the refresh time, and of
    nothing else. *)
Theorem stop_proposal_targets_stale_orders (self : PMMSingleLevel.PMMSingleLevel)
        (action : PMMSingleLevel.ExecutorAction) :
  In action (PMMSingleLevel.stop_actions_proposal self) <->
  exists x,
    In x (PMMSingleLevel.all_executors self) /\
    action = PMMSingleLevel.StopExecutorAction (PMMSingleLevel.id x) /\
    PMMSingleLevel.is_trading x = false /\
    PMMSingleLevel.is_active x = true /\
    inject_Z (PMMSingleLevel.executor_refresh_time (PMMSingleLevel.config self))
    < PMMSingleLevel.current_timestamp self - PMMSingleLevel.timestamp x.
Proof.
  unfold PMMSingleLevel.stop_actions_proposal, PMMSingleLevel.executors_to_early_stop,
    PMMSingleLevel.executors_to_refresh, PMMSingleLevel.filter_executors.
  rewrite app_nil_r, in_map_iff. split.
  - intros (x & <- & Hx). apply filter_In in Hx as [Hin Hx].
    apply andb_true_iff in Hx as [Hx Hold]. apply andb_true_iff in Hx as [Htrading Hactive].
    exists x. repeat split; try assumption.
    + now apply negb_true_iff.
    + now apply Qltb_lt.
  - intros (x & Hin & -> & Htrading & Hactive & Hold).
    exists x. split; [reflexivity |]. apply filter_In. split; [assumption |].
    rewrite Htrading, Hactive. simpl.
    unfold Qltb. apply negb_true_iff.
    destruct (Qle_bool _ _) eqn:Hle; [| reflexivity].
    apply Qle_bool_iff in Hle. exfalso.
    apply (Qlt_irrefl (inject_Z (PMMSingleLevel.executor_refresh_time
                                   (PMMSingleLevel.config self)))).
    eapply Qlt_le_trans; eassumption.
Qed.

(** X28: the account is configured once.  After a call of
    [set_position_mode_and_leverage] the flag is set and a further call
    makes no connector call and changes nothing; the calls of the first
    call go to perpetual connectors of the strategy only, and each of those
    gets its position mode and, per trading pair, its leverage. *)
Theorem account_is_configured_once (is_perpetual : string -> bool)
        (self : PMMSingleLevel.PMMSingleLevel) :
  let result := PMMSingleLevel.set_position_mode_and_leverage is_perpetual self in
  PMMSingleLevel.account_config_set (fst result) = true /\
  PMMSingleLevel.set_position_mode_and_leverage is_perpetual (fst result)
  = (fst result, []) /\
  Forall (fun call =>
            In (PMMSingleLevel.call_connector call) (PMMSingleLevel.connectors self) /\
            is_perpetual (PMMSingleLevel.call_connector call) = true)
         (snd result) /\
  (PMMSingleLevel.account_config_set self = false ->
   forall c,
     In c (PMMSingleLevel.connectors self) -> is_perpetual c = true ->
     In (PMMSingleLevel.SetPositionMode c
           (PMMSingleLevel.position_mode (PMMSingleLevel.config self)))
        (snd result) /\
     forall p,
       In p (PMMSingleLevel.get_trading_pairs
               (PMMSingleLevel.market_data_provider self) c) ->
       In (PMMSingleLevel.SetLeverage c p
             (PMMSingleLevel.leverage (PMMSingleLevel.config self)))
          (snd result)).
Proof.
  cbn zeta. unfold PMMSingleLevel.set_position_mode_and_leverage.
  destruct (PMMSingleLevel.account_config_set self) eqn:Hset; cbn [fst snd].
  - rewrite Hset. split; [reflexivity |]. split; [reflexivity |].
    split; [constructor | discriminate].
  - cbn [PMMSingleLevel.account_config_set].
    split; [reflexivity |]. split; [reflexivity |]. split.
    + apply Forall_flat_map, Forall_forall. intros c Hc.
      destruct (is_perpetual c) eqn:Hperp; [| constructor].
      constructor; [simpl; auto |].
      apply Forall_map, Forall_forall. intros p _. simpl. auto.
    + intros _ c Hc Hperp. split.
      * apply in_flat_map. exists c. split; [assumption |].
        rewrite Hperp. now left.
      * intros p Hp. apply in_flat_map. exists c. split; [assumption |].
        rewrite Hperp. right.
        exact (in_map (fun trading_pair =>
                         PMMSingleLevel.SetLeverage c trading_pair
                           (PMMSingleLevel.leverage (PMMSingleLevel.config self)))
                      _ _ Hp).
Qed.

Lemma account_is_configured_once_witness :
  let result :=
    PMMSingleLevel.set_position_mode_and_leverage Inputs.perpetual_by_name
      Inputs.fresh_strategy in
  snd result
  = [PMMSingleLevel.SetPositionMode "binance_perpetual" PMMSingleLevel.HEDGE;
     PMMSingleLevel.SetLeverage "binance_perpetual" "BTC-USDT" 20] /\
  PMMSingleLevel.account_config_set (fst result) = true /\
  PMMSingleLevel.set_position_mode_and_leverage Inputs.perpetual_by_name (fst result)
  = (fst result, []) /\
  In (PMMSingleLevel.SetLeverage "binance_perpetual" "BTC-USDT" 20) (snd result).
Proof.
  cbn zeta.
  destruct (account_is_configured_once Inputs.perpetual_by_name Inputs.fresh_strategy)
    as (Hflag & Hagain & _ & Hcalls).
  split; [reflexivity |]. split; [exact Hflag |]. split; [exact Hagain |].
  destruct (Hcalls eq_refl "binance_perpetual"%string) as [_ Hlev];
    [simpl; auto | reflexivity |].
  apply (Hlev "BTC-USDT"%string). simpl. auto.
Defined.

(** X29: with a spread strictly between 0 and 1 and positive mid prices on
    every listed market, the creation proposal returns, and each proposed
    order is worth the configured quote amount at its entry price (exactly
    so in the exact arithmetic of the embedding, rounding apart); a Buy
    enters strictly below the mid price of its market and a Sell strictly
    above it. *)
Theorem created_orders_bracket_mid (self : PMMSingleLevel.PMMSingleLevel) :
  0 < PMMSingleLevel.spread (PMMSingleLevel.config self) ->
  PMMSingleLevel.spread (PMMSingleLevel.config self) < 1 ->
  (forall c p,
      In c (PMMSingleLevel.connectors self) ->
      In p (PMMSingleLevel.get_trading_pairs (PMMSingleLevel.market_data_provider self) c) ->
      0 < PMMSingleLevel.mid_price (PMMSingleLevel.market_data_provider self) c p) ->
  exists actions,
    PMMSingleLevel.create_actions_proposal self = Ok actions /\
    Forall
      (fun action =>
         match action with
         | PMMSingleLevel.CreateExecutorAction o =>
             PMMSingleLevel.amount o * PMMSingleLevel.entry_price o
             == PMMSingleLevel.order_amount_quote (PMMSingleLevel.config self) /\
             (PMMSingleLevel.pe_side o = BUY ->
              PMMSingleLevel.entry_price o
              < PMMSingleLevel.mid_price (PMMSingleLevel.market_data_provider self)
                  (PMMSingleLevel.exchange o) (PMMSingleLevel.pe_trading_pair o)) /\
             (PMMSingleLevel.pe_side o = SELL ->
              PMMSingleLevel.mid_price (PMMSingleLevel.market_data_provider self)
                (PMMSingleLevel.exchange o) (PMMSingleLevel.pe_trading_pair o)
              < PMMSingleLevel.entry_price o)
         | _ => False
         end)
      actions.
Proof.
  intros Hpos Hlt Hmid.
  set (s := PMMSingleLevel.spread (PMMSingleLevel.config self)) in *.
  assert (Hms : forall m, 0 < m -> 0 < m * s).
  { intros m Hm. setoid_replace 0 with (0 * s) by ring.
    now apply Qmult_lt_compat_r. }
  assert (Hbuy : forall m, 0 < m -> 0 < m * (1 - s) /\ m * (1 - s) < m).
  { intros m Hm. split.
    - setoid_replace 0 with (0 * (1 - s)) by ring.
      apply Qmult_lt_compat_r; [| assumption].
      apply Qlt_minus_iff in Hlt. exact Hlt.
    - apply Qlt_minus_iff.
      setoid_replace (m + - (m * (1 - s))) with (m * s) by ring. auto. }
  assert (Hsell : forall m, 0 < m -> 0 < m * (1 + s) /\ m < m * (1 + s)).
  { intros m Hm. split.
    - setoid_replace 0 with (0 * (1 + s)) by ring.
      apply Qmult_lt_compat_r; [| assumption].
      apply Qlt_trans with s; [assumption |].
      apply Qlt_minus_iff. setoid_replace (1 + s + - s) with 1 by ring. reflexivity.
    - apply Qlt_minus_iff.
      setoid_replace (m * (1 + s) + - m) with (m * s) by ring. auto. }
  assert (Hnz : forall x, 0 < x -> ~ x == 0).
  { intros x Hx Heq. rewrite Heq in Hx. now apply Qlt_irrefl in Hx. }
  eexists. split.
  { apply create_actions_proposal_ok. intros c p Hc Hp.
    unfold PMMSingleLevel.entry_price_of. fold s.
    split; apply Hnz; [apply Hbuy | apply Hsell]; auto. }
  apply Forall_flat_map, Forall_forall. intros c Hc.
  apply Forall_flat_map, Forall_forall. intros p Hp.
  specialize (Hmid c p Hc Hp).
  unfold PMMSingleLevel.market_actions, PMMSingleLevel.entry_price_of. fold s.
  apply Forall_app. split.
  - destruct (Nat.eqb _ 0); constructor; [| constructor].
    cbn [PMMSingleLevel.order_at PMMSingleLevel.amount PMMSingleLevel.entry_price
         PMMSingleLevel.pe_side PMMSingleLevel.exchange PMMSingleLevel.pe_trading_pair].
    destruct (Hbuy _ Hmid) as [Hpos' Hbelow].
    split; [rewrite Qmult_comm; apply Qmult_div_r; now apply Hnz |].
    split; [intros _; exact Hbelow | discriminate].
  - destruct (Nat.eqb _ 0); constructor; [| constructor].
    cbn [PMMSingleLevel.order_at PMMSingleLevel.amount PMMSingleLevel.entry_price
         PMMSingleLevel.pe_side PMMSingleLevel.exchange PMMSingleLevel.pe_trading_pair].
    destruct (Hsell _ Hmid) as [Hpos' Habove].
    split; [rewrite Qmult_comm; apply Qmult_div_r; now apply Hnz |].
    split; [discriminate | intros _; exact Habove].
Qed.

Lemma created_orders_bracket_mid_witness :
  exists actions,
    PMMSingleLevel.create_actions_proposal (Scenario.strategy ["binance"%string] [])
    = Ok actions /\
    Forall
      (fun action =>
         match action with
         | PMMSingleLevel.CreateExecutorAction o =>
             PMMSingleLevel.amount o * PMMSingleLevel.entry_price o == 30 /\
             (PMMSingleLevel.pe_side o = BUY -> PMMSingleLevel.entry_price o < 100) /\
             (PMMSingleLevel.pe_side o = SELL -> 100 < PMMSingleLevel.entry_price o)
         | _ => False
         end)
      actions.
Proof.
  apply (created_orders_bracket_mid (Scenario.strategy ["binance"%string] [])).
  - reflexivity.
  - reflexivity.
  - intros c p _ _. reflexivity.
Defined.

Lemma mapM_cases {A B : Type} (f : A -> result B) (l : list A) (e0 : exn) :
  (forall a, In a l -> f a = Raise e0 \/ exists b, f a = Ok b) ->
  mapM f l = Raise e0 \/ exists bs, mapM f l = Ok bs.
Proof.
  induction l as [| a l IH]; simpl; intros Hf; [eauto |].
  destruct (Hf a (or_introl eq_refl)) as [-> | (b & ->)]; [now left |].
  cbn [bind].
  destruct IH as [-> | (bs & ->)].
  - intros a' Ha'. apply Hf. now right.
  - now left.
  - cbn [bind]. eauto.
Qed.

Lemma mapM_fails {A B : Type} (f : A -> result B) (l : list A) (e0 : exn) :
  (forall a, In a l -> f a = Raise e0 \/ exists b, f a = Ok b) ->
  (exists a, In a l /\ f a = Raise e0) ->
  mapM f l = Raise e0.
Proof.
  induction l as [| a l IH]; simpl; intros Hf (a0 & Hin & Hraise); [contradiction |].
  destruct (Hf a (or_introl eq_refl)) as [-> | (b & Hb)]; [reflexivity |].
  rewrite Hb. cbn [bind].
  destruct Hin as [-> | Hin]; [congruence |].
  rewrite IH; [reflexivity | | eauto].
  intros a' Ha'. apply Hf. now right.
Qed.

Lemma create_order_cases (self : PMMSingleLevel.PMMSingleLevel) (c p : string)
      (s : TradeType) (order_price : Q) :
  ~ PMMSingleLevel.order_amount_quote (PMMSingleLevel.config self) == 0 ->
  PMMSingleLevel.create_order self c p s order_price
  = if Qeq_bool order_price 0
    then Raise DivisionByZero
    else Ok (PMMSingleLevel.order_at self c p s order_price).
Proof.
  intros Hquote. unfold PMMSingleLevel.create_order, dec_div.
  destruct (Qeq_bool order_price 0); [| reflexivity].
  destruct (Qeq_bool _ 0) eqn:Hq; [| reflexivity].
  apply Qeq_bool_eq in Hq. contradiction.
Qed.

Lemma create_actions_for_cases (self : PMMSingleLevel.PMMSingleLevel) (c p : string) :
  ~ PMMSingleLevel.order_amount_quote (PMMSingleLevel.config self) == 0 ->
  (PMMSingleLevel.create_actions_for self c p = Raise DivisionByZero \/
   exists actions, PMMSingleLevel.create_actions_for self c p = Ok actions) /\
  ((PMMSingleLevel.len_active self BUY p = 0%nat /\
    PMMSingleLevel.entry_price_of self c p BUY == 0) \/
   (PMMSingleLevel.len_active self SELL p = 0%nat /\
    PMMSingleLevel.entry_price_of self c p SELL == 0) ->
   PMMSingleLevel.create_actions_for self c p = Raise DivisionByZero).
Proof.
  intros Hquote.
  unfold PMMSingleLevel.create_actions_for, PMMSingleLevel.entry_price_of.
  rewrite !create_order_cases by assumption.
  set (buy_price := PMMSingleLevel.mid_price _ c p * (1 - _)).
  set (sell_price := PMMSingleLevel.mid_price _ c p * (1 + _)).
  destruct (Nat.eqb_spec (PMMSingleLevel.len_active self BUY p) 0) as [Hb | Hb];
    destruct (Nat.eqb_spec (PMMSingleLevel.len_active self SELL p) 0) as [Hs | Hs];
    destruct (Qeq_bool buy_price 0) eqn:Hbz;
    destruct (Qeq_bool sell_price 0) eqn:Hsz;
    cbn [bind]; (split; [eauto |]);
    intros [[Hb' Hz] | [Hs' Hz]];
    try reflexivity; try contradiction;
    apply Qeq_eq_bool in Hz; congruence.
Qed.

(** X30: one market without a price stops the whole proposal.  With a
    non-zero quote amount, if some listed market has a side that is due for
    creation and whose entry price is zero (a zero mid price, or a spread of
    1 on the Buy side), the creation proposal raises
    [decimal.DivisionByZero] and proposes nothing, for any market. *)
Theorem zero_entry_price_fails_proposal (self : PMMSingleLevel.PMMSingleLevel)
        (c p : string) :
  ~ PMMSingleLevel.order_amount_quote (PMMSingleLevel.config self) == 0 ->
  In c (PMMSingleLevel.connectors self) ->
  In p (PMMSingleLevel.get_trading_pairs (PMMSingleLevel.market_data_provider self) c) ->
  (PMMSingleLevel.len_active self BUY p = 0%nat /\
   PMMSingleLevel.entry_price_of self c p BUY == 0) \/
  (PMMSingleLevel.len_active self SELL p = 0%nat /\
   PMMSingleLevel.entry_price_of self c p SELL == 0) ->
  PMMSingleLevel.create_actions_proposal self = Raise DivisionByZero.
Proof.
  intros Hquote Hc Hp Hdue.
  unfold PMMSingleLevel.create_actions_proposal.
  assert (Hinner : forall c',
             mapM (PMMSingleLevel.create_actions_for self c')
                  (PMMSingleLevel.get_trading_pairs
                     (PMMSingleLevel.market_data_provider self) c')
             = Raise DivisionByZero \/
             exists per_pair,
               mapM (PMMSingleLevel.create_actions_for self c')
                    (PMMSingleLevel.get_trading_pairs
                       (PMMSingleLevel.market_data_provider self) c')
               = Ok per_pair).
  { intros c'. apply mapM_cases. intros p' _.
    now apply create_actions_for_cases. }
  rewrite (mapM_fails _ _ DivisionByZero); [reflexivity | |].
  - intros c' _. destruct (Hinner c') as [-> | (per_pair & ->)]; cbn [bind]; eauto.
  - exists c. split; [assumption |].
    rewrite (mapM_fails _ _ DivisionByZero); [reflexivity | |].
    + intros p' _. now apply create_actions_for_cases.
    + exists p. split; [assumption |].
      now apply create_actions_for_cases.
Qed.

Lemma zero_entry_price_witness :
  PMMSingleLevel.create_actions_proposal Inputs.strategy_without_price
  = Raise DivisionByZero.
Proof.
  apply (zero_entry_price_fails_proposal Inputs.strategy_without_price
           "binance" "BTC-USDT").
  - vm_compute. discriminate.
  - simpl. auto.
  - simpl. auto.
  - left. split; reflexivity.
Defined.
